(** * Alpaca: the adaptive proxy-authentication chain

  A shallow embedding of the authentication code of Alpaca
  (multiauth.go, kerberos_darwin.go, the start-up code of main.go and
  the request loggers of requestlogger.go) together with the properties
  of it that the design document states, and further properties that
  the code shows.

  Go pointers are modelled by explicit state passing: the targets of the
  pointers a function receives live in a state record, and every call on
  a collaborator (an authenticator, a response body, the logger, the GSS
  library, the round tripper) is recorded in the list of events the
  computation emits. *)

From Stdlib Require Import ZArith Lia Strings.Byte Ascii String DecimalString.
From stdpp Require Import base strings gmap list relations.

Local Open Scope Z_scope.
Local Open Scope string_scope.

(** ** net/http as far as the authenticators use it *)

Module Http.

(** [http.Header]: header name to its values. *)
Abbreviation Header := (gmap string (list string)).

(** [Header.Set]: replaces whatever values the key had by the single
    value given. The canonical form of the key is the caller's concern;
    the one key set in this program is already canonical. *)
Definition Header_Set (h : Header) (key value : string) : Header :=
  <[key := [value]]> h.

Definition Header_Get (h : Header) (key : string) : string :=
  match h !! key with
  | Some (v :: _) => v
  | _ => ""
  end.

(** [*http.Request]: the context entry under [contextKeyProxy] (absent
    when no upstream proxy was selected) and the header map. *)
Record Request (URL : Type) := mkRequest {
  ctx_proxy : option URL;
  req_Header : Header
}.
Arguments mkRequest {URL}.
Arguments ctx_proxy {URL}.
Arguments req_Header {URL}.

(** [*http.Response]: the status code and the body (an [io.ReadCloser]). *)
Record Response (Body : Type) := mkResponse {
  StatusCode : Z;
  resp_Body : Body
}.
Arguments mkResponse {Body}.
Arguments StatusCode {Body}.
Arguments resp_Body {Body}.

Definition StatusProxyAuthRequired : Z := 407.

(** Go's [error] values, by their message. *)
Inductive error := Errorf (msg : string).

(** What a function returning a response pointer and an error hands
    back; either may be nil. *)
Definition Result (Body : Type) : Type := (option (Response Body) * option error)%type.

End Http.

Import Http.

(** ** Computations with state and a record of the calls they make *)

Module Eff.

(** The outcome of running a computation: its value, the state it
    leaves, and the events it emitted, oldest first. *)
Record Out (S E X : Type) := mkOut {
  val : X;
  post : S;
  emitted : list E
}.
Arguments mkOut {S E X}.
Arguments val {S E X}.
Arguments post {S E X}.
Arguments emitted {S E X}.

Definition M (S E X : Type) : Type := S -> Out S E X.

Definition ret {S E X} (x : X) : M S E X := fun s => mkOut x s [].

Definition bind {S E X Y} (c : M S E X) (k : X -> M S E Y) : M S E Y :=
  fun s =>
    let o1 := c s in
    let o2 := k (val o1) (post o1) in
    mkOut (val o2) (post o2) (emitted o1 ++ emitted o2).

(** Emit one event. *)
Definition emit {S E} (e : E) : M S E unit := fun s => mkOut tt s [e].

(** Read from and act on the state. *)
Definition gets {S E X} (f : S -> X) : M S E X := fun s => mkOut (f s) s [].
Definition modify {S E} (f : S -> S) : M S E unit := fun s => mkOut tt (f s) [].

Module Notations.
Notation "x <- c ;; k" := (bind c (fun x => k))
  (at level 100, c at next level, right associativity).
Notation "c ;; k" := (bind c (fun _ => k))
  (at level 100, right associativity).
End Notations.

End Eff.

Import Eff Eff.Notations.

(** ** multiauth.go *)

Module MultiAuth.

Section multiauth.

(** The authenticators of the chain (the non-nil values of the interface
    [proxyAuthenticator]), the round tripper, the parsed proxy URL with
    its [Hostname] method, response bodies, and the state [W] of all
    that the authenticators and the transport can touch. *)
Context {A URL RoundTripper Body W : Type}.

Variable Hostname : URL -> string.

(** [method.do(req, rt)] for a method of the chain: it may change the
    request it is given (the headers) and the world, and returns a
    response and an error. *)
Variable method_do :
  A -> Request URL -> RoundTripper -> W -> Result Body * Request URL * W.

(** [resp.Body.Close()]. *)
Variable Body_Close : Body -> W -> W.

(** [type multiAuthenticator struct]; the lock [mu] guards [cache] and
    has no sequential content. *)
Record multiAuthenticator := mkMulti {
  methods : list A;
  cache : gmap string A
}.

(** *** newMultiAuthenticator *)

(** The interface value that [newMultiAuthenticator] returns. *)
Inductive proxyAuthenticator :=
| nil_authenticator
| single (a : A)
| multi (m : multiAuthenticator).

(** The first loop: [filtered] collects the entries that are not nil. *)
Fixpoint filter_nil (ms : list (option A)) : list A :=
  match ms with
  | [] => []
  | Some m :: ms' => m :: filter_nil ms'
  | None :: ms' => filter_nil ms'
  end.

Definition newMultiAuthenticator (ms : list (option A)) : proxyAuthenticator :=
  let filtered := filter_nil ms in
  match filtered with
  | [] => nil_authenticator
  | [m] => single m
  | _ => multi {| methods := filtered; cache := ∅ |}
  end.

(** *** The state and the events of a call *)

(** The targets of the pointers [m] and [req], and the world. *)
Record St := mkSt {
  st_m : multiAuthenticator;
  st_req : Request URL;
  st_world : W
}.

(** Calls on collaborators, in the order they are made. An invocation
    of a method is recorded with what it returned. *)
Inductive Event :=
| EvDo (a : A) (r : Result Body)
| EvClose (b : Body)
| EvLog (msg : string).

Abbreviation M := (Eff.M St Event).

(** [method.do(req, rt)], recorded. *)
Definition call (a : A) (rt : RoundTripper) : M (Result Body) :=
  fun s =>
    let '(r, req', w') := method_do a (st_req s) rt (st_world s) in
    mkOut r (mkSt (st_m s) req' w') [EvDo a r].

Definition get_req : M (Request URL) := gets st_req.

Definition get_methods : M (list A) := gets (fun s => methods (st_m s)).

(** [cached, ok := m.cache[proxyHost]] *)
Definition cache_get (h : string) : M (option A) :=
  gets (fun s => cache (st_m s) !! h).

(** [m.cache[proxyHost] = method] *)
Definition cache_set (h : string) (a : A) : M unit :=
  modify (fun s =>
    mkSt {| methods := methods (st_m s); cache := <[h := a]> (cache (st_m s)) |}
         (st_req s) (st_world s)).

Definition close_body (resp : Response Body) : M unit :=
  modify (fun s =>
    mkSt (st_m s) (st_req s) (Body_Close (resp_Body resp) (st_world s))) ;;
  emit (EvClose (resp_Body resp)).

Definition log_Printf (msg : string) : M unit := emit (EvLog msg).

(** *** multiAuthenticator.do *)

(** What [do] hands to its caller; a nil response with a nil error from
    a method makes [resp.StatusCode] panic. *)
Inductive Ret :=
| Return (resp : option (Response Body)) (err : option error)
| Panic.

(** The first lines of [do]: the host name of the proxy in the request
    context, or the empty string. *)
Definition proxyHost_of (req : Request URL) : string :=
  match ctx_proxy req with
  | Some u => Hostname u
  | None => ""
  end.

(** The [for i, method := range m.methods] loop, entered at index [i]
    with [rest] still to visit; [n] is [len(m.methods)]. Falling out of
    the loop reaches the final [return nil, fmt.Errorf(...)]. *)
Fixpoint try_methods (n i : Z) (rest : list A) (proxyHost : string)
    (rt : RoundTripper) : M Ret :=
  match rest with
  | [] => ret (Return None (Some (Errorf "no authentication methods configured")))
  | method :: rest' =>
      r <- call method rt ;;
      match r with
      | (_, Some err) => ret (Return None (Some err))
      | (None, None) => ret Panic
      | (Some resp, None) =>
          if bool_decide (StatusCode resp ≠ StatusProxyAuthRequired) then
            (if bool_decide (proxyHost ≠ "") then
               cache_set proxyHost method ;;
               log_Printf ("Cached auth method for proxy " +:+ proxyHost)
             else ret tt) ;;
            ret (Return (Some resp) None)
          else if bool_decide (i < n - 1) then
            close_body resp ;;
            try_methods n (i + 1) rest' proxyHost rt
          else
            ret (Return (Some resp) None)
      end
  end.

Definition do (rt : RoundTripper) : M Ret :=
  req <- get_req ;;
  let proxyHost := proxyHost_of req in
  hit <- (if bool_decide (proxyHost ≠ "") then cache_get proxyHost else ret None) ;;
  match hit with
  | Some cached =>
      r <- call cached rt ;;
      ret (Return r.1 r.2)
  | None =>
      ms <- get_methods ;;
      try_methods (Z.of_nat (length ms)) 0 ms proxyHost rt
  end.

(** *** Reading a trace, and the life of the process *)

(** The method the cache holds for the proxy host of the request, as
    the guard at the head of [do] finds it. *)
Definition cached_method (s : St) : option A :=
  if bool_decide (proxyHost_of (st_req s) ≠ "") then
    cache (st_m s) !! proxyHost_of (st_req s)
  else None.

(** The methods invoked, in order. *)
Definition invocations (evs : list Event) : list A :=
  omap (fun e => match e with EvDo a _ => Some a | _ => None end) evs.

(** The bodies closed, in order. *)
Definition closes (evs : list Event) : list Body :=
  omap (fun e => match e with EvClose b => Some b | _ => None end) evs.

(** One step in the life of the process as the cache sees it: a call of
    [do], or anything that happens outside (the next request arrives,
    the world changes); only [do] writes the cache. *)
Inductive step : St -> St -> Prop :=
| step_do (rt : RoundTripper) (s : St) : step s (post (do rt s))
| step_outside (s : St) (req : Request URL) (w : W) :
    step s (mkSt (st_m s) req w).

(** The state a method leaves: the receiver untouched, the request and
    the world as the method returned them. *)
Definition after_call (s : St) (req' : Request URL) (w' : W) : St :=
  mkSt (st_m s) req' w'.

(** The state after the cache entry for [h] is written. *)
Definition with_cached (s : St) (h : string) (a : A) : St :=
  mkSt (mkMulti (methods (st_m s)) (<[h := a]> (cache (st_m s)))) (st_req s) (st_world s).

(** Every method invoked answered with a response of status 407. *)
Definition every_answer_407 (evs : list Event) : Prop :=
  forall a r, EvDo a r ∈ evs ->
    exists resp, r = (Some resp, None) /\ StatusCode resp = StatusProxyAuthRequired.

(** The cache names only methods of the chain. *)
Definition cache_in_chain (m : multiAuthenticator) : Prop :=
  forall h a, cache m !! h = Some a -> a ∈ methods m.

End multiauth.

End MultiAuth.

(** ** encoding/base64 and fmt as far as kerberos_darwin.go uses them *)

Module Base64.

Definition encodeStd : string :=
  "ABCDEFGHIJKLMNOPQRSTUVWXYZabcdefghijklmnopqrstuvwxyz0123456789+/".

Definition StdPadding : ascii := "="%char.

(** [enc.encode[i]] for an index below 64. *)
Definition encode (i : Z) : ascii :=
  match String.get (Z.to_nat i) encodeStd with
  | Some c => c
  | None => StdPadding
  end.

Definition uint (b : byte) : Z := Z.of_N (Byte.to_N b).

(** [StdEncoding.EncodeToString]: three bytes give four characters; a
    remainder of one or two bytes is padded. *)
Fixpoint EncodeToString (src : list byte) : string :=
  match src with
  | [] => ""
  | [s0] =>
      let v := Z.shiftl (uint s0) 16 in
      String (encode (Z.land (Z.shiftr v 18) 63))
        (String (encode (Z.land (Z.shiftr v 12) 63))
           (String StdPadding (String StdPadding "")))
  | [s0; s1] =>
      let v := Z.lor (Z.shiftl (uint s0) 16) (Z.shiftl (uint s1) 8) in
      String (encode (Z.land (Z.shiftr v 18) 63))
        (String (encode (Z.land (Z.shiftr v 12) 63))
           (String (encode (Z.land (Z.shiftr v 6) 63))
              (String StdPadding "")))
  | s0 :: s1 :: s2 :: rest =>
      let v := Z.lor (Z.lor (Z.shiftl (uint s0) 16) (Z.shiftl (uint s1) 8)) (uint s2) in
      String (encode (Z.land (Z.shiftr v 18) 63))
        (String (encode (Z.land (Z.shiftr v 12) 63))
           (String (encode (Z.land (Z.shiftr v 6) 63))
              (String (encode (Z.land v 63))
                 (EncodeToString rest))))
  end.

(** The bytes of a string, for test vectors. *)
Definition bytes_of (s : string) : list byte :=
  map byte_of_ascii (list_ascii_of_string s).

End Base64.

Module Fmt.

(** The verb [%d] on an integer. *)
Definition d (z : Z) : string := NilZero.string_of_int (Z.to_int z).

End Fmt.

(** ** kerberos_darwin.go *)

Module Negotiate.

(** Status codes of GSS.h (RFC 2744). *)
Definition GSS_S_COMPLETE : Z := 0.
Definition GSS_S_CONTINUE_NEEDED : Z := 1.

(** The conversion [C.int(tokenLen)] of a [size_t] to a 32-bit int. *)
Definition C_int (n : Z) : Z :=
  let m := n mod 2 ^ 32 in
  if (m <? 2 ^ 31)%Z then m else m - 2 ^ 32.

Section negotiate.

(** The proxy URL, the round tripper, response bodies, GSS names and
    security contexts, and the state [W] of the GSS library, the C heap
    and the network. *)
Context {URL RoundTripper Body Name Ctx W : Type}.

Variable Hostname : URL -> string.

(** [gss_import_name]: major and minor status and the imported name
    ([None] for [GSS_C_NO_NAME]). *)
Variable gss_import_name : string -> W -> (Z * Z * option Name) * W.

(** [gss_init_sec_context] for the SPNEGO mechanism with the default
    credential: major and minor status, the context ([None] for
    [GSS_C_NO_CONTEXT]) and the output token. *)
Variable gss_init_sec_context :
  option Name -> W -> (Z * Z * option Ctx * list byte) * W.

(** [gss_release_name]: the minor status it leaves in [minor]. *)
Variable gss_release_name : option Name -> W -> Z * W.
Variable gss_delete_sec_context : Ctx -> W -> W.
Variable gss_release_buffer : list byte -> W -> W.

(** [malloc]: whether the allocation succeeded. *)
Variable malloc : Z -> W -> bool * W.

(** [rt.RoundTrip(req)]; a round tripper does not change the request. *)
Variable RoundTrip : RoundTripper -> Request URL -> W -> Result Body * W.

(** The target of the pointer [req], and the world. *)
Record St := mkSt {
  st_req : Request URL;
  st_world : W
}.

Inductive Event :=
| EvImportName (spn : string)
| EvInitSecContext (target : option Name)
| EvRoundTrip (rt : RoundTripper) (req : Request URL)
| EvLog (msg : string).

Abbreviation M := (Eff.M St Event).

Definition world_op {X} (f : W -> X * W) : M X :=
  fun s => let '(x, w) := f (st_world s) in mkOut x (mkSt (st_req s) w) [].

Definition world_do (f : W -> W) : M unit :=
  modify (fun s => mkSt (st_req s) (f (st_world s))).

Definition log_Printf (msg : string) : M unit := emit (EvLog msg).

(** *** The C function generateToken *)

(** What the C function leaves in its result and in its three out
    parameters. *)
Record TokenOut := mkTokenOut {
  major_status : Z;
  tokenData : option (list byte);
  tokenLen : Z;
  minorStatus : Z
}.

Definition delete_context (ctx : option Ctx) : M unit :=
  match ctx with
  | Some c => world_do (gss_delete_sec_context c)
  | None => ret tt
  end.

(** The C string handed over is the Go string: host names hold no NUL
    byte. The C copies of the strings and their [free] are not
    represented. The one variable [minor] receives the minor status of
    every GSS call, so the status reported after a failed
    [gss_init_sec_context] is the one [gss_release_name] left. *)
Definition generateToken (spn : string) : M TokenOut :=
  emit (EvImportName spn) ;;
  imported <- world_op (gss_import_name spn) ;;
  let '(major, minor, targetName) := imported in
  if bool_decide (major ≠ GSS_S_COMPLETE) then
    ret (mkTokenOut major None 0 minor)
  else
    emit (EvInitSecContext targetName) ;;
    initiated <- world_op (gss_init_sec_context targetName) ;;
    let '(major, _, ctx, outputToken) := initiated in
    minor <- world_op (gss_release_name targetName) ;;
    if bool_decide (major ≠ GSS_S_COMPLETE) && bool_decide (major ≠ GSS_S_CONTINUE_NEEDED)
    then
      delete_context ctx ;;
      ret (mkTokenOut major None 0 minor)
    else
      let len := Z.of_nat (length outputToken) in
      copy <- (if bool_decide (len > 0) then
                 ok <- world_op (malloc len) ;;
                 ret (if ok : bool then (Some outputToken, len) else (None, 0))
               else ret (None, 0)) ;;
      world_do (gss_release_buffer outputToken) ;;
      delete_context ctx ;;
      ret (mkTokenOut GSS_S_COMPLETE copy.1 copy.2 0).

(** *** generateSPNEGOToken *)

(** [C.GoBytes] panics on a negative length. *)
Inductive Token :=
| TokenReturn (token : option (list byte)) (err : option error)
| TokenPanic.

Definition GoBytes (data : option (list byte)) (n : Z) : Token :=
  if bool_decide (n < 0) then TokenPanic
  else
    match data with
    | Some bs => TokenReturn (Some (take (Z.to_nat n) bs)) None
    | None => TokenReturn (Some []) None
    end.

Definition generateSPNEGOToken (proxyHost : string) : M Token :=
  let spn := "HTTP@" +:+ proxyHost in
  t <- generateToken spn ;;
  if bool_decide (major_status t ≠ GSS_S_COMPLETE) then
    ret (TokenReturn None (Some (Errorf
      ("gss_init_sec_context failed: major=" +:+ Fmt.d (major_status t)
       +:+ " minor=" +:+ Fmt.d (minorStatus t)))))
  else if bool_decide (tokenLen t = 0) then
    ret (TokenReturn None (Some (Errorf "gss_init_sec_context returned empty token")))
  else
    ret (GoBytes (tokenData t) (C_int (tokenLen t))).

(** *** negotiateAuthenticator.do *)

Inductive Ret :=
| Return (r : Result Body)
| Panic.

Definition proxyHost_of (req : Request URL) : string :=
  match ctx_proxy req with
  | Some u => Hostname u
  | None => ""
  end.

(** [req.Header.Set(key, value)] *)
Definition set_header (key value : string) : M unit :=
  modify (fun s =>
    mkSt (mkRequest (ctx_proxy (st_req s)) (Header_Set (req_Header (st_req s)) key value))
         (st_world s)).

Definition round_trip (rt : RoundTripper) : M (Result Body) :=
  req <- gets st_req ;;
  emit (EvRoundTrip rt req) ;;
  world_op (RoundTrip rt req).

Definition do (rt : RoundTripper) : M Ret :=
  req <- gets st_req ;;
  let proxyHost := proxyHost_of req in
  if bool_decide (proxyHost = "") then
    ret (Return (None, Some (Errorf "cannot determine proxy host for Negotiate auth")))
  else
    t <- generateSPNEGOToken proxyHost ;;
    match t with
    | TokenPanic => ret Panic
    | TokenReturn _ (Some (Errorf msg as err)) =>
        log_Printf ("Error generating SPNEGO token for " +:+ proxyHost +:+ ": " +:+ msg) ;;
        ret (Return (None, Some err))
    | TokenReturn token None =>
        set_header "Proxy-Authorization"
          ("Negotiate " +:+ Base64.EncodeToString (default [] token)) ;;
        r <- round_trip rt ;;
        ret (Return r)
    end.


(** *** Reading a trace *)

(** The service principal names handed to GSS, in order. *)
Definition principals (evs : list Event) : list string :=
  omap (fun e => match e with EvImportName spn => Some spn | _ => None end) evs.

(** The round trips made, each with the request as it was sent. *)
Definition round_trips (evs : list Event) : list (RoundTripper * Request URL) :=
  omap (fun e => match e with EvRoundTrip rt req => Some (rt, req) | _ => None end) evs.

(** A computation that leaves the request as it is and emits exactly
    [evs], whatever the state it starts in. *)
Definition emits {X} (c : M X) (evs : list Event) : Prop :=
  forall s, st_req (post (c s)) = st_req s /\ emitted (c s) = evs.

End negotiate.

End Negotiate.

(** ** kerberos_darwin.go: looking for a ticket *)

Module Ticket.

(** [time.Second], in nanoseconds. *)
Definition Second : Z := 1000000000.

(** Arithmetic on [time.Duration], an int64, wraps around. *)
Definition int64 (n : Z) : Z :=
  let m := n mod 2 ^ 64 in
  if (m <? 2 ^ 63)%Z then m else m - 2 ^ 64.

(** [type negotiateAuthenticator struct{}] *)
Inductive negotiateAuthenticator := mkNegotiateAuthenticator.

Section ticket.

(** GSS credentials, and the state [W] of the GSS library and of the
    clock. *)
Context {Cred W : Type}.

(** [gss_acquire_cred] for the default principal, as initiator: major
    and minor status, the credential ([None] for [GSS_C_NO_CREDENTIAL])
    and its lifetime. *)
Variable gss_acquire_cred : W -> (Z * Z * option Cred * Z) * W.
Variable gss_release_cred : Cred -> W -> W.

(** [time.Now()], as nanoseconds on the clock of the process, and
    [time.Sleep(d)]. *)
Variable Now : W -> Z.
Variable Sleep : Z -> W -> W.

(** The calls made; a check of the ticket is recorded with its
    outcome. *)
Inductive Event :=
| EvAcquireCred
| EvReleaseCred (c : Cred)
| EvCheck (found : bool)
| EvSleep (d : Z)
| EvLog (msg : string).

Abbreviation M := (Eff.M W Event).

Definition world_op {X} (f : W -> X * W) : M X :=
  fun w => let '(x, w') := f w in mkOut x w' [].

Definition log_Println (msg : string) : M unit := emit (EvLog msg).

(** The C function [hasCredential]. *)
Definition hasCredential : M Z :=
  emit EvAcquireCred ;;
  acquired <- world_op gss_acquire_cred ;;
  let '(major, _, cred, lifetime) := acquired in
  match cred with
  | Some c => emit (EvReleaseCred c) ;; modify (gss_release_cred c)
  | None => ret tt
  end ;;
  ret (if bool_decide (major = Negotiate.GSS_S_COMPLETE) && bool_decide (lifetime > 0)
       then 1 else 0).

Definition checkKerberosTicket : M bool :=
  r <- hasCredential ;;
  let found := bool_decide (r = 1) in
  emit (EvCheck found) ;;
  ret found.

(** The loop of [waitForKerberosTicket], run for at most [fuel] turns;
    [None] when the turns ran out. *)
Fixpoint wait_loop (fuel : nat) (deadline : Z) : M (option bool) :=
  match fuel with
  | O => ret None
  | S fuel' =>
      now <- gets Now ;;
      if bool_decide (now < deadline) then
        emit (EvSleep (2 * Second)) ;;
        modify (Sleep (2 * Second)) ;;
        found <- checkKerberosTicket ;;
        if found then ret (Some true) else wait_loop fuel' deadline
      else ret (Some false)
  end.

Definition waitForKerberosTicket (fuel : nat) (timeoutSeconds : Z) : M (option bool) :=
  now <- gets Now ;;
  let deadline := now + int64 (timeoutSeconds * Second) in
  wait_loop fuel deadline.

(** [newNegotiateAuthenticator]; the inner option is the interface value
    returned ([None] for nil), the outer one is [None] when the turns of
    the waiting loop ran out. *)
Definition newNegotiateAuthenticator (fuel : nat) (waitSeconds : Z)
  : M (option (option negotiateAuthenticator)) :=
  found <- checkKerberosTicket ;;
  if found then
    log_Println "Kerberos ticket found" ;;
    ret (Some (Some mkNegotiateAuthenticator))
  else if bool_decide (waitSeconds <= 0) then
    ret (Some None)
  else
    log_Println ("No Kerberos ticket found, waiting up to " +:+ Fmt.d waitSeconds
                 +:+ " seconds...") ;;
    waited <- waitForKerberosTicket fuel waitSeconds ;;
    match waited with
    | None => ret None
    | Some true =>
        log_Println "Kerberos ticket found" ;;
        ret (Some (Some mkNegotiateAuthenticator))
    | Some false =>
        log_Println "No Kerberos ticket found after waiting" ;;
        ret (Some None)
    end.

(** *** Reading a trace *)

(** The outcomes of the checks, in order. *)
Definition checks (evs : list Event) : list bool :=
  omap (fun e => match e with EvCheck b => Some b | _ => None end) evs.

(** The sleeps, in order. *)
Definition sleeps (evs : list Event) : list Z :=
  omap (fun e => match e with EvSleep d => Some d | _ => None end) evs.

(** The credentials released, in order. *)
Definition releases (evs : list Event) : list Cred :=
  omap (fun e => match e with EvReleaseCred c => Some c | _ => None end) evs.

(** The sleeps and the checks, in the order they were made. *)
Definition turns (evs : list Event) : list (Z + bool) :=
  omap (fun e => match e with
                 | EvSleep d => Some (inl d)
                 | EvCheck b => Some (inr b)
                 | _ => None
                 end) evs.

(** A sleep of two seconds before each of the checks. *)
Definition sleep_then_check (outcomes : list bool) : list (Z + bool) :=
  flat_map (fun b => [inl (2 * Second); inr b]) outcomes.

(** The clock never runs backwards and a sleep lasts at least as long
    as asked. *)
Definition clock_advances : Prop :=
  (forall d w, Now w + d <= Now (Sleep d w)) /\
  (forall w, Now w <= Now (gss_acquire_cred w).2) /\
  (forall c w, Now w <= Now (gss_release_cred c w)).

End ticket.

End Ticket.

(** ** The three methods of the design *)

Module Design.

Inductive Kind := KNegotiate | KBasic | KNTLM.

Global Instance Kind_eq_dec : EqDecision Kind.
Proof. solve_decision. Defined.

(** The order the design gives the methods in a chain. *)
Definition design_order : list Kind := [KNegotiate; KBasic; KNTLM].

Definition rank (k : Kind) : nat :=
  match k with
  | KNegotiate => 0
  | KBasic => 1
  | KNTLM => 2
  end.

End Design.

Import Design.

(** ** main.go: start-up *)

Module Main.

(** A line feed. *)
Definition LF : string := String (ascii_of_nat 10) "".

Section main.

(** The three concrete authenticators, the sources of NTLM credentials,
    and the state [W] of the operating system (terminal, environment,
    keyring, ticket cache). *)
Context {negotiateAuthenticator basicAuthenticator authenticator : Type}.
Context {credentialSource W : Type}.

(** The values of the command-line flags after [flag.Parse()]. *)
Record Flags := mkFlags {
  hosts : list string;
  port : Z;
  pacurl : string;
  domain : string;
  username : string;
  basicCreds : string;
  printHash : bool;
  kerberos : bool;
  kerberosWait : Z;
  quiet : bool;
  jsonLogs : bool;
  version : bool
}.

Variable BuildVersion : string.

(** [os.Getenv] *)
Variable Getenv : string -> W -> string.

(** Constructors of the other files of the package; each may hand back
    nil. *)
Variable newBasicAuthenticator : string -> option basicAuthenticator.
Variable fromTerminal_forUser : string -> string -> W -> option credentialSource * W.
Variable fromEnvVar : string -> W -> option credentialSource * W.
Variable fromKeyring : W -> option credentialSource * W.
Variable getCredentials :
  credentialSource -> W -> (option authenticator * option error) * W.
Variable newNegotiateAuthenticator : Z -> W -> option negotiateAuthenticator * W.

(** The verb [%q] on the NTLM authenticator. *)
Variable format_q : authenticator -> string.

(** A member of the chain: a non-nil value of the interface
    [proxyAuthenticator]. *)
Inductive method :=
| Negotiate (n : negotiateAuthenticator)
| Basic (b : basicAuthenticator)
| NTLM (a : authenticator).

Definition kind_of (m : method) : Kind :=
  match m with
  | Negotiate _ => KNegotiate
  | Basic _ => KBasic
  | NTLM _ => KNTLM
  end.

Inductive Event :=
| EvStdout (text : string)
| EvLog (msg : string)
| EvLogDiscard.

(** What was written to standard output, in order. *)
Definition stdout (evs : list Event) : list string :=
  omap (fun e => match e with EvStdout text => Some text | _ => None end) evs.

Abbreviation M := (Eff.M W Event).

Definition world_op {X} (f : W -> X * W) : M X :=
  fun w => let '(x, w') := f w in mkOut x w' [].

Definition log_Println (msg : string) : M unit := emit (EvLog msg).
Definition fmt_Print (text : string) : M unit := emit (EvStdout text).

(** How the start-up ends: [os.Exit(code)], or the chain is handed to
    [createServer] and the program listens on [hosts]. *)
Inductive Outcome :=
| Exit (code : Z)
| Serve (listen : list string) (auth : MultiAuth.proxyAuthenticator (A := method)).

(** [var src credentialSource] and the three ways to fill it. *)
Definition credential_source (f : Flags) : M (option credentialSource) :=
  if bool_decide (domain f ≠ "") then
    world_op (fromTerminal_forUser (domain f) (username f))
  else
    value <- gets (Getenv "NTLM_CREDENTIALS") ;;
    if bool_decide (value ≠ "") then world_op (fromEnvVar value)
    else world_op fromKeyring.

(** [a], the NTLM authenticator, nil unless a source delivered one. *)
Definition ntlm_credentials (f : Flags) : M (option authenticator) :=
  src <- credential_source f ;;
  match src with
  | Some src =>
      r <- world_op (getCredentials src) ;;
      match r.2 with
      | Some (Errorf msg) =>
          log_Println ("Credentials not found, disabling proxy auth: " +:+ msg) ;;
          ret r.1
      | None => ret r.1
      end
  | None => ret None
  end.

(** The chain: Kerberos, then Basic, then NTLM. *)
Definition build_methods (f : Flags) (basicAuth : option basicAuthenticator)
    (a : option authenticator) : M (list method) :=
  methods <- (if kerberos f then
                neg <- world_op (newNegotiateAuthenticator (kerberosWait f)) ;;
                match neg with
                | Some neg =>
                    log_Println "Kerberos/Negotiate authentication available" ;;
                    ret [Negotiate neg]
                | None => ret []
                end
              else ret []) ;;
  let methods :=
    match basicAuth with
    | Some b => (methods ++ [Basic b])%list
    | None => methods
    end in
  let methods :=
    match a with
    | Some a => (methods ++ [NTLM a])%list
    | None => methods
    end in
  ret methods.

(** [main] up to the call of [createServer]. *)
Definition main (f : Flags) : M Outcome :=
  (if quiet f then emit EvLogDiscard else ret tt) ;;
  let hosts := if bool_decide (length (hosts f) = 0%nat) then (hosts f ++ ["localhost"])%list
               else hosts f in
  if version f then
    fmt_Print ("Alpaca " +:+ BuildVersion +:+ LF) ;;
    ret (Exit 0)
  else
    basicAuth <- (if bool_decide (basicCreds f ≠ "") then
                    let b := newBasicAuthenticator (basicCreds f) in
                    log_Println "Basic proxy authentication configured" ;;
                    ret b
                  else ret None) ;;
    a <- ntlm_credentials f ;;
    if printHash f then
      match a with
      | None =>
          fmt_Print ("Please specify a domain (using -d) and username (using -u)" +:+ LF) ;;
          ret (Exit 1)
      | Some a =>
          fmt_Print ("# Add this to your ~/.profile (or equivalent) and restart your shell"
                     +:+ LF) ;;
          fmt_Print ("NTLM_CREDENTIALS=" +:+ format_q a
                     +:+ "; export NTLM_CREDENTIALS" +:+ LF) ;;
          ret (Exit 0)
      end
    else
      methods <- build_methods f basicAuth a ;;
      ret (Serve hosts (MultiAuth.newMultiAuthenticator (Some <$> methods))).

End main.

End Main.

(** ** main.go: the addresses to listen on *)

Module Listen.

(** [stringArrayFlag.Set]: the slice after the call, and the error
    returned. *)
Definition stringArrayFlag_Set (s : list string) (value : string)
  : list string * option error :=
  if bool_decide (value = "") then (s, None)
  else ((s ++ [value])%list, None).

(** [flag.Parse] on the flag [-l]: [Set] is called with the value of
    each occurrence, in the order of the command line, and parsing stops
    at the first error. *)
Fixpoint flag_Parse (values : list string) (s : list string)
  : list string * option error :=
  match values with
  | [] => (s, None)
  | value :: rest =>
      match stringArrayFlag_Set s value with
      | (s', None) => flag_Parse rest s'
      | (s', Some err) => (s', Some err)
      end
  end.

Section listen.

(** IP addresses, and the state [W] of the resolver. *)
Context {IP W : Type}.

(** [net.LookupIP]; [IP.To4], nil for an address that is no IPv4
    address; [net.JoinHostPort]. *)
Variable LookupIP : string -> W -> (list IP * option error) * W.
Variable To4 : IP -> option IP.
Variable JoinHostPort : string -> string -> string.

(** The look-ups made, the goroutines started with [go], each with the
    network and the address it listens on, and [log.Fatal]. *)
Inductive Event :=
| EvLookupIP (hostname : string)
| EvGo (network address : string)
| EvFatal (err : error).

(** [log.Fatal] ends the process. *)
Inductive Ret (X : Type) :=
| Return (x : X)
| Fatal.
Arguments Return {X}.
Arguments Fatal {X}.

Abbreviation M := (Eff.M W Event).

Definition world_op {X} (f : W -> X * W) : M X :=
  fun w => let '(x, w') := f w in mkOut x w' [].

(** The loop of [networks] over the addresses, on the two flags [ipv4]
    and [ipv6]. *)
Definition families (addrs : list IP) : bool * bool :=
  fold_left (fun '(ipv4, ipv6) addr =>
               match To4 addr with
               | Some _ => (true, ipv6)
               | None => (ipv4, true)
               end)
            addrs (false, false).

Definition networks (hostname : string) : M (Ret (list string)) :=
  if bool_decide (hostname = "") then ret (Return ["tcp"])
  else
    emit (EvLookupIP hostname) ;;
    r <- world_op (LookupIP hostname) ;;
    let '(addrs, err) := r in
    match err with
    | Some err => emit (EvFatal err) ;; ret Fatal
    | None =>
        let '(ipv4, ipv6) := families addrs in
        let nets := [] in
        let nets := if ipv4 then (nets ++ ["tcp4"])%list else nets in
        let nets := if ipv6 then (nets ++ ["tcp6"])%list else nets in
        ret (Return nets)
    end.

(** [strconv.Itoa] writes the decimal digits, as the verb [%d] does. *)
Definition Itoa (i : Z) : string := Fmt.d i.

(** The inner loop of [main]: one goroutine for each network. *)
Fixpoint go_listen (nets : list string) (address : string) : M unit :=
  match nets with
  | [] => ret tt
  | network :: rest => emit (EvGo network address) ;; go_listen rest address
  end.

(** The outer loop of [main], over the hosts. *)
Fixpoint listen_all (hosts : list string) (port : Z) : M (Ret unit) :=
  match hosts with
  | [] => ret (Return tt)
  | host :: rest =>
      let address := JoinHostPort host (Itoa port) in
      nets <- networks host ;;
      match nets with
      | Fatal => ret Fatal
      | Return nets => go_listen nets address ;; listen_all rest port
      end
  end.

(** The goroutines started, in order. *)
Definition started (evs : list Event) : list (string * string) :=
  omap (fun e => match e with EvGo n a => Some (n, a) | _ => None end) evs.

(** The host names looked up, in order. *)
Definition lookups (evs : list Event) : list string :=
  omap (fun e => match e with EvLookupIP h => Some h | _ => None end) evs.

End listen.

Arguments Return {X}.
Arguments Fatal {X}.

End Listen.

(** ** requestlogger.go *)

Module RequestLogger.

Definition StatusOK : Z := 200.

Record jsonLogEntry := mkJsonLogEntry {
  ID : Z;
  Timestamp : string;
  Status : Z;
  Method : string;
  URL : string;
  ParentProxy : string
}.

(** [statusWriter]: the embedded [http.ResponseWriter] lives in the
    world, the field [status] here. *)
Record statusWriter := mkStatusWriter { status : Z }.

Section requestlogger.

(** Parsed URLs, hijacked connections, and the state [W] of the wrapped
    response writer and of the clock. *)
Context {Url Conn W : Type}.

(** The methods of the wrapped [http.ResponseWriter]; [rw_Hijack] is
    [None] where it does not implement [http.Hijacker]. *)
Variable rw_WriteHeader : Z -> W -> W.
Variable rw_Write : list byte -> W -> (Z * option error) * W.
Variable rw_Hijack : option (W -> (option Conn * option error) * W).

(** The field [Host] and the method [String] of [*url.URL];
    [time.Now().UTC().Format(time.RFC3339Nano)]; [json.Marshal]. *)
Variable url_Host : Url -> string.
Variable url_String : Url -> string.
Variable Now_RFC3339Nano : W -> string.
Variable json_Marshal : jsonLogEntry -> string * option error.

(** [*http.Request] as far as the loggers read it: the context entries
    under [contextKeyProxy] and [contextKeyID] (a uint64), the method
    and the URL. *)
Record Request := mkRequest {
  ctx_proxy : option Url;
  ctx_id : option Z;
  req_Method : string;
  req_URL : Url
}.

Record St := mkSt {
  st_sw : statusWriter;
  st_req : Request;
  st_world : W
}.

(** The calls that reach the wrapped writer, and the lines written. *)
Inductive Event :=
| EvWriteHeader (status : Z)
| EvWrite (data : list byte)
| EvHijack
| EvLog (msg : string)
| EvStdout (text : string).

Abbreviation M := (Eff.M St Event).

Definition world_op {X} (f : W -> X * W) : M X :=
  fun s => let '(x, w') := f (st_world s) in mkOut x (mkSt (st_sw s) (st_req s) w') [].

Definition world_do (f : W -> W) : M unit :=
  modify (fun s => mkSt (st_sw s) (st_req s) (f (st_world s))).

Definition log_Printf (msg : string) : M unit := emit (EvLog msg).
Definition fmt_Println (text : string) : M unit := emit (EvStdout (text +:+ Main.LF)).

(** [statusWriter.WriteHeader] *)
Definition WriteHeader (status : Z) : M unit :=
  modify (fun s => mkSt (mkStatusWriter status) (st_req s) (st_world s)) ;;
  emit (EvWriteHeader status) ;;
  world_do (rw_WriteHeader status).

(** [Write] is the method of the embedded writer. *)
Definition Write (data : list byte) : M (Z * option error) :=
  emit (EvWrite data) ;;
  world_op (rw_Write data).

(** [statusWriter.Hijack] *)
Definition Hijack : M (option Conn * option error) :=
  match rw_Hijack with
  | Some h => emit EvHijack ;; world_op h
  | None =>
      ret (None, Some (Errorf "upstream ResponseWriter does not implement http.Hijacker"))
  end.

(** What a handler does with the writer and the request it is given:
    it calls the methods of the writer, and between the calls it may read
    and change the request and the world (the header map of the wrapped
    writer included). It has the writer as an [http.ResponseWriter] and
    reaches the field [status] through [WriteHeader] only. *)
Inductive Handler :=
| Done
| CallWriteHeader (status : Z) (k : Handler)
| CallWrite (data : list byte) (k : Z * option error -> Handler)
| CallHijack (k : option Conn * option error -> Handler)
| Act (f : Request -> W -> Request * W) (k : Request -> W -> Handler).

(** [next.ServeHTTP(sw, req)] *)
Fixpoint ServeHTTP (next : Handler) : M unit :=
  match next with
  | Done => ret tt
  | CallWriteHeader status k => WriteHeader status ;; ServeHTTP k
  | CallWrite data k => r <- Write data ;; ServeHTTP (k r)
  | CallHijack k => r <- Hijack ;; ServeHTTP (k r)
  | Act f k =>
      modify (fun s => let '(req, w) := f (st_req s) (st_world s) in mkSt (st_sw s) req w) ;;
      s <- gets id ;;
      ServeHTTP (k (st_req s) (st_world s))
  end.

(** The verb [%v] on the context entry under [contextKeyID]. *)
Definition fmt_v (id : option Z) : string :=
  match id with
  | Some n => Fmt.d n
  | None => "<nil>"
  end.

(** The line that [RequestLogger] writes for a request and a status. *)
Definition log_line (req : Request) (status : Z) : string :=
  "[" +:+ fmt_v (ctx_id req) +:+ "] " +:+ Fmt.d status +:+ " " +:+ req_Method req
  +:+ " " +:+ url_String (req_URL req).

Definition RequestLogger (next : Handler) : M unit :=
  modify (fun s => mkSt (mkStatusWriter StatusOK) (st_req s) (st_world s)) ;;
  ServeHTTP next ;;
  s <- gets id ;;
  log_Printf (log_line (st_req s) (status (st_sw s))).

Definition RequestLoggerJSON (next : Handler) : M unit :=
  modify (fun s => mkSt (mkStatusWriter StatusOK) (st_req s) (st_world s)) ;;
  ServeHTTP next ;;
  s <- gets id ;;
  let req := st_req s in
  let parentProxy := match ctx_proxy req with Some u => url_Host u | None => "" end in
  let id := match ctx_id req with Some n => n | None => 0 end in
  let entry :=
    mkJsonLogEntry id (Now_RFC3339Nano (st_world s)) (status (st_sw s)) (req_Method req)
      (url_String (req_URL req)) parentProxy in
  match json_Marshal entry with
  | (data, None) => fmt_Println data
  | (_, Some _) => ret tt
  end.

(** *** Reading a trace *)

(** The statuses passed to [WriteHeader], in order. *)
Definition written (evs : list Event) : list Z :=
  omap (fun e => match e with EvWriteHeader st => Some st | _ => None end) evs.

(** The lines logged and printed, in order. *)
Definition lines (evs : list Event) : list string :=
  omap (fun e => match e with EvLog l => Some l | EvStdout l => Some l | _ => None end) evs.

End requestlogger.

End RequestLogger.

(** ** A small upstream proxy to run the code against *)

Module Scenario.

(** The parsed proxy URL; [Hostname()] is the host without the port. *)
Record url := mkUrl { host : string; portnum : Z }.
Definition Hostname (u : url) : string := host u.

Definition header_of (k : Kind) : string :=
  match k with
  | KNegotiate => "Negotiate dG9r"
  | KBasic => "Basic dTpw"
  | KNTLM => "NTLM TlRMTVNTUAAB"
  end.

(** A response body: the bytes not yet read, and whether it is closed.
    A body is named by its index in the list of bodies served. *)
Record body_state := mkBody { unread : nat; is_closed : bool }.

(** The upstream accepts the methods in [accepted] and answers 407 to
    the others. *)
Record World := mkWorld {
  accepted : list Kind;
  bodies : list body_state
}.

Definition method_do (k : Kind) (req : Request url) (rt : unit) (w : World)
  : Result nat * Request url * World :=
  let b := length (bodies w) in
  let code := if bool_decide (k ∈ accepted w) then 200 else StatusProxyAuthRequired in
  ((Some (mkResponse code b), None),
   mkRequest (ctx_proxy req) (Header_Set (req_Header req) "Proxy-Authorization" (header_of k)),
   mkWorld (accepted w) (bodies w ++ [mkBody 64 false])).

(** Closing marks the body closed and reads nothing from it. *)
Definition Body_Close (b : nat) (w : World) : World :=
  mkWorld (accepted w) (alter (fun st => mkBody (unread st) true) b (bodies w)).

Definition drained (b : nat) (w : World) : Prop :=
  unread <$> (bodies w !! b) = Some 0%nat.

Definition closed (b : nat) (w : World) : Prop :=
  is_closed <$> (bodies w !! b) = Some true.

Definition St := @MultiAuth.St Kind url World.
Definition do : unit -> St -> Out St MultiAuth.Event MultiAuth.Ret :=
  MultiAuth.do Hostname method_do Body_Close.

Definition up_example : Request url :=
  mkRequest (Some (mkUrl "up.example" 8080)) ∅.

(** A proxy URL without a host name, as in [http://:3128]. *)
Definition no_host : Request url := mkRequest (Some (mkUrl "" 3128)) ∅.

(** A request whose context carries no proxy. *)
Definition direct : Request url := mkRequest None ∅.

Definition chain : list Kind := [KNegotiate; KBasic; KNTLM].

(** A fresh chain in front of an upstream that accepts [ok]. *)
Definition fresh (ms : list Kind) (ok : list Kind) (req : Request url) : St :=
  MultiAuth.mkSt (MultiAuth.mkMulti ms ∅) req (mkWorld ok []).

(** *** A GSS library that holds a ticket *)

Definition gss_import_name (spn : string) (w : unit) : (Z * Z * option string) * unit :=
  ((Negotiate.GSS_S_COMPLETE, 0, Some spn), w).

Definition gss_init_sec_context (target : option string) (w : unit)
  : (Z * Z * option unit * list byte) * unit :=
  ((Negotiate.GSS_S_COMPLETE, 0, Some tt, Base64.bytes_of "tok"), w).

Definition gss_release_name (n : option string) (w : unit) : Z * unit := (0, w).
Definition gss_delete_sec_context (c : unit) (w : unit) : unit := w.
Definition gss_release_buffer (b : list byte) (w : unit) : unit := w.
Definition malloc (n : Z) (w : unit) : bool * unit := (true, w).

(** The upstream answers 200 to the token it expects. *)
Definition RoundTrip (rt : unit) (req : Request url) (w : unit) : Result nat * unit :=
  ((Some (mkResponse
            (if bool_decide (Header_Get (req_Header req) "Proxy-Authorization"
                             = "Negotiate dG9r")
             then 200 else StatusProxyAuthRequired) 0%nat), None), w).

Definition negotiate_do :=
  Negotiate.do Hostname gss_import_name gss_init_sec_context gss_release_name
    gss_delete_sec_context gss_release_buffer malloc RoundTrip.

(** *** An operating system to start the program on *)

Record OS := mkOS {
  env_ntlm : string;
  keyring : option string;
  ticket : bool
}.

Inductive source := SrcTerminal (domain user : string) | SrcEnv (value : string) | SrcKeyring.

Definition Getenv (name : string) (os : OS) : string :=
  if bool_decide (name = "NTLM_CREDENTIALS") then env_ntlm os else "".

Definition newBasicAuthenticator (creds : string) : option string := Some creds.
Definition fromTerminal_forUser (d u : string) (os : OS) : option source * OS :=
  (Some (SrcTerminal d u), os).
Definition fromEnvVar (v : string) (os : OS) : option source * OS := (Some (SrcEnv v), os).
Definition fromKeyring (os : OS) : option source * OS := (Some SrcKeyring, os).

Definition getCredentials (src : source) (os : OS) : (option string * option error) * OS :=
  match src with
  | SrcTerminal d u => ((Some (d +:+ ":" +:+ u), None), os)
  | SrcEnv v => ((Some v, None), os)
  | SrcKeyring =>
      match keyring os with
      | Some c => ((Some c, None), os)
      | None => ((None, Some (Errorf "secret not found in keyring")), os)
      end
  end.

Definition newNegotiateAuthenticator (wait : Z) (os : OS) : option unit * OS :=
  (if ticket os then Some tt else None, os).

Definition format_q (a : string) : string :=
  String (ascii_of_nat 34) (a +:+ String (ascii_of_nat 34) "").

Definition main :=
  Main.main "v1" Getenv newBasicAuthenticator fromTerminal_forUser fromEnvVar fromKeyring
    getCredentials newNegotiateAuthenticator format_q.

Definition ntlm_credentials :=
  Main.ntlm_credentials Getenv fromTerminal_forUser fromEnvVar fromKeyring getCredentials.

(** Nothing on the command line but what is given. *)
Definition flags (domain user basic : string) (H k version : bool) : Main.Flags :=
  Main.mkFlags [] 3128 "" domain user basic H k 30 false false version.

(** No environment variable, an empty keyring, no ticket. *)
Definition bare : OS := mkOS "" None false.

(** *** An upstream that Basic cannot reach *)

(** The connection fails for Basic; the other methods are answered as
    before. *)
Definition method_do_unreachable (k : Kind) (req : Request url) (rt : unit) (w : World)
  : Result nat * Request url * World :=
  if bool_decide (k = KBasic) then ((None, Some (Errorf "connection refused")), req, w)
  else method_do k req rt w.

Definition do_unreachable : unit -> St -> Out St MultiAuth.Event MultiAuth.Ret :=
  MultiAuth.do Hostname method_do_unreachable Body_Close.

(** *** A GSS library with given answers *)

Record Lib := mkLib {
  import_major : Z;
  import_minor : Z;
  init_major : Z;
  init_minor : Z;
  release_minor : Z;
  output_token : list byte;
  memory_left : bool
}.

Definition lib_import_name (spn : string) (l : Lib) : (Z * Z * option string) * Lib :=
  ((import_major l, import_minor l,
    if bool_decide (import_major l = Negotiate.GSS_S_COMPLETE) then Some spn else None), l).

Definition lib_init_sec_context (target : option string) (l : Lib)
  : (Z * Z * option unit * list byte) * Lib :=
  ((init_major l, init_minor l, None, output_token l), l).

Definition lib_release_name (n : option string) (l : Lib) : Z * Lib := (release_minor l, l).
Definition lib_delete_sec_context (c : unit) (l : Lib) : Lib := l.
Definition lib_release_buffer (b : list byte) (l : Lib) : Lib := l.
Definition lib_malloc (n : Z) (l : Lib) : bool * Lib := (memory_left l, l).

Definition lib_RoundTrip (rt : unit) (req : Request url) (l : Lib) : Result nat * Lib :=
  ((Some (mkResponse 200 0%nat), None), l).

Definition lib_generateSPNEGOToken :=
  Negotiate.generateSPNEGOToken (URL := url) (RoundTripper := unit)
    lib_import_name lib_init_sec_context lib_release_name lib_delete_sec_context
    lib_release_buffer lib_malloc.

Definition lib_do :=
  Negotiate.do Hostname lib_import_name lib_init_sec_context lib_release_name
    lib_delete_sec_context lib_release_buffer lib_malloc lib_RoundTrip.

(** GSS_S_BAD_NAME and GSS_S_NO_CRED of GSS.h. *)
Definition GSS_S_BAD_NAME : Z := 131072.
Definition GSS_S_NO_CRED : Z := 458752.

(** A library in good order that hands out the token "tok". *)
Definition sound : Lib :=
  mkLib Negotiate.GSS_S_COMPLETE 0 Negotiate.GSS_S_COMPLETE 0 0 (Base64.bytes_of "tok") true.

(** *** A clock and a credential cache that gets its ticket at a given time *)

Record Clock := mkClock {
  clock : Z;
  ticket_from : Z
}.

Definition acquire_cred (w : Clock) : (Z * Z * option nat * Z) * Clock :=
  (if bool_decide (ticket_from w <= clock w)
   then (Negotiate.GSS_S_COMPLETE, 0, Some 1%nat, 36000)
   else (GSS_S_NO_CRED, 0, None, 0), w).

Definition release_cred (c : nat) (w : Clock) : Clock := w.
Definition clock_Now (w : Clock) : Z := clock w.
Definition clock_Sleep (d : Z) (w : Clock) : Clock := mkClock (clock w + d) (ticket_from w).

Definition checkKerberosTicket := Ticket.checkKerberosTicket acquire_cred release_cred.
Definition wait_loop := Ticket.wait_loop acquire_cred release_cred clock_Now clock_Sleep.
Definition ticket_newNegotiateAuthenticator :=
  Ticket.newNegotiateAuthenticator acquire_cred release_cred clock_Now clock_Sleep.

(** *** A resolver *)

Inductive IP := IPv4 (a b c d : Z) | IPv6 (text : string).

Definition To4 (ip : IP) : option IP :=
  match ip with
  | IPv4 _ _ _ _ => Some ip
  | IPv6 _ => None
  end.

Definition LookupIP (hostname : string) (w : unit) : (list IP * option error) * unit :=
  if bool_decide (hostname = "localhost") then (([IPv6 "::1"; IPv4 127 0 0 1], None), w)
  else if bool_decide (hostname = "v4.example") then (([IPv4 192 0 2 1], None), w)
  else (([], Some (Errorf ("lookup " +:+ hostname +:+ ": no such host"))), w).

(** [net.JoinHostPort] on a host name without a colon. *)
Definition JoinHostPort (host port : string) : string := host +:+ ":" +:+ port.

Definition networks := Listen.networks LookupIP To4.
Definition listen_all := Listen.listen_all LookupIP To4 JoinHostPort.

(** *** A response writer and two handlers *)

(** The wrapped writer keeps the status line it sent, the first one it
    was given, and the number of body bytes written. *)
Record Writer := mkWriter {
  sent_status : option Z;
  body_bytes : Z
}.

Definition rw_WriteHeader (status : Z) (w : Writer) : Writer :=
  match sent_status w with
  | Some _ => w
  | None => mkWriter (Some status) (body_bytes w)
  end.

Definition rw_Write (data : list byte) (w : Writer) : (Z * option error) * Writer :=
  ((Z.of_nat (length data), None),
   mkWriter (Some (default 200 (sent_status w))) (body_bytes w + Z.of_nat (length data))).

Definition url_Host (u : url) : string := host u +:+ ":" +:+ Fmt.d (portnum u).
Definition url_String (u : url) : string := "http://" +:+ url_Host u +:+ "/".
Definition Now_RFC3339Nano (w : Writer) : string := "2025-01-01T00:00:00Z".

(** A marshaller that writes the status alone. *)
Definition json_Marshal (e : RequestLogger.jsonLogEntry) : string * option error :=
  ("{status:" +:+ Fmt.d (RequestLogger.Status e) +:+ "}", None).

Definition Handler := @RequestLogger.Handler url unit Writer.

(** Sends 200, then has second thoughts. *)
Definition twice : Handler :=
  RequestLogger.CallWriteHeader 200
    (RequestLogger.CallWrite (Base64.bytes_of "ok")
       (fun _ => RequestLogger.CallWriteHeader 500 RequestLogger.Done)).

(** Asks for the connection and writes a body when it does not get
    it. *)
Definition tunnel : Handler :=
  RequestLogger.CallHijack
    (fun r => match r.2 with
              | Some _ => RequestLogger.CallWrite (Base64.bytes_of "no") (fun _ => RequestLogger.Done)
              | None => RequestLogger.Done
              end).

Definition ServeHTTP :=
  RequestLogger.ServeHTTP (Url := url) (Conn := unit) rw_WriteHeader rw_Write None.
Definition text_logger :=
  RequestLogger.RequestLogger (Url := url) (Conn := unit) rw_WriteHeader rw_Write None url_String.
Definition json_logger :=
  RequestLogger.RequestLoggerJSON (Url := url) (Conn := unit) rw_WriteHeader rw_Write None
    url_Host url_String Now_RFC3339Nano json_Marshal.

(** A request for up.example through the proxy p.example, before
    anything was sent. *)
Definition incoming : @RequestLogger.St url Writer :=
  RequestLogger.mkSt (RequestLogger.mkStatusWriter 0)
    (RequestLogger.mkRequest (Some (mkUrl "p.example" 3128)) (Some 7) "GET"
       (mkUrl "up.example" 80))
    (mkWriter None 0).

End Scenario.

(** * Properties *)

(** ** The library models on known values *)

Section library_models.

(** The test vectors of RFC 4648, section 10. *)
Example base64_rfc4648 :
  Base64.EncodeToString (Base64.bytes_of "") = "" /\
  Base64.EncodeToString (Base64.bytes_of "f") = "Zg==" /\
  Base64.EncodeToString (Base64.bytes_of "fo") = "Zm8=" /\
  Base64.EncodeToString (Base64.bytes_of "foo") = "Zm9v" /\
  Base64.EncodeToString (Base64.bytes_of "foob") = "Zm9vYg==" /\
  Base64.EncodeToString (Base64.bytes_of "fooba") = "Zm9vYmE=" /\
  Base64.EncodeToString (Base64.bytes_of "foobar") = "Zm9vYmFy".
Proof. repeat split. Qed.

(** Bytes with the high bit set reach the last two symbols of the
    alphabet. *)
Example base64_high_bytes :
  Base64.EncodeToString [xfb; xff] = "+/8=" /\
  Base64.EncodeToString [xff; xff; xff] = "////".
Proof. split; vm_compute; reflexivity. Qed.

(** The output has four characters for every three bytes, rounded up. *)
Lemma base64_length (src : list byte) :
  String.length (Base64.EncodeToString src) = (4 * ((length src + 2) / 3))%nat.
Proof.
  assert (H : forall n (l : list byte), (length l <= n)%nat ->
            String.length (Base64.EncodeToString l) = (4 * ((length l + 2) / 3))%nat).
  { induction n as [|n IH]; intros l Hl.
    - destruct l; [reflexivity | cbn in Hl; lia].
    - destruct l as [|a [|b [|c rest]]]; try reflexivity.
      cbn [Base64.EncodeToString String.length length].
      rewrite IH by (cbn in Hl; lia).
      replace (S (S (S (length rest))) + 2)%nat with (1 * 3 + (length rest + 2))%nat by lia.
      rewrite Nat.div_add_l by lia. lia. }
  exact (H (length src) src (le_n _)).
Qed.

Example fmt_d_values :
  Fmt.d 0 = "0" /\ Fmt.d 851968 = "851968" /\ Fmt.d (-3) = "-3".
Proof. repeat split. Qed.

Example C_int_values :
  Negotiate.C_int 5 = 5 /\
  Negotiate.C_int (2 ^ 31 - 1) = 2 ^ 31 - 1 /\
  Negotiate.C_int (2 ^ 31) = - 2 ^ 31 /\
  Negotiate.C_int (2 ^ 32 + 7) = 7.
Proof. repeat split. Qed.

(** Lengths below 2^31 pass through the conversion unchanged. *)
Lemma C_int_small (n : Z) : 0 <= n < 2 ^ 31 -> Negotiate.C_int n = n.
Proof.
  intros Hn. unfold Negotiate.C_int.
  rewrite Z.mod_small by lia.
  destruct (Z.ltb_spec n (2 ^ 31)); [reflexivity | lia].
Qed.

End library_models.

(** ** Sequencing *)

Section sequencing.

Context {S E X Y : Type}.

(** Running [c] and then [k]: the events of both, in that order. *)
Lemma bind_run (c : Eff.M S E X) (k : X -> Eff.M S E Y) (s : S) x s' evs :
  c s = mkOut x s' evs ->
  bind c k s = mkOut (val (k x s')) (post (k x s')) (evs ++ emitted (k x s')).
Proof. intros H. unfold bind. rewrite H. reflexivity. Qed.

End sequencing.

(** ** The multi-authenticator *)

Section multiauth_properties.

Context {A URL RoundTripper Body W : Type}.
Variable Hostname : URL -> string.
Variable method_do :
  A -> Request URL -> RoundTripper -> W -> Result Body * Request URL * W.
Variable Body_Close : Body -> W -> W.

Import MultiAuth.

Local Abbreviation St := (@MultiAuth.St A URL W).
Local Abbreviation Ev := (@MultiAuth.Event A Body).
Local Abbreviation do := (MultiAuth.do Hostname method_do Body_Close).
Local Abbreviation try_methods := (MultiAuth.try_methods method_do Body_Close).
Local Abbreviation call := (MultiAuth.call method_do).
Local Abbreviation proxyHost_of := (MultiAuth.proxyHost_of Hostname).
Local Abbreviation cached_method := (MultiAuth.cached_method Hostname).
Local Abbreviation step := (MultiAuth.step Hostname method_do Body_Close).

(** One turn of the loop, case by case. *)
Lemma try_methods_cons n i a rest ph rt s r req' w' :
  method_do a (st_req s) rt (st_world s) = (r, req', w') ->
  try_methods n i (a :: rest) ph rt s =
    match r with
    | (_, Some err) => mkOut (Return None (Some err)) (after_call s req' w') [EvDo a r]
    | (None, None) => mkOut Panic (after_call s req' w') [EvDo a r]
    | (Some resp, None) =>
        if bool_decide (StatusCode resp ≠ StatusProxyAuthRequired) then
          if bool_decide (ph ≠ "") then
            mkOut (Return (Some resp) None) (with_cached (after_call s req' w') ph a)
                  [EvDo a r; EvLog ("Cached auth method for proxy " +:+ ph)]
          else mkOut (Return (Some resp) None) (after_call s req' w') [EvDo a r]
        else if bool_decide (i < n - 1) then
          let o := try_methods n (i + 1) rest ph rt
                     (after_call s req' (Body_Close (resp_Body resp) w')) in
          mkOut (val o) (post o) (EvDo a r :: EvClose (resp_Body resp) :: emitted o)
        else mkOut (Return (Some resp) None) (after_call s req' w') [EvDo a r]
    end.
Proof.
  intros E. cbn [MultiAuth.try_methods]. unfold bind at 1, MultiAuth.call.
  rewrite E. cbn [val post emitted].
  destruct r as [[resp|] [err|]]; try reflexivity.
  repeat case_bool_decide; reflexivity.
Qed.

Lemma do_cached rt s c r req' w' :
  cached_method s = Some c ->
  method_do c (st_req s) rt (st_world s) = (r, req', w') ->
  do rt s = mkOut (Return r.1 r.2) (after_call s req' w') [EvDo c r].
Proof.
  unfold MultiAuth.cached_method, MultiAuth.do, bind, get_req, cache_get, gets, ret.
  cbn [val post emitted]. intros Hc E.
  case_bool_decide; [|discriminate].
  rewrite Hc. unfold MultiAuth.call. simpl. rewrite E. reflexivity.
Qed.

Lemma do_uncached rt s :
  cached_method s = None ->
  do rt s = try_methods (Z.of_nat (length (methods (st_m s)))) 0 (methods (st_m s))
              (proxyHost_of (st_req s)) rt s.
Proof.
  unfold MultiAuth.cached_method, MultiAuth.do, bind, get_req, get_methods, cache_get, gets, ret.
  cbn [val post emitted]. intros Hc.
  case_bool_decide; cbn [val post emitted]; [rewrite Hc|];
    cbn [val post emitted app];
    destruct (MultiAuth.try_methods _ _ _ _ _ _ _ s); reflexivity.
Qed.

(** What the loop can do to the receiver: nothing, or one cache entry
    for the proxy host, naming a method it was given. *)
Lemma try_methods_receiver n ph rt rest : forall i s,
  let o := try_methods n i rest ph rt s in
  st_m (post o) = st_m s \/
  (ph ≠ "" /\ exists a, a ∈ rest /\
     st_m (post o) = mkMulti (methods (st_m s)) (<[ph := a]> (cache (st_m s)))).
Proof.
  induction rest as [|a rest IH]; intros i s; cbn zeta.
  - left. reflexivity.
  - destruct (method_do a (st_req s) rt (st_world s)) as [[r req'] w'] eqn:E.
    rewrite (try_methods_cons _ _ _ _ _ _ _ _ _ _ E).
    destruct r as [[resp|] [err|]]; try (left; reflexivity).
    repeat case_bool_decide; try (left; reflexivity).
    + right. split; [assumption|]. exists a. split; [left|reflexivity].
    + cbn [post].
      destruct (IH (i + 1) (after_call s req' (Body_Close (resp_Body resp) w')))
        as [Hsame | (Hph & b & Hb & Hset)].
      * left. exact Hsame.
      * right. split; [assumption|]. exists b. split; [right; exact Hb | exact Hset].
Qed.

Lemma do_receiver rt s :
  st_m (post (do rt s)) = st_m s \/
  (cached_method s = None /\ proxyHost_of (st_req s) ≠ "" /\ exists a, a ∈ methods (st_m s) /\
     st_m (post (do rt s)) =
       mkMulti (methods (st_m s)) (<[proxyHost_of (st_req s) := a]> (cache (st_m s)))).
Proof.
  destruct (cached_method s) as [c|] eqn:Hc.
  - destruct (method_do c (st_req s) rt (st_world s)) as [[r req'] w'] eqn:E.
    rewrite (do_cached _ _ _ _ _ _ Hc E). left. reflexivity.
  - rewrite (do_uncached _ _ Hc).
    destruct (try_methods_receiver (Z.of_nat (length (methods (st_m s))))
                (proxyHost_of (st_req s)) rt (methods (st_m s)) 0 s) as [H | (Hph & a & Ha & H)].
    + left. exact H.
    + right. repeat split; try assumption. exists a. split; assumption.
Qed.

(** [do] never changes the configured chain. *)
Lemma do_methods rt s : methods (st_m (post (do rt s))) = methods (st_m s).
Proof.
  destruct (do_receiver rt s) as [-> | (_ & _ & a & _ & ->)]; reflexivity.
Qed.

(** [do] writes the cache under non-empty host names only. *)
Lemma stored_host_nonempty rt s h c :
  cache (st_m s) !! h = None ->
  cache (st_m (post (do rt s))) !! h = Some c ->
  h ≠ "".
Proof.
  intros Hnone Hsome.
  destruct (do_receiver rt s) as [Heq | (_ & Hph & a & _ & Heq)]; rewrite Heq in Hsome.
  - congruence.
  - cbn [cache] in Hsome.
    destruct (decide (h = proxyHost_of (st_req s))) as [-> | Hne]; [assumption|].
    rewrite lookup_insert_ne in Hsome by congruence. congruence.
Qed.

(** A cache entry survives every step of the process. *)
Lemma cached_entry_preserved h c s s' :
  h ≠ "" ->
  cache (st_m s) !! h = Some c ->
  step s s' ->
  cache (st_m s') !! h = Some c.
Proof.
  intros Hh Hc Hstep. destruct Hstep as [rt s | s req w]; [|exact Hc].
  destruct (do_receiver rt s) as [-> | (Hmiss & Hph & a & _ & ->)]; [exact Hc|].
  cbn [cache].
  destruct (decide (h = proxyHost_of (st_req s))) as [-> | Hne].
  - unfold MultiAuth.cached_method in Hmiss.
    rewrite bool_decide_eq_true_2 in Hmiss by assumption. congruence.
  - rewrite lookup_insert_ne by congruence. exact Hc.
Qed.

Lemma cached_entry_forever h c s s' :
  h ≠ "" ->
  cache (st_m s) !! h = Some c ->
  rtc step s s' ->
  cache (st_m s') !! h = Some c.
Proof.
  intros Hh Hc Hsteps. induction Hsteps as [s | s s1 s2 Hstep _ IH]; [exact Hc|].
  apply IH. exact (cached_entry_preserved h c s s1 Hh Hc Hstep).
Qed.

(** C1. Once [do] has stored a method [c] for the proxy host [h], then
    at every later moment of the process (after any number of further
    calls of [do] and of outside events), a call whose request carries
    the host [h] invokes [c] and nothing else, hands back exactly what
    [c] returned, and leaves the receiver as it was. *)
Theorem cached_method_sticky rt0 s0 h c s rt r req' w' :
  cache (st_m s0) !! h = None ->
  cache (st_m (post (do rt0 s0))) !! h = Some c ->
  rtc step (post (do rt0 s0)) s ->
  proxyHost_of (st_req s) = h ->
  method_do c (st_req s) rt (st_world s) = (r, req', w') ->
  val (do rt s) = Return r.1 r.2 /\
  emitted (do rt s) = [EvDo c r] /\
  post (do rt s) = after_call s req' w' /\
  cache (st_m (post (do rt s))) !! h = Some c.
Proof.
  intros Hnone Hstored Hsteps Hhost E.
  assert (Hh : h ≠ "") by exact (stored_host_nonempty rt0 s0 h c Hnone Hstored).
  assert (Hc : cache (st_m s) !! h = Some c)
    by exact (cached_entry_forever h c _ s Hh Hstored Hsteps).
  assert (Hhit : cached_method s = Some c).
  { unfold MultiAuth.cached_method. rewrite Hhost.
    rewrite bool_decide_eq_true_2 by assumption. exact Hc. }
  rewrite (do_cached _ _ _ _ _ _ Hhit E). cbn [val emitted post].
  repeat split. exact Hc.
Qed.

Lemma invocations_cons_do a r (evs : list Ev) : invocations (EvDo a r :: evs) = a :: invocations evs.
Proof. reflexivity. Qed.

Lemma invocations_cons_close b (evs : list Ev) : invocations (EvClose b :: evs) = invocations evs.
Proof. reflexivity. Qed.

Lemma closes_cons_do a r (evs : list Ev) : closes (EvDo a r :: evs) = closes evs.
Proof. reflexivity. Qed.

Lemma closes_cons_close b (evs : list Ev) : closes (EvClose b :: evs) = b :: closes evs.
Proof. reflexivity. Qed.

(** The loop in a call where every answer is a 407: every method is
    invoked, in order; the receiver is untouched; all bodies but the
    last are closed; the last event is the invocation of the last
    method, whose 407 is the result. *)
Lemma try_methods_all_rejected n ph rt rest : forall i s,
  Z.of_nat (length rest) + i = n ->
  every_answer_407 (emitted (try_methods n i rest ph rt s)) ->
  let o := try_methods n i rest ph rt s in
  invocations (emitted o) = rest /\
  st_m (post o) = st_m s /\
  forall a_last, last rest = Some a_last ->
    exists resp pre,
      val o = Return (Some resp) None /\
      StatusCode resp = StatusProxyAuthRequired /\
      emitted o = (pre ++ [EvDo a_last (Some resp, None)])%list /\
      S (length (closes pre)) = length rest.
Proof.
  induction rest as [|a rest IH]; intros i s Hlen Hall; cbn zeta.
  - repeat split. intros a_last Hlast. discriminate.
  - destruct (method_do a (st_req s) rt (st_world s)) as [[r req'] w'] eqn:E.
    rewrite (try_methods_cons _ _ _ _ _ _ _ _ _ _ E) in Hall |- *.
    assert (Hr : exists resp, r = (Some resp, None) /\
                              StatusCode resp = StatusProxyAuthRequired).
    { apply (Hall a r).
      destruct r as [[resp|] [err|]]; try (left; fail).
      repeat case_bool_decide; left. }
    destruct Hr as (resp & -> & H407).
    rewrite bool_decide_eq_false_2 in Hall |- * by (intros Hne; exact (Hne H407)).
    case_bool_decide as Hi.
    + assert (Hrest : rest ≠ []).
      { intros ->. cbn [length] in Hlen. lia. }
      cbn [val post emitted] in Hall |- *.
      destruct (IH (i + 1) (after_call s req' (Body_Close (resp_Body resp) w')))
        as (Hinv & Hm & Hlast).
      { cbn [length] in Hlen. lia. }
      { intros b rb Hb. apply (Hall b rb). right. right. exact Hb. }
      rewrite invocations_cons_do, invocations_cons_close, Hinv.
      split; [reflexivity|]. split; [exact Hm|].
      intros a_last Ha.
      assert (Ha' : last rest = Some a_last).
      { destruct rest as [|b rest']; [congruence|exact Ha]. }
      destruct (Hlast a_last Ha') as (resp' & pre & Hval & Hst & Hev & Hcl).
      exists resp', (EvDo a (Some resp, None) :: EvClose (resp_Body resp) :: pre).
      repeat split; try assumption.
      * rewrite Hev. reflexivity.
      * rewrite closes_cons_do, closes_cons_close. cbn [length]. rewrite Hcl. reflexivity.
    + assert (Hrest : rest = []).
      { destruct rest; [reflexivity|]. cbn [length] in Hlen. lia. }
      subst rest. cbn [val post emitted].
      repeat split. intros a_last Ha. cbn in Ha. injection Ha as <-.
      exists resp, []. repeat split. exact H407.
Qed.

(** C2. In a call that finds no cached method for the proxy host and in
    which every method invoked answers 407, each method of the chain is
    invoked exactly once, in the configured order, the cache is left as
    it was, and the 407 response the last method returned is handed
    back with no error; the last act of the call is that invocation, so
    the body of the response it returns is not closed, while one body
    was closed for each of the other methods. *)
Theorem exhausted_chain_returns_last_407 rt s :
  cached_method s = None ->
  every_answer_407 (emitted (do rt s)) ->
  invocations (emitted (do rt s)) = methods (st_m s) /\
  st_m (post (do rt s)) = st_m s /\
  forall a_last, last (methods (st_m s)) = Some a_last ->
    exists resp pre,
      val (do rt s) = Return (Some resp) None /\
      StatusCode resp = StatusProxyAuthRequired /\
      emitted (do rt s) = (pre ++ [EvDo a_last (Some resp, None)])%list /\
      S (length (closes pre)) = length (methods (st_m s)).
Proof.
  intros Hmiss Hall. rewrite (do_uncached _ _ Hmiss) in Hall |- *.
  apply try_methods_all_rejected; [lia | exact Hall].
Qed.

(** The loop over a non-empty list starts by invoking its head. *)
Lemma try_methods_head n i a rest ph rt s :
  exists r tl, emitted (try_methods n i (a :: rest) ph rt s) = EvDo a r :: tl.
Proof.
  destruct (method_do a (st_req s) rt (st_world s)) as [[r req'] w'] eqn:E.
  rewrite (try_methods_cons _ _ _ _ _ _ _ _ _ _ E).
  exists r. destruct r as [[resp|] [err|]]; try (eexists; reflexivity).
  repeat case_bool_decide; eexists; reflexivity.
Qed.

(** Where a method that is not the last answers 407, the next two
    events are the closing of that body and the invocation of the next
    method of the list. *)
Lemma try_methods_closes_rejected n ph rt rest : forall i s pre a resp tl,
  Z.of_nat (length rest) + i = n ->
  emitted (try_methods n i rest ph rt s) = (pre ++ EvDo a (Some resp, None) :: tl)%list ->
  StatusCode resp = StatusProxyAuthRequired ->
  Z.of_nat (length (invocations pre)) + i < n - 1 ->
  exists a' r' tl',
    tl = EvClose (resp_Body resp) :: EvDo a' r' :: tl' /\
    rest !! S (length (invocations pre)) = Some a'.
Proof.
  induction rest as [|m rest IH]; intros i s pre a resp tl Hlen Hev H407 Hidx.
  - cbn in Hev. destruct pre; discriminate.
  - destruct (method_do m (st_req s) rt (st_world s)) as [[r req'] w'] eqn:E.
    rewrite (try_methods_cons _ _ _ _ _ _ _ _ _ _ E) in Hev.
    destruct pre as [|e pre].
    + (* the rejected method is the one at hand *)
      cbn [app length invocations omap] in Hev, Hidx.
      assert (Hi : i < n - 1) by (cbn in Hidx; lia).
      destruct r as [[resp0|] [err|]]; cbn [emitted] in Hev; try (simplify_eq; fail).
      case_bool_decide as Hst.
      { case_bool_decide; cbn [emitted] in Hev; simplify_eq. }
      rewrite bool_decide_eq_true_2 in Hev by exact Hi.
      cbn [emitted] in Hev. injection Hev as _ -> Htl.
      destruct rest as [|b rest]; [cbn [length] in Hlen; lia|].
      destruct (try_methods_head n (i + 1) b rest ph rt
                  (after_call s req' (Body_Close (resp_Body resp) w'))) as (r' & tl' & Hhd).
      rewrite Hhd in Htl. exists b, r', tl'. split; [symmetry; exact Htl | reflexivity].
    + (* it comes later: the method at hand was rejected and closed *)
      destruct r as [[resp0|] [err|]]; cbn [emitted] in Hev;
        try (destruct pre; simplify_eq; fail).
      case_bool_decide as Hst.
      { case_bool_decide; cbn [emitted] in Hev;
          destruct pre as [|? [|? ?]]; simplify_eq. }
      case_bool_decide as Hi; cbn [emitted] in Hev;
        [|destruct pre; simplify_eq].
      cbn [app] in Hev. injection Hev as <- Htl.
      destruct pre as [|e' pre]; [discriminate|].
      cbn [app] in Htl. injection Htl as <- Htl.
      rewrite invocations_cons_do, invocations_cons_close in Hidx |- *.
      cbn [length] in Hidx, Hlen.
      destruct (IH (i + 1) _ pre a resp tl ltac:(lia) Htl H407 ltac:(lia))
        as (a' & r' & tl' & Htl' & Hnext).
      exists a', r', tl'. split; [exact Htl' | exact Hnext].
Qed.

(** The response the loop hands back is the one its last invocation
    returned, and nothing is invoked or closed after it. *)
Lemma try_methods_returns_last n ph rt rest : forall i s resp err,
  val (try_methods n i rest ph rt s) = Return (Some resp) err ->
  exists pre a tl,
    emitted (try_methods n i rest ph rt s) = (pre ++ EvDo a (Some resp, None) :: tl)%list /\
    invocations tl = [] /\ closes tl = [].
Proof.
  induction rest as [|m rest IH]; intros i s resp err Hval.
  - discriminate.
  - destruct (method_do m (st_req s) rt (st_world s)) as [[r req'] w'] eqn:E.
    rewrite (try_methods_cons _ _ _ _ _ _ _ _ _ _ E) in Hval |- *.
    destruct r as [[resp0|] [err0|]]; try discriminate.
    case_bool_decide.
    { case_bool_decide; cbn [val emitted] in Hval |- *; injection Hval as -> _;
        exists [], m; eexists; repeat split. }
    case_bool_decide; cbn [val emitted] in Hval |- *.
    + destruct (IH _ _ _ _ Hval) as (pre & a & tl & Hev & Hi & Hc).
      exists (EvDo m (Some resp0, None) :: EvClose (resp_Body resp0) :: pre), a, tl.
      rewrite Hev. repeat split; assumption.
    + injection Hval as -> _. exists [], m, []. repeat split.
Qed.

(** C3, as the code has it. In a call that finds no cached method for
    the proxy host, whenever a method that is not the last of the chain
    answers 407, the very next act of [do] is to close the body of that
    response (it reads nothing from it), and the act after that is the
    invocation of the next method of the chain. The call hands back at
    most one response: the one its last invocation returned, whose body
    it does not close. *)
Theorem rejected_body_closed_before_next rt s :
  cached_method s = None ->
  (forall pre a resp tl,
     emitted (do rt s) = (pre ++ EvDo a (Some resp, None) :: tl)%list ->
     StatusCode resp = StatusProxyAuthRequired ->
     Z.of_nat (length (invocations pre)) < Z.of_nat (length (methods (st_m s))) - 1 ->
     exists a' r' tl',
       tl = EvClose (resp_Body resp) :: EvDo a' r' :: tl' /\
       methods (st_m s) !! S (length (invocations pre)) = Some a') /\
  (forall resp err,
     val (do rt s) = Return (Some resp) err ->
     exists pre a tl,
       emitted (do rt s) = (pre ++ EvDo a (Some resp, None) :: tl)%list /\
       invocations tl = [] /\ closes tl = []).
Proof.
  intros Hmiss. rewrite (do_uncached _ _ Hmiss). split.
  - intros pre a resp tl Hev H407 Hidx.
    eapply try_methods_closes_rejected; [| exact Hev | exact H407 |]; lia.
  - intros resp err Hval. eapply try_methods_returns_last. exact Hval.
Qed.

(** The loop stops at the first answer that is not 407: that response
    is the result, nothing is invoked or closed after it, and the cache
    gains the entry for the proxy host when there is one. *)
Lemma try_methods_first_success n ph rt rest : forall i s pre a resp tl,
  emitted (try_methods n i rest ph rt s) = (pre ++ EvDo a (Some resp, None) :: tl)%list ->
  StatusCode resp ≠ StatusProxyAuthRequired ->
  let o := try_methods n i rest ph rt s in
  val o = Return (Some resp) None /\
  invocations tl = [] /\ closes tl = [] /\
  st_m (post o) =
    if bool_decide (ph ≠ "")
    then mkMulti (methods (st_m s)) (<[ph := a]> (cache (st_m s)))
    else st_m s.
Proof.
  induction rest as [|m rest IH]; intros i s pre a resp tl Hev Hok; cbn zeta.
  - cbn in Hev. destruct pre; discriminate.
  - destruct (method_do m (st_req s) rt (st_world s)) as [[r req'] w'] eqn:E.
    rewrite (try_methods_cons _ _ _ _ _ _ _ _ _ _ E) in Hev |- *.
    destruct pre as [|e pre]; cbn [app] in Hev.
    + destruct r as [[resp0|] [err|]]; cbn [emitted] in Hev; try (simplify_eq; fail).
      case_bool_decide as Hst.
      * case_bool_decide as Hph; cbn [emitted val post] in Hev |- *; simplify_eq;
          repeat split.
      * case_bool_decide; cbn [emitted] in Hev; simplify_eq.
    + destruct r as [[resp0|] [err|]]; cbn [emitted] in Hev;
        try (destruct pre; simplify_eq; fail).
      case_bool_decide as Hst.
      { case_bool_decide; cbn [emitted] in Hev;
          destruct pre as [|? [|? ?]]; simplify_eq. }
      case_bool_decide as Hi; cbn [emitted val post] in Hev |- *;
        [|destruct pre; simplify_eq].
      injection Hev as <- Htl.
      destruct pre as [|e' pre]; [discriminate|].
      cbn [app] in Htl. injection Htl as <- Htl.
      exact (IH (i + 1) _ pre a resp tl Htl Hok).
Qed.

(** C4, as the code has it. In a call that finds no cached entry, when
    a method returns a response whose status is not 407, iteration
    stops there (nothing is invoked or closed afterwards) and that
    response is handed back unchanged with no error; the mapping from
    the proxy host to that method is stored in the cache when the host
    name is not empty, and the cache is left as it was when it is. *)
Theorem first_success_cached_and_returned rt s pre a resp tl :
  cached_method s = None ->
  emitted (do rt s) = (pre ++ EvDo a (Some resp, None) :: tl)%list ->
  StatusCode resp ≠ StatusProxyAuthRequired ->
  val (do rt s) = Return (Some resp) None /\
  invocations tl = [] /\ closes tl = [] /\
  methods (st_m (post (do rt s))) = methods (st_m s) /\
  cache (st_m (post (do rt s))) =
    if bool_decide (proxyHost_of (st_req s) ≠ "")
    then <[proxyHost_of (st_req s) := a]> (cache (st_m s))
    else cache (st_m s).
Proof.
  intros Hmiss Hev Hok. rewrite (do_uncached _ _ Hmiss) in Hev |- *.
  destruct (try_methods_first_success _ _ _ _ _ _ _ _ _ _ Hev Hok)
    as (Hval & Hinv & Hcl & Hm).
  repeat split; try assumption; rewrite Hm; case_bool_decide; reflexivity.
Qed.

(** The loop never reads the receiver: two states with the same request
    and world give the same result, events, request and world. *)
Lemma try_methods_ignores_receiver n ph rt rest : forall i (s1 s2 : St),
  st_req s1 = st_req s2 ->
  st_world s1 = st_world s2 ->
  let o1 := try_methods n i rest ph rt s1 in
  let o2 := try_methods n i rest ph rt s2 in
  val o1 = val o2 /\ emitted o1 = emitted o2 /\
  st_req (post o1) = st_req (post o2) /\ st_world (post o1) = st_world (post o2).
Proof.
  induction rest as [|m rest IH]; intros i s1 s2 Hreq Hw; cbn zeta.
  - repeat split; assumption.
  - destruct (method_do m (st_req s2) rt (st_world s2)) as [[r req'] w'] eqn:E2.
    assert (E1 : method_do m (st_req s1) rt (st_world s1) = (r, req', w'))
      by (rewrite Hreq, Hw; exact E2).
    rewrite (try_methods_cons _ _ _ _ _ _ _ _ _ _ E1).
    rewrite (try_methods_cons _ _ _ _ _ _ _ _ _ _ E2).
    destruct r as [[resp|] [err|]]; try (repeat split; fail).
    repeat case_bool_decide; try (repeat split; fail).
    cbn [val post emitted].
    destruct (IH (i + 1) (after_call s1 req' (Body_Close (resp_Body resp) w'))
                (after_call s2 req' (Body_Close (resp_Body resp) w')) eq_refl eq_refl)
      as (Hv & He & Hr & Hwd).
    rewrite He. repeat split; assumption.
Qed.

(** The methods the loop invokes are an initial stretch of its list,
    the head included. *)
Lemma try_methods_in_order n ph rt rest : forall i s,
  exists k, invocations (emitted (try_methods n i rest ph rt s)) = take k rest /\
            (rest ≠ [] -> (0 < k)%nat).
Proof.
  induction rest as [|m rest IH]; intros i s.
  - exists 0%nat. split; [reflexivity | congruence].
  - destruct (method_do m (st_req s) rt (st_world s)) as [[r req'] w'] eqn:E.
    rewrite (try_methods_cons _ _ _ _ _ _ _ _ _ _ E).
    destruct r as [[resp|] [err|]];
      try (exists 1%nat; split; [reflexivity | lia]).
    repeat case_bool_decide; try (exists 1%nat; split; [reflexivity | lia]).
    destruct (IH (i + 1) (after_call s req' (Body_Close (resp_Body resp) w')))
      as (k & Hk & _).
    exists (S k). cbn [emitted]. rewrite invocations_cons_do, invocations_cons_close, Hk.
    split; [reflexivity | lia].
Qed.

(** C10. When the request context carries no proxy URL, or one whose
    host name is empty, the call leaves the receiver, and so the cache,
    exactly as it was; its result, its events, and the request and
    world it leaves are the same whatever the cache holds (the cache is
    not consulted); and the methods it invokes are the configured ones
    in their order, from the first on. *)
Theorem no_proxy_host_leaves_cache_alone rt s :
  proxyHost_of (st_req s) = "" ->
  st_m (post (do rt s)) = st_m s /\
  (forall c',
     let s' := mkSt (mkMulti (methods (st_m s)) c') (st_req s) (st_world s) in
     val (do rt s') = val (do rt s) /\
     emitted (do rt s') = emitted (do rt s) /\
     st_req (post (do rt s')) = st_req (post (do rt s)) /\
     st_world (post (do rt s')) = st_world (post (do rt s)) /\
     cache (st_m (post (do rt s'))) = c') /\
  exists k, invocations (emitted (do rt s)) = take k (methods (st_m s)) /\
            (methods (st_m s) ≠ [] -> (0 < k)%nat).
Proof.
  intros Hhost.
  assert (Hmiss : forall s0 : St, proxyHost_of (st_req s0) = "" -> cached_method s0 = None).
  { intros s0 H0. unfold MultiAuth.cached_method. rewrite H0.
    rewrite bool_decide_eq_false_2 by (intros Hne; exact (Hne eq_refl)). reflexivity. }
  assert (Hsame : forall s0 : St, proxyHost_of (st_req s0) = "" ->
                                  st_m (post (do rt s0)) = st_m s0).
  { intros s0 H0. destruct (do_receiver rt s0) as [H | (_ & Hne & _)];
      [exact H | contradiction]. }
  split; [exact (Hsame s Hhost)|]. split.
  - intros c' s'.
    assert (Hhost' : proxyHost_of (st_req s') = "") by exact Hhost.
    rewrite (Hsame s' Hhost').
    rewrite (do_uncached _ _ (Hmiss s' Hhost')), (do_uncached _ _ (Hmiss s Hhost)).
    cbn [st_m st_req methods cache].
    destruct (try_methods_ignores_receiver (Z.of_nat (length (methods (st_m s))))
                (proxyHost_of (st_req s)) rt (methods (st_m s)) 0 s' s eq_refl eq_refl)
      as (Hv & He & Hr & Hw).
    repeat split; assumption.
  - rewrite (do_uncached _ _ (Hmiss s Hhost)). apply try_methods_in_order.
Qed.

(** The first loop of [newMultiAuthenticator] keeps the entries that
    are not nil, in their order. *)
Lemma filter_nil_omap (ms : list (option A)) : filter_nil ms = omap id ms.
Proof.
  induction ms as [|[m|] ms IH]; cbn; [reflexivity | rewrite IH; reflexivity | exact IH].
Qed.

Lemma filter_nil_all_nil (ms : list (option A)) :
  Forall (fun m => m = None) ms -> filter_nil ms = [].
Proof.
  induction 1 as [|m ms -> _ IH]; [reflexivity | exact IH].
Qed.

(** A fresh multi-authenticator has a cache that names only methods of
    the chain, and [do] keeps it so. *)
Lemma new_cache_in_chain (ms : list A) : cache_in_chain (mkMulti ms ∅).
Proof. intros h a Hl. cbn in Hl. rewrite lookup_empty in Hl. discriminate. Qed.

Lemma do_cache_in_chain rt s :
  cache_in_chain (st_m s) -> cache_in_chain (st_m (post (do rt s))).
Proof.
  intros Hin. destruct (do_receiver rt s) as [-> | (_ & _ & a & Ha & ->)]; [exact Hin|].
  intros h b Hl. cbn [cache methods] in Hl |- *.
  destruct (decide (h = proxyHost_of (st_req s))) as [-> | Hne].
  - rewrite lookup_insert_eq in Hl. injection Hl as <-. exact Ha.
  - rewrite lookup_insert_ne in Hl by congruence. exact (Hin h b Hl).
Qed.

(** C7. With an empty chain there is no authentication:
    [newMultiAuthenticator] given nothing but nil entries returns nil,
    and [do] on a receiver whose chain is empty (its cache naming only
    methods of the chain, hence nothing) invokes no method and returns
    a nil response with the error "no authentication methods
    configured". *)
Theorem empty_chain_is_unauthenticated :
  (forall ms : list (option A),
     Forall (fun m => m = None) ms ->
     newMultiAuthenticator ms = nil_authenticator) /\
  (forall rt (s : St),
     methods (st_m s) = [] ->
     cache_in_chain (st_m s) ->
     val (do rt s) = Return None (Some (Errorf "no authentication methods configured")) /\
     emitted (do rt s) = [] /\
     post (do rt s) = s).
Proof.
  split.
  - intros ms Hnil. unfold MultiAuth.newMultiAuthenticator.
    rewrite (filter_nil_all_nil ms Hnil). reflexivity.
  - intros rt s Hempty Hin.
    assert (Hmiss : cached_method s = None).
    { unfold MultiAuth.cached_method. case_bool_decide; [|reflexivity].
      destruct (cache (st_m s) !! proxyHost_of (st_req s)) as [a|] eqn:Hl; [|reflexivity].
      apply Hin in Hl. rewrite Hempty in Hl. inversion Hl. }
    rewrite (do_uncached _ _ Hmiss), Hempty. repeat split.
Qed.

(** C9. [newMultiAuthenticator] drops the nil entries, keeping the
    order of the others; with none left it returns nil, with exactly
    one left it returns that method itself, and with two or more it
    returns a multi-authenticator whose chain is the list of the
    entries left and whose cache is empty. *)
Theorem newMultiAuthenticator_cases (ms : list (option A)) :
  let filtered := omap id ms in
  Some <$> filtered = filter (fun m => is_Some m) ms /\
  (filtered = [] -> newMultiAuthenticator ms = nil_authenticator) /\
  (forall a, filtered = [a] -> newMultiAuthenticator ms = single a) /\
  ((2 <= length filtered)%nat ->
     newMultiAuthenticator ms = multi (mkMulti filtered ∅)).
Proof.
  cbn zeta. unfold MultiAuth.newMultiAuthenticator. rewrite filter_nil_omap.
  split; [|split; [|split]].
  - induction ms as [|[m|] ms IH]; [reflexivity| |].
    + rewrite filter_cons_True by (eexists; reflexivity). cbn. rewrite <- IH. reflexivity.
    + rewrite filter_cons_False by (intros [? ?]; discriminate). exact IH.
  - intros ->. reflexivity.
  - intros a ->. reflexivity.
  - intros Hlen. destruct (omap id ms) as [|a [|b l]]; cbn [length] in Hlen; [lia | lia |].
    reflexivity.
Qed.

(** *** Further properties of the loop *)

(** Where a method returns an error the loop stops at once. *)
Lemma try_methods_error_stops n ph rt rest : forall i s pre a resp err tl,
  emitted (try_methods n i rest ph rt s) = (pre ++ EvDo a (resp, Some err) :: tl)%list ->
  let o := try_methods n i rest ph rt s in
  val o = Return None (Some err) /\ tl = [] /\ st_m (post o) = st_m s.
Proof.
  induction rest as [|m rest IH]; intros i s pre a resp err tl Hev; cbn zeta.
  - cbn in Hev. destruct pre; discriminate.
  - destruct (method_do m (st_req s) rt (st_world s)) as [[r req'] w'] eqn:E.
    rewrite (try_methods_cons _ _ _ _ _ _ _ _ _ _ E) in Hev |- *.
    destruct pre as [|e pre]; cbn [app] in Hev.
    + destruct r as [[resp0|] [err0|]]; cbn [emitted val post] in Hev |- *;
        try (simplify_eq; repeat split; fail).
      repeat case_bool_decide; cbn [emitted] in Hev; simplify_eq.
    + destruct r as [[resp0|] [err0|]]; cbn [emitted] in Hev;
        try (destruct pre; simplify_eq; fail).
      case_bool_decide as Hst.
      { case_bool_decide; cbn [emitted] in Hev;
          destruct pre as [|? [|? ?]]; simplify_eq. }
      case_bool_decide as Hi; cbn [emitted val post] in Hev |- *;
        [|destruct pre; simplify_eq].
      injection Hev as <- Htl.
      destruct pre as [|e' pre]; [discriminate|].
      cbn [app] in Htl. injection Htl as <- Htl.
      exact (IH (i + 1) _ pre a resp err tl Htl).
Qed.

(** X1. In a call that finds no cached method, when a method returns an
    error the call ends there: it hands back a nil response with that
    very error, invokes no further method, closes nothing and logs
    nothing after it (the response the method may have returned beside
    the error is dropped as it is), and the receiver is left untouched,
    so nothing is cached. *)
Theorem method_error_ends_the_call rt s pre a resp err tl :
  cached_method s = None ->
  emitted (do rt s) = (pre ++ EvDo a (resp, Some err) :: tl)%list ->
  val (do rt s) = Return None (Some err) /\
  tl = [] /\
  st_m (post (do rt s)) = st_m s.
Proof.
  intros Hmiss Hev. rewrite (do_uncached _ _ Hmiss) in Hev |- *.
  exact (try_methods_error_stops _ _ _ _ _ _ _ _ _ _ _ Hev).
Qed.

(** The loop invokes an initial stretch of its list and closes one body
    less than it invokes. *)
Lemma try_methods_shape n ph rt rest : forall i s,
  Z.of_nat (length rest) + i = n ->
  exists k, invocations (emitted (try_methods n i rest ph rt s)) = take k rest /\
            (k <= length rest)%nat /\
            (rest ≠ [] -> (0 < k)%nat) /\
            length (closes (emitted (try_methods n i rest ph rt s))) = pred k.
Proof.
  induction rest as [|m rest IH]; intros i s Hlen.
  - exists 0%nat. repeat split; [lia | congruence].
  - destruct (method_do m (st_req s) rt (st_world s)) as [[r req'] w'] eqn:E.
    rewrite (try_methods_cons _ _ _ _ _ _ _ _ _ _ E).
    assert (Hone : forall evs : list Ev,
              invocations evs = [m] -> closes evs = [] ->
              exists k, invocations evs = take k (m :: rest) /\
                        (k <= length (m :: rest))%nat /\
                        (m :: rest ≠ [] -> (0 < k)%nat) /\
                        length (closes evs) = pred k).
    { intros evs Hi Hc. exists 1%nat. rewrite Hi, Hc. cbn [length].
      repeat split; lia. }
    destruct r as [[resp|] [err|]]; try (apply Hone; reflexivity).
    repeat case_bool_decide; try (apply Hone; reflexivity).
    assert (Hrest : rest ≠ []) by (intros ->; cbn [length] in Hlen; lia).
    destruct (IH (i + 1) (after_call s req' (Body_Close (resp_Body resp) w')))
      as (k & Hk & Hle & Hpos & Hcl); [cbn [length] in Hlen; lia|].
    specialize (Hpos Hrest).
    exists (S k). cbn [emitted].
    rewrite invocations_cons_do, invocations_cons_close, Hk.
    rewrite closes_cons_do, closes_cons_close. cbn [length]. rewrite Hcl.
    repeat split; [lia | lia | lia].
Qed.

(** X2. In a call that finds no cached method, the methods invoked are
    the first [k] methods of the chain, in their order and each once,
    with [k] at least one for a chain that is not empty; and the call
    closes exactly [k - 1] response bodies: every response it received
    but the last. *)
Theorem uncached_call_shape rt s :
  cached_method s = None ->
  exists k, invocations (emitted (do rt s)) = take k (methods (st_m s)) /\
            (k <= length (methods (st_m s)))%nat /\
            (methods (st_m s) ≠ [] -> (0 < k)%nat) /\
            length (closes (emitted (do rt s))) = pred k.
Proof.
  intros Hmiss. rewrite (do_uncached _ _ Hmiss). apply try_methods_shape. lia.
Qed.

(** What the loop hands back: a panic only right after a method returned
    neither response nor error; otherwise exactly one of the two. *)
Lemma try_methods_outcome n ph rt rest : forall i s,
  let o := try_methods n i rest ph rt s in
  (val o = Panic -> exists pre a, emitted o = (pre ++ [EvDo a (None, None)])%list) /\
  (forall resp err, val o = Return resp err ->
     (is_Some resp /\ err = None) \/ (resp = None /\ is_Some err)).
Proof.
  induction rest as [|m rest IH]; intros i s; cbn zeta.
  - split; [discriminate|]. intros resp err Hret. injection Hret as <- <-. right. split; [reflexivity | eexists; reflexivity].
  - destruct (method_do m (st_req s) rt (st_world s)) as [[r req'] w'] eqn:E.
    rewrite (try_methods_cons _ _ _ _ _ _ _ _ _ _ E).
    destruct r as [[resp0|] [err0|]]; cbn [val emitted].
    + split; [discriminate|]. intros resp err Hret. injection Hret as <- <-. right. split; [reflexivity | eexists; reflexivity].
    + repeat case_bool_decide; cbn [val emitted];
        try (split; [discriminate|]; intros resp err Hret; injection Hret as <- <-; left;
             split; [eexists; reflexivity | reflexivity]).
      destruct (IH (i + 1) (after_call s req' (Body_Close (resp_Body resp0) w')))
        as [Hpanic Hret].
      split; [|exact Hret].
      intros Hp. destruct (Hpanic Hp) as (pre & a & Hev).
      exists (EvDo m (Some resp0, None) :: EvClose (resp_Body resp0) :: pre), a.
      rewrite Hev. reflexivity.
    + split; [discriminate|]. intros resp err Hret. injection Hret as <- <-. right. split; [reflexivity | eexists; reflexivity].
    + split; [|discriminate]. intros _. exists [], m. reflexivity.
Qed.

(** X3. A call that finds no cached method panics only if the last
    method it invoked returned a nil response together with a nil error;
    so it does not panic when every method invoked returned a response
    or an error. When it returns, it returns exactly one of the two: a
    response with a nil error, or a nil response with an error. *)
Theorem uncached_call_outcome rt s :
  cached_method s = None ->
  (val (do rt s) = Panic ->
     exists pre a, emitted (do rt s) = (pre ++ [EvDo a (None, None)])%list) /\
  ((forall a r, EvDo a r ∈ emitted (do rt s) -> r ≠ (None, None)) ->
     val (do rt s) ≠ Panic) /\
  (forall resp err, val (do rt s) = Return resp err ->
     (is_Some resp /\ err = None) \/ (resp = None /\ is_Some err)).
Proof.
  intros Hmiss. rewrite (do_uncached _ _ Hmiss).
  destruct (try_methods_outcome (Z.of_nat (length (methods (st_m s))))
              (proxyHost_of (st_req s)) rt (methods (st_m s)) 0 s) as [Hpanic Hret].
  split; [exact Hpanic|]. split; [|exact Hret].
  intros Hok Hp. destruct (Hpanic Hp) as (pre & a & Hev).
  apply (Hok a (None, None)); [|reflexivity].
  rewrite Hev. apply elem_of_app. right. left.
Qed.

(** X4. Success is sticky. When a call for a proxy host with a name
    finds no cached method and one of its methods answers with a status
    other than 407, then at every later moment of the process a call
    for that host invokes that method and no other, and hands back what
    it returned. *)
Theorem success_then_sticky rt s pre a resp tl s' rt' r req' w' :
  cached_method s = None ->
  proxyHost_of (st_req s) ≠ "" ->
  emitted (do rt s) = (pre ++ EvDo a (Some resp, None) :: tl)%list ->
  StatusCode resp ≠ StatusProxyAuthRequired ->
  rtc step (post (do rt s)) s' ->
  proxyHost_of (st_req s') = proxyHost_of (st_req s) ->
  method_do a (st_req s') rt' (st_world s') = (r, req', w') ->
  emitted (do rt' s') = [EvDo a r] /\
  val (do rt' s') = Return r.1 r.2.
Proof.
  intros Hmiss Hhost Hev Hok Hsteps Hsame E.
  assert (Hstored : cache (st_m (post (do rt s))) !! proxyHost_of (st_req s) = Some a).
  { rewrite (do_uncached _ _ Hmiss) in Hev |- *.
    destruct (try_methods_first_success _ _ _ _ _ _ _ _ _ _ Hev Hok) as (_ & _ & _ & Hm).
    rewrite Hm. rewrite bool_decide_eq_true_2 by exact Hhost.
    cbn [cache]. apply lookup_insert_eq. }
  assert (Hc : cache (st_m s') !! proxyHost_of (st_req s) = Some a)
    by exact (cached_entry_forever _ a _ s' Hhost Hstored Hsteps).
  assert (Hhit : cached_method s' = Some a).
  { unfold MultiAuth.cached_method. rewrite Hsame.
    rewrite bool_decide_eq_true_2 by exact Hhost. exact Hc. }
  rewrite (do_cached _ _ _ _ _ _ Hhit E). split; reflexivity.
Qed.

(** A call leaves every cache entry in place. *)
Lemma do_cache_grows rt s : cache (st_m s) ⊆ cache (st_m (post (do rt s))).
Proof.
  destruct (do_receiver rt s) as [-> | (Hmiss & Hph & a & _ & ->)]; [reflexivity|].
  cbn [cache]. apply insert_subseteq.
  unfold MultiAuth.cached_method in Hmiss.
  rewrite bool_decide_eq_true_2 in Hmiss by exact Hph. exact Hmiss.
Qed.

(** X5. The cache only grows and the chain never changes: whatever
    happens in the process, every entry the cache holds stays in it with
    the method it names (no entry is removed or overwritten), and the
    list of methods is the one the receiver started with. *)
Theorem cache_only_grows s s' :
  rtc step s s' ->
  cache (st_m s) ⊆ cache (st_m s') /\
  methods (st_m s') = methods (st_m s).
Proof.
  induction 1 as [s | s s1 s2 Hstep _ [IHc IHm]]; [split; reflexivity|].
  assert (H1 : cache (st_m s) ⊆ cache (st_m s1) /\ methods (st_m s1) = methods (st_m s)).
  { destruct Hstep as [rt s | s req w]; [|split; reflexivity].
    split; [apply do_cache_grows | apply do_methods]. }
  destruct H1 as [Hc Hm]. split; [etransitivity; eassumption | congruence].
Qed.

(** X6. A multi-authenticator built by [newMultiAuthenticator] keeps,
    whatever happens in the process: its chain, which is the list of the
    arguments that were not nil and has at least two methods; a cache
    that names only methods of that chain; and no cache entry under the
    empty host name. Every call of [do] on it therefore invokes at least
    one method: the final [return] of [do], with its error "no
    authentication methods configured", is never reached. *)
Theorem built_authenticator_invariants (ms : list (option A)) m req w s :
  newMultiAuthenticator ms = multi m ->
  rtc step (mkSt m req w) s ->
  methods (st_m s) = omap id ms /\
  (2 <= length (methods (st_m s)))%nat /\
  cache_in_chain (st_m s) /\
  cache (st_m s) !! "" = None /\
  forall rt, invocations (emitted (do rt s)) ≠ [].
Proof.
  intros Hnew Hsteps.
  assert (Hm : m = mkMulti (omap id ms) ∅ /\ (2 <= length (omap id ms))%nat).
  { unfold MultiAuth.newMultiAuthenticator in Hnew. rewrite filter_nil_omap in Hnew.
    destruct (omap id ms) as [|a [|b l]]; try discriminate.
    injection Hnew as <-. split; [reflexivity | cbn [length]; lia]. }
  destruct Hm as [-> Hlen].
  assert (Hinv : methods (st_m s) = omap id ms /\ cache_in_chain (st_m s) /\
                 cache (st_m s) !! "" = None).
  { revert s Hsteps.
    apply (rtc_ind_r (fun s : St => methods (st_m s) = omap id ms /\
                                   cache_in_chain (st_m s) /\
                                   cache (st_m s) !! "" = None)).
    - split; [reflexivity | split; [apply new_cache_in_chain | apply lookup_empty]].
    - intros s1 s2 _ Hstep (IHm & IHc & IHe).
      destruct Hstep as [rt s1 | s1 req1 w1]; [|repeat split; assumption].
      split; [rewrite do_methods; exact IHm|].
      split; [apply do_cache_in_chain; exact IHc|].
      destruct (do_receiver rt s1) as [-> | (_ & Hph & a & _ & ->)]; [exact IHe|].
      cbn [cache]. rewrite lookup_insert_ne by exact Hph. exact IHe. }
  destruct Hinv as (Hms & Hin & Hempty).
  repeat split; try assumption; [rewrite Hms; exact Hlen|].
  intros rt Hnone.
  destruct (cached_method s) as [c|] eqn:Hc.
  - destruct (method_do c (st_req s) rt (st_world s)) as [[r req'] w'] eqn:E.
    rewrite (do_cached _ _ _ _ _ _ Hc E) in Hnone. discriminate.
  - rewrite (do_uncached _ _ Hc) in Hnone.
    destruct (try_methods_shape (Z.of_nat (length (methods (st_m s))))
                (proxyHost_of (st_req s)) rt (methods (st_m s)) 0 s ltac:(lia))
      as (k & Hk & _ & Hpos & _).
    rewrite Hnone in Hk.
    assert (Hne : methods (st_m s) ≠ []).
    { intros Hnil. rewrite Hms in Hnil. rewrite Hnil in Hlen. cbn in Hlen. lia. }
    specialize (Hpos Hne).
    destruct k as [|k]; [lia|]. destruct (methods (st_m s)); [congruence | discriminate].
Qed.

(** The loop writes the same cache entry, if any, whatever receiver it
    runs on. *)
Lemma try_methods_same_write n ph rt rest : forall i (s1 s2 : St),
  st_req s1 = st_req s2 ->
  st_world s1 = st_world s2 ->
  let o1 := try_methods n i rest ph rt s1 in
  let o2 := try_methods n i rest ph rt s2 in
  (st_m (post o1) = st_m s1 /\ st_m (post o2) = st_m s2) \/
  (exists a,
     st_m (post o1) = mkMulti (methods (st_m s1)) (<[ph := a]> (cache (st_m s1))) /\
     st_m (post o2) = mkMulti (methods (st_m s2)) (<[ph := a]> (cache (st_m s2)))).
Proof.
  induction rest as [|m rest IH]; intros i s1 s2 Hreq Hw; cbn zeta.
  - left. split; reflexivity.
  - destruct (method_do m (st_req s2) rt (st_world s2)) as [[r req'] w'] eqn:E2.
    assert (E1 : method_do m (st_req s1) rt (st_world s1) = (r, req', w'))
      by (rewrite Hreq, Hw; exact E2).
    rewrite (try_methods_cons _ _ _ _ _ _ _ _ _ _ E1).
    rewrite (try_methods_cons _ _ _ _ _ _ _ _ _ _ E2).
    destruct r as [[resp|] [err|]]; try (left; split; reflexivity).
    repeat case_bool_decide; try (left; split; reflexivity).
    + right. exists m. split; reflexivity.
    + cbn [post].
      exact (IH (i + 1) (after_call s1 req' (Body_Close (resp_Body resp) w'))
               (after_call s2 req' (Body_Close (resp_Body resp) w')) eq_refl eq_refl).
Qed.

(** X7. Hosts do not interfere. A cache entry for another host than the
    one the request carries changes nothing in a call: with or without
    that entry the call gives the same result, makes the same
    invocations and closings, and leaves the same request and world; and
    the entry is still there afterwards, beside whatever the call
    cached. *)
Theorem other_host_entry_is_a_frame rt s h c :
  h ≠ proxyHost_of (st_req s) ->
  let s' := with_cached s h c in
  val (do rt s') = val (do rt s) /\
  emitted (do rt s') = emitted (do rt s) /\
  st_req (post (do rt s')) = st_req (post (do rt s)) /\
  st_world (post (do rt s')) = st_world (post (do rt s)) /\
  cache (st_m (post (do rt s'))) = <[h := c]> (cache (st_m (post (do rt s)))).
Proof.
  intros Hne s'.
  assert (Hhit : cached_method s' = cached_method s).
  { unfold MultiAuth.cached_method. subst s'. cbn [with_cached st_req st_m cache].
    case_bool_decide; [|reflexivity]. apply lookup_insert_ne. exact Hne. }
  destruct (cached_method s) as [c0|] eqn:Hc.
  - destruct (method_do c0 (st_req s) rt (st_world s)) as [[r req'] w'] eqn:E.
    rewrite (do_cached rt s c0 r req' w' Hc E).
    rewrite (do_cached rt s' c0 r req' w' Hhit E).
    repeat split.
  - rewrite (do_uncached _ _ Hc), (do_uncached _ _ Hhit).
    subst s'. cbn [with_cached st_req st_m methods].
    set (n := Z.of_nat (length (methods (st_m s)))).
    set (ph := proxyHost_of (st_req s)) in *.
    set (s' := with_cached s h c).
    destruct (try_methods_ignores_receiver n ph rt (methods (st_m s)) 0 s' s
                eq_refl eq_refl) as (Hv & He & Hr & Hw).
    repeat split; try assumption.
    destruct (try_methods_same_write n ph rt (methods (st_m s)) 0 s' s eq_refl eq_refl)
      as [[H1 H2] | (a & H1 & H2)]; rewrite H1, H2; subst s';
      cbn [with_cached cache st_m methods]; [reflexivity|].
    apply insert_insert_ne. congruence.
Qed.

End multiauth_properties.

(** ** The Negotiate authenticator *)

Section negotiate_properties.

Context {URL RoundTripper Body Name Ctx W : Type}.
Variable Hostname : URL -> string.
Variable gss_import_name : string -> W -> (Z * Z * option Name) * W.
Variable gss_init_sec_context :
  option Name -> W -> (Z * Z * option Ctx * list byte) * W.
Variable gss_release_name : option Name -> W -> Z * W.
Variable gss_delete_sec_context : Ctx -> W -> W.
Variable gss_release_buffer : list byte -> W -> W.
Variable malloc : Z -> W -> bool * W.
Variable RoundTrip : RoundTripper -> Request URL -> W -> Result Body * W.

Import Negotiate.

Local Abbreviation St := (@Negotiate.St URL W).
Local Abbreviation Ev := (@Negotiate.Event URL RoundTripper Name).
Local Abbreviation generateToken :=
  (Negotiate.generateToken (URL := URL) (RoundTripper := RoundTripper)
     gss_import_name gss_init_sec_context
     gss_release_name gss_delete_sec_context gss_release_buffer malloc).
Local Abbreviation generateSPNEGOToken :=
  (Negotiate.generateSPNEGOToken (URL := URL) (RoundTripper := RoundTripper)
     gss_import_name gss_init_sec_context
     gss_release_name gss_delete_sec_context gss_release_buffer malloc).
Local Abbreviation do :=
  (Negotiate.do Hostname gss_import_name gss_init_sec_context
     gss_release_name gss_delete_sec_context gss_release_buffer malloc RoundTrip).

Lemma emits_ret {X} (x : X) : emits (ret (S := St) (E := Ev) x) [].
Proof. intros s. split; reflexivity. Qed.

Lemma emits_emit (e : Ev) : emits (emit (S := St) e) [e].
Proof. intros s. split; reflexivity. Qed.

Lemma emits_world_op {X} (f : W -> X * W) :
  emits (world_op (URL := URL) (RoundTripper := RoundTripper) (Name := Name) f) [].
Proof. intros s. unfold world_op. destruct (f (st_world s)). split; reflexivity. Qed.

Lemma emits_world_do (f : W -> W) :
  emits (world_do (URL := URL) (RoundTripper := RoundTripper) (Name := Name) f) [].
Proof. intros s. split; reflexivity. Qed.

Lemma emits_delete_context (ctx : option Ctx) :
  emits (delete_context (URL := URL) (RoundTripper := RoundTripper) (Name := Name)
           gss_delete_sec_context ctx) [].
Proof. destruct ctx; [apply emits_world_do | apply emits_ret]. Qed.

(** The events of a sequence, where those of the second part may depend
    on the value of the first. *)
Lemma emits_bind_dep {X Y} (c : Eff.M St Ev X) (k : X -> Eff.M St Ev Y) l1 l2 :
  emits c l1 -> (forall x, emits (k x) (l2 x)) ->
  forall s, st_req (post (bind c k s)) = st_req s /\
            emitted (bind c k s) = (l1 ++ l2 (val (c s)))%list.
Proof.
  intros Hc Hk s. unfold bind. cbn [val post emitted].
  destruct (Hc s) as (Hr1 & He1).
  destruct (Hk (val (c s)) (post (c s))) as (Hr2 & He2).
  rewrite Hr2, Hr1, He1, He2. split; reflexivity.
Qed.

Lemma emits_bind {X Y} (c : Eff.M St Ev X) (k : X -> Eff.M St Ev Y) l1 l2 :
  emits c l1 -> (forall x, emits (k x) l2) -> emits (bind c k) (l1 ++ l2).
Proof. intros Hc Hk s. exact (emits_bind_dep c k l1 (fun _ => l2) Hc Hk s). Qed.

(** Splits off the head of a sequence whose parts emit nothing. *)
Local Ltac silent_bind :=
  apply (emits_bind _ _ [] []);
  [first [apply emits_world_op | apply emits_world_do | apply emits_delete_context] | intros ?].

(** The C function imports the name it is given and, when that
    succeeds, initiates a security context for the name imported; it
    leaves the request alone. *)
Lemma generateToken_trace spn (s : St) :
  let imported := (gss_import_name spn (st_world s)).1 in
  st_req (post (generateToken spn s)) = st_req s /\
  emitted (generateToken spn s) =
    EvImportName spn ::
      (if bool_decide (imported.1.1 ≠ GSS_S_COMPLETE) then []
       else [EvInitSecContext imported.2]).
Proof.
  cbn zeta. unfold Negotiate.generateToken.
  rewrite (bind_run _ _ s tt s [EvImportName spn] eq_refl). cbn [post emitted app].
  assert (Hval : val (world_op (URL := URL) (RoundTripper := RoundTripper) (Name := Name)
                        (gss_import_name spn) s)
                 = (gss_import_name spn (st_world s)).1).
  { unfold world_op. destruct (gss_import_name spn (st_world s)). reflexivity. }
  rewrite <- Hval.
  match goal with
  | |- context [bind (world_op ?f) ?k s] =>
      enough (Hk : forall x, emits (k x)
                     (if bool_decide (x.1.1 ≠ GSS_S_COMPLETE) then []
                      else [EvInitSecContext x.2]));
      [ destruct (emits_bind_dep (world_op f) k []
                    (fun x => if bool_decide (x.1.1 ≠ GSS_S_COMPLETE) then []
                              else [EvInitSecContext x.2])
                    (emits_world_op f) Hk s) as [Hr He];
        split; [exact Hr | rewrite He; reflexivity] | ]
  end.
  intros [[major minor] tn]. cbn [fst snd].
  case_bool_decide; [apply emits_ret|].
  apply (emits_bind _ _ [EvInitSecContext tn] []); [apply emits_emit | intros _].
  silent_bind. destruct x as [[[major' minor'] ctx] tok].
  silent_bind.
  destruct (bool_decide (major' ≠ GSS_S_COMPLETE) && bool_decide (major' ≠ GSS_S_CONTINUE_NEEDED)).
  - silent_bind. apply emits_ret.
  - apply (emits_bind _ _ [] []).
    + case_bool_decide; [|apply emits_ret].
      silent_bind. apply emits_ret.
    + intros copy. silent_bind. silent_bind. apply emits_ret.
Qed.

(** When the import fails, its major status is what the C function
    returns. *)
Lemma generateToken_import_failed spn (s : St) :
  let imported := (gss_import_name spn (st_world s)).1 in
  imported.1.1 ≠ GSS_S_COMPLETE ->
  major_status (val (generateToken spn s)) = imported.1.1.
Proof.
  cbn zeta. intros Hfail. unfold Negotiate.generateToken.
  rewrite (bind_run _ _ s tt s [EvImportName spn] eq_refl). cbn [val].
  destruct (gss_import_name spn (st_world s)) as [[[major minor] tn] w1] eqn:E.
  rewrite (bind_run _ _ s (major, minor, tn) (mkSt (st_req s) w1) [])
    by (unfold world_op; rewrite E; reflexivity).
  cbn [val fst snd] in *. rewrite bool_decide_eq_true_2 by exact Hfail. reflexivity.
Qed.

(** A token comes back only after both GSS calls were made, for the
    principal HTTP@host. *)
Lemma generateSPNEGOToken_trace h (s : St) T :
  val (generateSPNEGOToken h s) = TokenReturn (Some T) None ->
  st_req (post (generateSPNEGOToken h s)) = st_req s /\
  emitted (generateSPNEGOToken h s) =
    [EvImportName ("HTTP@" +:+ h);
     EvInitSecContext (gss_import_name ("HTTP@" +:+ h) (st_world s)).1.2].
Proof.
  intros Htok.
  destruct (generateToken_trace ("HTTP@" +:+ h) s) as (Hreq & Hev).
  pose proof (generateToken_import_failed ("HTTP@" +:+ h) s) as Hfail.
  cbn zeta in Hfail.
  unfold Negotiate.generateSPNEGOToken in *.
  destruct (generateToken ("HTTP@" +:+ h) s) as [t s1 evs] eqn:Egen.
  rewrite (bind_run _ _ s t s1 evs Egen) in Htok |- *.
  cbn [val post emitted] in *.
  case_bool_decide as Hmajor.
  { exfalso.
    rewrite bool_decide_eq_true_2 in Htok by (rewrite (Hfail Hmajor); exact Hmajor).
    discriminate. }
  split.
  - repeat case_bool_decide; exact Hreq.
  - subst evs. repeat case_bool_decide; reflexivity.
Qed.

(** The successful path of [do] in one equation. *)
Lemma do_with_token rt (s : St) u T r w2 :
  ctx_proxy (st_req s) = Some u ->
  Hostname u ≠ "" ->
  val (generateSPNEGOToken (Hostname u) s) = TokenReturn (Some T) None ->
  let s1 := post (generateSPNEGOToken (Hostname u) s) in
  let sent :=
    mkRequest (ctx_proxy (st_req s))
      (Header_Set (req_Header (st_req s)) "Proxy-Authorization"
         ("Negotiate " +:+ Base64.EncodeToString T)) in
  RoundTrip rt sent (st_world s1) = (r, w2) ->
  do rt s =
    mkOut (Return r) (mkSt sent w2)
      (emitted (generateSPNEGOToken (Hostname u) s) ++ [EvRoundTrip rt sent]).
Proof.
  intros Hu Hhost Htok s1 sent E. subst s1 sent.
  destruct (generateSPNEGOToken_trace (Hostname u) s T Htok) as (Hreq & _).
  unfold Negotiate.do, Negotiate.proxyHost_of, bind, gets.
  cbn [val post emitted]. rewrite Hu.
  rewrite bool_decide_eq_false_2 by exact Hhost.
  cbn [val post emitted app]. rewrite Htok.
  unfold set_header, round_trip, modify, gets, emit, world_op, ret, bind.
  cbn [val post emitted st_req st_world default from_option id].
  rewrite Hreq.
  change (id T) with T. rewrite E.
  cbn [val post emitted app]. rewrite ?Hu. reflexivity.
Qed.

(** C6. When the request context carries a proxy URL whose host name
    [H] is not empty and token generation succeeds with the token [T],
    the authenticator acquires the token for the service principal
    "HTTP@" followed by [H] and for no other (that name is imported and
    the security context is initiated for the name imported), makes
    exactly one round trip, sends in it the request with the header
    Proxy-Authorization set to "Negotiate " followed by the standard
    base64 encoding of [T], and returns what that round trip returned. *)
Theorem negotiate_sends_spnego_token rt (s : St) u T :
  ctx_proxy (st_req s) = Some u ->
  Hostname u ≠ "" ->
  val (generateSPNEGOToken (Hostname u) s) = TokenReturn (Some T) None ->
  let s1 := post (generateSPNEGOToken (Hostname u) s) in
  let spn := "HTTP@" +:+ Hostname u in
  let sent :=
    mkRequest (ctx_proxy (st_req s))
      (Header_Set (req_Header (st_req s)) "Proxy-Authorization"
         ("Negotiate " +:+ Base64.EncodeToString T)) in
  req_Header sent !! "Proxy-Authorization" =
    Some ["Negotiate " +:+ Base64.EncodeToString T] /\
  emitted (do rt s) =
    [EvImportName spn;
     EvInitSecContext (gss_import_name spn (st_world s)).1.2;
     EvRoundTrip rt sent] /\
  principals (emitted (do rt s)) = [spn] /\
  round_trips (emitted (do rt s)) = [(rt, sent)] /\
  val (do rt s) = Return (RoundTrip rt sent (st_world s1)).1 /\
  post (do rt s) = mkSt sent (RoundTrip rt sent (st_world s1)).2.
Proof.
  intros Hu Hhost Htok s1 spn sent.
  split; [apply lookup_insert_eq|].
  destruct (generateSPNEGOToken_trace (Hostname u) s T Htok) as (_ & Hev).
  destruct (RoundTrip rt sent (st_world s1)) as [r w2] eqn:E.
  rewrite (do_with_token rt s u T r w2 Hu Hhost Htok E).
  cbn [val post emitted fst snd]. rewrite Hev.
  repeat split.
Qed.

(** *** Further properties: the paths that send nothing *)

(** What the C function returns, read off the answers of the GSS
    library and of [malloc]. *)
Lemma generateToken_val spn (s : St) mj1 mn1 tn w1 :
  gss_import_name spn (st_world s) = ((mj1, mn1, tn), w1) ->
  val (generateToken spn s) =
    if bool_decide (mj1 ≠ GSS_S_COMPLETE) then mkTokenOut mj1 None 0 mn1
    else
      let '((mj2, _, _, tok), w2) := gss_init_sec_context tn w1 in
      let '(mn3, w3) := gss_release_name tn w2 in
      if bool_decide (mj2 ≠ GSS_S_COMPLETE) && bool_decide (mj2 ≠ GSS_S_CONTINUE_NEEDED)
      then mkTokenOut mj2 None 0 mn3
      else if bool_decide (Z.of_nat (length tok) > 0) then
             if (malloc (Z.of_nat (length tok)) w3).1
             then mkTokenOut GSS_S_COMPLETE (Some tok) (Z.of_nat (length tok)) 0
             else mkTokenOut GSS_S_COMPLETE None 0 0
           else mkTokenOut GSS_S_COMPLETE None 0 0.
Proof.
  intros E1. unfold Negotiate.generateToken.
  rewrite (bind_run _ _ s tt s [EvImportName spn] eq_refl). cbn [val].
  rewrite (bind_run _ _ s (mj1, mn1, tn) (mkSt (st_req s) w1) [])
    by (unfold world_op; rewrite E1; reflexivity).
  cbn [val]. case_bool_decide as H1; [reflexivity|].
  rewrite (bind_run _ _ _ tt (mkSt (st_req s) w1) [EvInitSecContext tn] eq_refl). cbn [val].
  destruct (gss_init_sec_context tn w1) as [[[[mj2 mn2] ctx] tok] w2] eqn:E2.
  rewrite (bind_run _ _ _ (mj2, mn2, ctx, tok) (mkSt (st_req s) w2) [])
    by (unfold world_op; cbn [st_world st_req]; rewrite E2; reflexivity).
  cbn [val].
  destruct (gss_release_name tn w2) as [mn3 w3] eqn:E3.
  rewrite (bind_run _ _ _ mn3 (mkSt (st_req s) w3) [])
    by (unfold world_op; cbn [st_world st_req]; rewrite E3; reflexivity).
  cbn [val].
  destruct (bool_decide (mj2 ≠ GSS_S_COMPLETE) && bool_decide (mj2 ≠ GSS_S_CONTINUE_NEEDED)).
  - destruct ctx; reflexivity.
  - case_bool_decide as Hlen.
    + destruct (malloc (Z.of_nat (length tok)) w3) as [ok w4] eqn:E4.
      rewrite (bind_run _ _ _ (if ok then (Some tok, Z.of_nat (length tok)) else (None, 0))
                 (mkSt (st_req s) w4) []).
      * cbn [val fst snd]. destruct ok, ctx; reflexivity.
      * rewrite (bind_run _ _ _ ok (mkSt (st_req s) w4) [])
          by (unfold world_op; cbn [st_world st_req]; rewrite E4; reflexivity).
        reflexivity.
    + destruct ctx; reflexivity.
Qed.

(** Token generation leaves the request alone and makes no round trip,
    whether it succeeds or not. *)
Lemma generateSPNEGOToken_quiet h (s : St) :
  st_req (post (generateSPNEGOToken h s)) = st_req s /\
  emitted (generateSPNEGOToken h s) = emitted (generateToken ("HTTP@" +:+ h) s) /\
  round_trips (emitted (generateSPNEGOToken h s)) = [].
Proof.
  destruct (generateToken_trace ("HTTP@" +:+ h) s) as (Hreq & Hev).
  unfold Negotiate.generateSPNEGOToken.
  destruct (generateToken ("HTTP@" +:+ h) s) as [t s1 evs] eqn:Egen.
  rewrite (bind_run _ _ s t s1 evs Egen). cbn [val post emitted] in *.
  assert (Hrt : round_trips evs = []).
  { rewrite Hev. case_bool_decide; reflexivity. }
  repeat case_bool_decide; cbn [post emitted ret]; rewrite ?app_nil_r;
    repeat split; assumption.
Qed.

(** X8. With no proxy URL in the request context, or one whose host
    name is empty, the Negotiate authenticator does nothing at all: no
    GSS call, no round trip, no log line; the request and the world are
    as before, and the result is a nil response with the error "cannot
    determine proxy host for Negotiate auth". *)
Theorem negotiate_without_proxy_host rt (s : St) :
  Negotiate.proxyHost_of Hostname (st_req s) = "" ->
  val (do rt s) =
    Return (None, Some (Errorf "cannot determine proxy host for Negotiate auth")) /\
  emitted (do rt s) = [] /\
  post (do rt s) = s.
Proof.
  intros Hhost. unfold Negotiate.do.
  rewrite (bind_run _ _ s (st_req s) s [] eq_refl). cbn [val post emitted app].
  rewrite Hhost. rewrite bool_decide_eq_true_2 by reflexivity. repeat split.
Qed.

(** X9. When token generation fails, the Negotiate authenticator sends
    nothing: it makes no round trip, leaves the request (its headers
    included) as it was, logs one line naming the proxy host and the
    error, and returns a nil response with the error of the token
    generation. *)
Theorem negotiate_token_failure_sends_nothing rt (s : St) u tok msg :
  ctx_proxy (st_req s) = Some u ->
  Hostname u ≠ "" ->
  val (generateSPNEGOToken (Hostname u) s) = TokenReturn tok (Some (Errorf msg)) ->
  val (do rt s) = Return (None, Some (Errorf msg)) /\
  round_trips (emitted (do rt s)) = [] /\
  emitted (do rt s) =
    (emitted (generateSPNEGOToken (Hostname u) s) ++
     [EvLog ("Error generating SPNEGO token for " +:+ Hostname u +:+ ": " +:+ msg)])%list /\
  st_req (post (do rt s)) = st_req s.
Proof.
  intros Hu Hhost Htok.
  destruct (generateSPNEGOToken_quiet (Hostname u) s) as (Hreq & _ & Hrt).
  unfold Negotiate.do.
  rewrite (bind_run _ _ s (st_req s) s [] eq_refl). cbn [val post emitted app].
  unfold Negotiate.proxyHost_of. rewrite Hu.
  rewrite bool_decide_eq_false_2 by exact Hhost.
  destruct (generateSPNEGOToken (Hostname u) s) as [t s1 evs] eqn:Egen.
  rewrite (bind_run _ _ s t s1 evs Egen). cbn [val post emitted] in *.
  subst t. cbn [val post emitted bind log_Printf emit ret].
  unfold round_trips in *. rewrite omap_app, Hrt.
  repeat split. exact Hreq.
Qed.

(** The Go wrapper turns what the C function returned into a token or
    an error. *)
Lemma generateSPNEGOToken_val h (s : St) :
  let t := val (generateToken ("HTTP@" +:+ h) s) in
  val (generateSPNEGOToken h s) =
    if bool_decide (major_status t ≠ GSS_S_COMPLETE) then
      TokenReturn None (Some (Errorf
        ("gss_init_sec_context failed: major=" +:+ Fmt.d (major_status t)
         +:+ " minor=" +:+ Fmt.d (minorStatus t))))
    else if bool_decide (tokenLen t = 0) then
      TokenReturn None (Some (Errorf "gss_init_sec_context returned empty token"))
    else GoBytes (tokenData t) (C_int (tokenLen t)).
Proof.
  cbn zeta. unfold Negotiate.generateSPNEGOToken.
  destruct (generateToken ("HTTP@" +:+ h) s) as [t s1 evs] eqn:Egen.
  rewrite (bind_run _ _ s t s1 evs Egen). cbn [val].
  repeat case_bool_decide; reflexivity.
Qed.

(** X10. When [gss_import_name] fails for the principal, no security
    context is initiated: the import is the only GSS call, and token
    generation returns the error "gss_init_sec_context failed" with the
    major and minor status of the import. *)
Theorem import_failure_skips_context h (s : St) mj1 mn1 tn w1 :
  gss_import_name ("HTTP@" +:+ h) (st_world s) = ((mj1, mn1, tn), w1) ->
  mj1 ≠ GSS_S_COMPLETE ->
  val (generateSPNEGOToken h s) =
    TokenReturn None (Some (Errorf
      ("gss_init_sec_context failed: major=" +:+ Fmt.d mj1 +:+ " minor=" +:+ Fmt.d mn1))) /\
  emitted (generateSPNEGOToken h s) = [EvImportName ("HTTP@" +:+ h)].
Proof.
  intros E1 Hfail. split.
  - pose proof (generateToken_val _ s mj1 mn1 tn w1 E1) as Ht.
    rewrite bool_decide_eq_true_2 in Ht by exact Hfail.
    rewrite generateSPNEGOToken_val. cbn zeta. rewrite Ht.
    cbn [major_status minorStatus].
    rewrite bool_decide_eq_true_2 by exact Hfail. reflexivity.
  - destruct (generateSPNEGOToken_quiet h s) as (_ & -> & _).
    destruct (generateToken_trace ("HTTP@" +:+ h) s) as (_ & ->).
    rewrite E1. cbn [fst snd]. rewrite bool_decide_eq_true_2 by exact Hfail. reflexivity.
Qed.

(** X11. When [gss_init_sec_context] fails (a major status that is
    neither complete nor continue-needed), token generation returns the
    error "gss_init_sec_context failed" with that major status, and the
    minor status it reports is the one [gss_release_name], called in
    between, left in the shared variable: the minor status of the failed
    call itself is lost. *)
Theorem init_failure_reports_release_minor h (s : St) mj1 mn1 tn w1 mj2 mn2 ctx tok w2 mn3 w3 :
  gss_import_name ("HTTP@" +:+ h) (st_world s) = ((mj1, mn1, tn), w1) ->
  mj1 = GSS_S_COMPLETE ->
  gss_init_sec_context tn w1 = ((mj2, mn2, ctx, tok), w2) ->
  mj2 ≠ GSS_S_COMPLETE -> mj2 ≠ GSS_S_CONTINUE_NEEDED ->
  gss_release_name tn w2 = (mn3, w3) ->
  val (generateSPNEGOToken h s) =
    TokenReturn None (Some (Errorf
      ("gss_init_sec_context failed: major=" +:+ Fmt.d mj2 +:+ " minor=" +:+ Fmt.d mn3))) /\
  emitted (generateSPNEGOToken h s) =
    [EvImportName ("HTTP@" +:+ h); EvInitSecContext tn].
Proof.
  intros E1 H1 E2 H2 H2' E3. split.
  - pose proof (generateToken_val _ s mj1 mn1 tn w1 E1) as Ht.
    rewrite bool_decide_eq_false_2 in Ht by (intros Hne; exact (Hne H1)).
    rewrite E2, E3 in Ht.
    rewrite !bool_decide_eq_true_2 in Ht by assumption. cbn [andb] in Ht.
    rewrite generateSPNEGOToken_val. cbn zeta. rewrite Ht.
    cbn [major_status minorStatus].
    rewrite bool_decide_eq_true_2 by assumption. reflexivity.
  - destruct (generateSPNEGOToken_quiet h s) as (_ & -> & _).
    destruct (generateToken_trace ("HTTP@" +:+ h) s) as (_ & ->).
    rewrite E1. cbn [fst snd].
    rewrite bool_decide_eq_false_2 by (intros Hne; exact (Hne H1)). reflexivity.
Qed.

(** X12. Token generation returns a token with no error exactly when
    the import completed, [gss_init_sec_context] answered complete or
    continue-needed, the output token is not empty and [malloc]
    succeeded; the token returned is then the output token of GSS, whole
    (for a token shorter than 2^31 bytes). *)
Theorem token_returned_iff h (s : St) mj1 mn1 tn w1 mj2 mn2 ctx tok w2 mn3 w3 T :
  gss_import_name ("HTTP@" +:+ h) (st_world s) = ((mj1, mn1, tn), w1) ->
  gss_init_sec_context tn w1 = ((mj2, mn2, ctx, tok), w2) ->
  gss_release_name tn w2 = (mn3, w3) ->
  Z.of_nat (length tok) < 2 ^ 31 ->
  val (generateSPNEGOToken h s) = TokenReturn (Some T) None <->
  (mj1 = GSS_S_COMPLETE /\
   (mj2 = GSS_S_COMPLETE \/ mj2 = GSS_S_CONTINUE_NEEDED) /\
   tok ≠ [] /\
   (malloc (Z.of_nat (length tok)) w3).1 = true /\
   T = tok).
Proof.
  intros E1 E2 E3 Hlen.
  pose proof (generateToken_val _ s mj1 mn1 tn w1 E1) as Ht.
  rewrite generateSPNEGOToken_val. cbn zeta.
  destruct (decide (mj1 = GSS_S_COMPLETE)) as [H1 | H1].
  2: { rewrite bool_decide_eq_true_2 in Ht by exact H1. rewrite Ht.
       cbn [major_status]. rewrite bool_decide_eq_true_2 by exact H1.
       split; [discriminate | intros (H & _); contradiction]. }
  rewrite bool_decide_eq_false_2 in Ht by (intros Hne; exact (Hne H1)).
  rewrite E2, E3 in Ht.
  destruct (decide (mj2 = GSS_S_COMPLETE \/ mj2 = GSS_S_CONTINUE_NEEDED)) as [H2 | H2].
  2: { assert (Ha : mj2 ≠ GSS_S_COMPLETE) by tauto.
       assert (Hb : mj2 ≠ GSS_S_CONTINUE_NEEDED) by tauto.
       rewrite !bool_decide_eq_true_2 in Ht by assumption. cbn [andb] in Ht.
       rewrite Ht. cbn [major_status]. rewrite bool_decide_eq_true_2 by assumption.
       split; [discriminate | intros (_ & H & _); contradiction]. }
  assert (Hok : bool_decide (mj2 ≠ GSS_S_COMPLETE) &&
                bool_decide (mj2 ≠ GSS_S_CONTINUE_NEEDED) = false)
    by (destruct H2; subst mj2; reflexivity).
  rewrite Hok in Ht. clear Hok.
  destruct (decide (Z.of_nat (length tok) > 0)) as [Hpos | Hpos].
  2: { rewrite bool_decide_eq_false_2 in Ht by exact Hpos. rewrite Ht. cbn.
       split; [discriminate|].
       intros (_ & _ & Hne & _). destruct tok; [congruence | cbn [length] in Hpos; lia]. }
  rewrite bool_decide_eq_true_2 in Ht by exact Hpos.
  destruct (malloc (Z.of_nat (length tok)) w3) as [[|] w4]; cbn [fst] in Ht |- *;
    rewrite Ht; cbn [major_status tokenLen tokenData].
  2: { cbn. split; [discriminate | intros (_ & _ & _ & Hm & _); discriminate]. }
  rewrite bool_decide_eq_false_2 by (intros Hne; exact (Hne eq_refl)).
  rewrite bool_decide_eq_false_2 by lia.
  rewrite C_int_small by lia.
  unfold GoBytes. rewrite bool_decide_eq_false_2 by lia.
  rewrite Nat2Z.id, take_ge by lia.
  split.
  - intros HT. injection HT as <-. repeat split; try assumption.
    intros ->. cbn [length] in Hpos. lia.
  - intros (_ & _ & _ & _ & ->). reflexivity.
Qed.

(** X13. When GSS yields no token (an empty output token) or [malloc]
    fails, token generation returns the error "gss_init_sec_context
    returned empty token", although every GSS call succeeded. *)
Theorem no_token_is_an_error h (s : St) mj1 mn1 tn w1 mj2 mn2 ctx tok w2 mn3 w3 :
  gss_import_name ("HTTP@" +:+ h) (st_world s) = ((mj1, mn1, tn), w1) ->
  mj1 = GSS_S_COMPLETE ->
  gss_init_sec_context tn w1 = ((mj2, mn2, ctx, tok), w2) ->
  mj2 = GSS_S_COMPLETE \/ mj2 = GSS_S_CONTINUE_NEEDED ->
  gss_release_name tn w2 = (mn3, w3) ->
  tok = [] \/ (malloc (Z.of_nat (length tok)) w3).1 = false ->
  val (generateSPNEGOToken h s) =
    TokenReturn None (Some (Errorf "gss_init_sec_context returned empty token")).
Proof.
  intros E1 H1 E2 H2 E3 Hnone.
  pose proof (generateToken_val _ s mj1 mn1 tn w1 E1) as Ht.
  rewrite bool_decide_eq_false_2 in Ht by (intros Hne; exact (Hne H1)).
  rewrite E2, E3 in Ht.
  assert (Hok : bool_decide (mj2 ≠ GSS_S_COMPLETE) &&
                bool_decide (mj2 ≠ GSS_S_CONTINUE_NEEDED) = false)
    by (destruct H2; subst mj2; reflexivity).
  rewrite Hok in Ht.
  assert (Ht' : val (generateToken ("HTTP@" +:+ h) s) = mkTokenOut GSS_S_COMPLETE None 0 0).
  { rewrite Ht. destruct (decide (Z.of_nat (length tok) > 0)) as [Hpos | Hpos].
    - rewrite bool_decide_eq_true_2 by exact Hpos.
      destruct Hnone as [-> | Hm]; [cbn [length] in Hpos; lia|].
      rewrite Hm. reflexivity.
    - rewrite bool_decide_eq_false_2 by exact Hpos. reflexivity. }
  rewrite generateSPNEGOToken_val. cbn zeta. rewrite Ht'. reflexivity.
Qed.

End negotiate_properties.

(** ** Looking for a ticket *)

Section ticket_properties.

Context {Cred W : Type}.
Variable gss_acquire_cred : W -> (Z * Z * option Cred * Z) * W.
Variable gss_release_cred : Cred -> W -> W.
Variable Now : W -> Z.
Variable Sleep : Z -> W -> W.

Import Ticket.

Local Abbreviation Ev := (@Ticket.Event Cred).
Local Abbreviation checkKerberosTicket :=
  (Ticket.checkKerberosTicket gss_acquire_cred gss_release_cred).
Local Abbreviation wait_loop :=
  (Ticket.wait_loop gss_acquire_cred gss_release_cred Now Sleep).
Local Abbreviation waitForKerberosTicket :=
  (Ticket.waitForKerberosTicket gss_acquire_cred gss_release_cred Now Sleep).
Local Abbreviation newNegotiateAuthenticator :=
  (Ticket.newNegotiateAuthenticator gss_acquire_cred gss_release_cred Now Sleep).
Local Abbreviation clock_advances :=
  (Ticket.clock_advances gss_acquire_cred gss_release_cred Now Sleep).

(** One check, in one equation. *)
Lemma check_run (w : W) major minor cred lifetime w1 :
  gss_acquire_cred w = ((major, minor, cred, lifetime), w1) ->
  let found := bool_decide (major = Negotiate.GSS_S_COMPLETE) && bool_decide (lifetime > 0) in
  checkKerberosTicket w =
    mkOut found
      (match cred with Some c => gss_release_cred c w1 | None => w1 end)
      (EvAcquireCred :: match cred with Some c => [EvReleaseCred c] | None => [] end
       ++ [EvCheck found]).
Proof.
  intros E. cbn zeta.
  unfold Ticket.checkKerberosTicket, Ticket.hasCredential, bind, emit, Ticket.world_op,
    modify, ret.
  cbn [val post emitted]. rewrite E. cbn [val post emitted].
  destruct cred as [c|];
    destruct (bool_decide (major = Negotiate.GSS_S_COMPLETE) && bool_decide (lifetime > 0));
    reflexivity.
Qed.

(** X14. A check finds a ticket exactly when [gss_acquire_cred]
    completes with a lifetime above zero. Whatever the status, the
    credential handed out, if any, is released, once, and nothing else
    is released: a check keeps no credential. *)
Theorem check_releases_what_it_acquired (w : W) major minor cred lifetime w1 :
  gss_acquire_cred w = ((major, minor, cred, lifetime), w1) ->
  (val (checkKerberosTicket w) = true <->
     major = Negotiate.GSS_S_COMPLETE /\ lifetime > 0) /\
  releases (emitted (checkKerberosTicket w)) =
    match cred with Some c => [c] | None => [] end /\
  checks (emitted (checkKerberosTicket w)) = [val (checkKerberosTicket w)] /\
  post (checkKerberosTicket w) =
    match cred with Some c => gss_release_cred c w1 | None => w1 end.
Proof.
  intros E. rewrite (check_run w major minor cred lifetime w1 E). cbn [val post emitted].
  split; [|destruct cred; repeat split].
  rewrite andb_true_iff, !bool_decide_eq_true. reflexivity.
Qed.

(** One check leaves exactly its outcome among the checks and sleeps
    not at all. *)
Lemma check_trace (w : W) :
  checks (emitted (checkKerberosTicket w)) = [val (checkKerberosTicket w)] /\
  sleeps (emitted (checkKerberosTicket w)) = [].
Proof.
  destruct (gss_acquire_cred w) as [[[[major minor] cred] lifetime] w1] eqn:E.
  rewrite (check_run w major minor cred lifetime w1 E). cbn [val emitted].
  destruct cred; split; reflexivity.
Qed.

Lemma check_turns (w : W) :
  turns (emitted (checkKerberosTicket w)) = [inr (val (checkKerberosTicket w))].
Proof.
  destruct (gss_acquire_cred w) as [[[[major minor] cred] lifetime] w1] eqn:E.
  rewrite (check_run w major minor cred lifetime w1 E). cbn [val emitted].
  destruct cred; reflexivity.
Qed.

Lemma check_clock (w : W) :
  clock_advances -> Now w <= Now (post (checkKerberosTicket w)).
Proof.
  intros (_ & Hacq & Hrel).
  destruct (gss_acquire_cred w) as [[[[major minor] cred] lifetime] w1] eqn:E.
  rewrite (check_run w major minor cred lifetime w1 E). cbn [post].
  specialize (Hacq w). rewrite E in Hacq. cbn [snd] in Hacq.
  destruct cred as [c|]; [specialize (Hrel c w1); lia | exact Hacq].
Qed.

(** One turn of the waiting loop. *)
Lemma wait_loop_turn fuel deadline (w : W) :
  wait_loop (S fuel) deadline w =
    if bool_decide (Now w < deadline) then
      let c := checkKerberosTicket (Sleep (2 * Second) w) in
      if val c then mkOut (Some true) (post c) (EvSleep (2 * Second) :: emitted c)
      else
        let o := wait_loop fuel deadline (post c) in
        mkOut (val o) (post o) (EvSleep (2 * Second) :: emitted c ++ emitted o)
    else mkOut (Some false) w [].
Proof.
  cbn [Ticket.wait_loop].
  rewrite (bind_run _ _ w (Now w) w [] eq_refl). cbn [val post emitted app].
  case_bool_decide; [|reflexivity].
  rewrite (bind_run _ _ w tt w [EvSleep (2 * Second)] eq_refl).
  rewrite (bind_run _ _ w tt (Sleep (2 * Second) w) [] eq_refl).
  cbn [val post emitted app].
  destruct (checkKerberosTicket (Sleep (2 * Second) w)) as [found w' evs] eqn:Ec.
  rewrite (bind_run _ _ _ found w' evs Ec). cbn [val post emitted].
  destruct found; cbn [val post emitted ret]; rewrite ?app_nil_r; reflexivity.
Qed.

(** Every check of the loop comes after a sleep of two seconds, and the
    loop stops at the first check that finds a ticket. *)
Lemma wait_loop_shape fuel deadline : forall w : W,
  let o := wait_loop fuel deadline w in
  exists k,
    checks (emitted o) =
      (replicate k false ++ (if val o is Some true then [true] else []))%list /\
    sleeps (emitted o) = replicate (length (checks (emitted o))) (2 * Second).
Proof.
  assert (Hchk : forall l1 l2 : list Ev,
            checks (EvSleep (2 * Second) :: l1 ++ l2) = (checks l1 ++ checks l2)%list)
    by (intros; unfold checks; cbn [omap list_omap]; apply omap_app).
  assert (Hslp : forall l1 l2 : list Ev,
            sleeps (EvSleep (2 * Second) :: l1 ++ l2)
            = (2 * Second :: sleeps l1 ++ sleeps l2)%list)
    by (intros; unfold sleeps; cbn [omap list_omap]; f_equal; apply omap_app).
  induction fuel as [|fuel IH]; intros w; cbn zeta.
  - exists 0%nat. split; reflexivity.
  - rewrite wait_loop_turn. case_bool_decide; [|exists 0%nat; split; reflexivity].
    cbn zeta. destruct (check_trace (Sleep (2 * Second) w)) as [Hc Hs].
    destruct (val (checkKerberosTicket (Sleep (2 * Second) w))) eqn:Hfound;
      cbn [val post emitted].
    + exists 0%nat.
      rewrite <- (app_nil_r (emitted (checkKerberosTicket (Sleep (2 * Second) w)))).
      rewrite Hchk, Hslp, Hc, Hs. split; reflexivity.
    + destruct (IH (post (checkKerberosTicket (Sleep (2 * Second) w)))) as (k & Hk & Hsl).
      exists (S k). rewrite Hchk, Hslp, Hc, Hs, Hsl. split; [rewrite Hk|]; reflexivity.
Qed.

(** In the loop every check comes right after a sleep of two seconds. *)
Lemma wait_loop_turns fuel deadline : forall w : W,
  let o := wait_loop fuel deadline w in
  turns (emitted o) = sleep_then_check (checks (emitted o)).
Proof.
  assert (Hchk : forall l1 l2 : list Ev,
            checks (EvSleep (2 * Second) :: l1 ++ l2) = (checks l1 ++ checks l2)%list)
    by (intros; unfold checks; cbn [omap list_omap]; apply omap_app).
  assert (Htrn : forall l1 l2 : list Ev,
            turns (EvSleep (2 * Second) :: l1 ++ l2)
            = (inl (2 * Second) :: turns l1 ++ turns l2)%list)
    by (intros; unfold turns; cbn [omap list_omap]; f_equal; apply omap_app).
  induction fuel as [|fuel IH]; intros w; cbn zeta.
  - reflexivity.
  - rewrite wait_loop_turn. case_bool_decide; [|reflexivity].
    cbn zeta. destruct (check_trace (Sleep (2 * Second) w)) as [Hc _].
    pose proof (check_turns (Sleep (2 * Second) w)) as Ht.
    destruct (val (checkKerberosTicket (Sleep (2 * Second) w))) eqn:Hfound;
      cbn [val post emitted].
    + rewrite <- (app_nil_r (emitted (checkKerberosTicket (Sleep (2 * Second) w)))).
      rewrite Hchk, Htrn, Hc, Ht. reflexivity.
    + rewrite Hchk, Htrn, Hc, Ht, IH. reflexivity.
Qed.

(** With a clock that advances, the loop ends within as many turns as
    there are two-second spans up to the deadline. *)
Lemma wait_loop_ends deadline : forall (N fuel : nat) (w : W),
  clock_advances ->
  deadline - Now w <= 2 * Second * Z.of_nat N ->
  (N < fuel)%nat ->
  let o := wait_loop fuel deadline w in
  exists b, val o = Some b /\
            (length (checks (emitted o)) <= N)%nat /\
            (b = false -> deadline <= Now (post o)).
Proof.
  assert (Hchk : forall l1 l2 : list Ev,
            checks (EvSleep (2 * Second) :: l1 ++ l2) = (checks l1 ++ checks l2)%list)
    by (intros; unfold checks; cbn [omap list_omap]; apply omap_app).
  induction N as [|N IH]; intros fuel w Hclock Hd Hfuel; cbn zeta;
    (destruct fuel as [|fuel]; [lia|]); rewrite wait_loop_turn.
  - rewrite bool_decide_eq_false_2 by (unfold Second in *; lia).
    exists false. cbn [val post emitted]. repeat split; [cbn; lia | intros _].
    unfold Second in *. lia.
  - case_bool_decide as Hnow.
    2: { exists false. cbn [val post emitted]. repeat split; [cbn; lia | intros _; lia]. }
    cbn zeta. destruct (check_trace (Sleep (2 * Second) w)) as [Hc _].
    pose proof (check_clock (Sleep (2 * Second) w) Hclock) as Hck.
    pose proof Hclock as (Hsleep & _). specialize (Hsleep (2 * Second) w).
    destruct (val (checkKerberosTicket (Sleep (2 * Second) w))) eqn:Hfound;
      cbn [val post emitted].
    + exists true.
      rewrite <- (app_nil_r (emitted (checkKerberosTicket (Sleep (2 * Second) w)))).
      rewrite Hchk, Hc. repeat split; [cbn; lia | discriminate].
    + destruct (IH fuel (post (checkKerberosTicket (Sleep (2 * Second) w))))
        as (b & Hb & Hlen & Hdead); [exact Hclock | unfold Second in *; lia | lia |].
      exists b. rewrite Hchk, Hc, length_app. cbn [length].
      repeat split; [exact Hb | lia | exact Hdead].
Qed.

(** X15. When the first check finds a ticket, [newNegotiateAuthenticator]
    returns an authenticator at once, whatever the waiting time asked
    for; when it finds none and the waiting time is zero or negative,
    it returns nil at once. In both cases exactly one check is made and
    there is no sleep. *)
Theorem no_waiting_cases fuel waitSeconds (w : W) :
  let o := newNegotiateAuthenticator fuel waitSeconds w in
  (val (checkKerberosTicket w) = true ->
     val o = Some (Some mkNegotiateAuthenticator) /\
     checks (emitted o) = [true] /\ sleeps (emitted o) = []) /\
  (val (checkKerberosTicket w) = false -> waitSeconds <= 0 ->
     val o = Some None /\
     checks (emitted o) = [false] /\ sleeps (emitted o) = [] /\
     post o = post (checkKerberosTicket w)).
Proof.
  cbn zeta. unfold Ticket.newNegotiateAuthenticator.
  destruct (check_trace w) as [Hc Hs].
  destruct (checkKerberosTicket w) as [found w' evs] eqn:Ec.
  rewrite (bind_run _ _ w found w' evs Ec). cbn [val post emitted] in *.
  split.
  - intros ->. cbn [val post emitted bind Ticket.log_Println emit ret].
    unfold checks, sleeps in *. rewrite !omap_app, Hc, Hs. repeat split.
  - intros -> Hwait. rewrite bool_decide_eq_true_2 by exact Hwait.
    cbn [val post emitted ret]. rewrite app_nil_r. repeat split; assumption.
Qed.

(** X16. The waiting loop sleeps two seconds right before each check
    and makes nothing but such pairs; it stops at the first check that
    finds a ticket, with [true]. With a clock that advances it always ends:
    when the deadline is at most [N] spans of two seconds away it makes
    at most [N] checks, and when it gives up, with [false], the deadline
    has passed. *)
Theorem waiting_loop_is_bounded deadline (N fuel : nat) (w : W) :
  clock_advances ->
  deadline - Now w <= 2 * Second * Z.of_nat N ->
  (N < fuel)%nat ->
  let o := wait_loop fuel deadline w in
  exists b k,
    val o = Some b /\
    checks (emitted o) = (replicate k false ++ (if b then [true] else []))%list /\
    turns (emitted o) = sleep_then_check (checks (emitted o)) /\
    sleeps (emitted o) = replicate (length (checks (emitted o))) (2 * Second) /\
    (length (checks (emitted o)) <= N)%nat /\
    (b = false -> deadline <= Now (post o)).
Proof.
  intros Hclock Hd Hfuel. cbn zeta.
  destruct (wait_loop_ends deadline N fuel w Hclock Hd Hfuel) as (b & Hb & Hlen & Hdead).
  destruct (wait_loop_shape fuel deadline w) as (k & Hk & Hsl).
  pose proof (wait_loop_turns fuel deadline w) as Ht.
  exists b, k. rewrite Hb in Hk. repeat split; assumption.
Qed.

(** X17. When the first check finds no ticket and a waiting time of
    [t] > 0 seconds is given, [newNegotiateAuthenticator] (with a clock
    that advances) always comes to an answer: it sleeps two seconds
    before each further check, makes at most [(t + 1) / 2] of them, and
    returns an authenticator exactly when the last of them found a
    ticket, all the checks before having found none. *)
Theorem waiting_for_a_ticket fuel t (w : W) :
  clock_advances ->
  0 < t -> t * Second < 2 ^ 63 ->
  (Z.to_nat ((t + 1) / 2) < fuel)%nat ->
  val (checkKerberosTicket w) = false ->
  let o := newNegotiateAuthenticator fuel t w in
  exists r k,
    val o = Some r /\
    checks (emitted o) =
      (false :: replicate k false ++ (if r is Some _ then [true] else []))%list /\
    turns (emitted o) = inr false :: sleep_then_check (tail (checks (emitted o))) /\
    sleeps (emitted o) = replicate (pred (length (checks (emitted o)))) (2 * Second) /\
    (length (sleeps (emitted o)) <= Z.to_nat ((t + 1) / 2))%nat.
Proof.
  intros Hclock Ht Hbig Hfuel Hnone. cbn zeta.
  unfold Ticket.newNegotiateAuthenticator.
  destruct (check_trace w) as [Hc Hs].
  pose proof (check_turns w) as Ht1.
  destruct (checkKerberosTicket w) as [found w1 evs1] eqn:Ec.
  cbn [val emitted] in Ht1.
  cbn [val] in Hnone, Hc. subst found. cbn [emitted] in Hc, Hs.
  rewrite (bind_run _ _ w false w1 evs1 Ec). cbn [val post emitted].
  rewrite bool_decide_eq_false_2 by lia.
  rewrite (bind_run _ _ w1 tt w1 [EvLog ("No Kerberos ticket found, waiting up to "
                                          +:+ Fmt.d t +:+ " seconds...")] eq_refl).
  cbn [val post emitted].
  assert (Hwrap : int64 (t * Second) = t * Second).
  { unfold int64. unfold Second in *. rewrite Z.mod_small by lia.
    destruct (Z.ltb_spec (t * 1000000000) (2 ^ 63)); [reflexivity | lia]. }
  assert (Hwait : waitForKerberosTicket fuel t w1
                  = wait_loop fuel (Now w1 + t * Second) w1).
  { unfold Ticket.waitForKerberosTicket.
    rewrite (bind_run (gets Now) _ w1 (Now w1) w1 [] eq_refl).
    cbn [val post emitted app]. rewrite Hwrap.
    destruct (wait_loop fuel (Now w1 + t * Second) w1); reflexivity. }
  assert (Hspan : Now w1 + t * Second - Now w1
                  <= 2 * Second * Z.of_nat (Z.to_nat ((t + 1) / 2))).
  { rewrite Z2Nat.id by (apply Z.div_pos; lia).
    pose proof (Z.div_mod (t + 1) 2 ltac:(lia)) as Hdm.
    pose proof (Z.mod_pos_bound (t + 1) 2 ltac:(lia)) as Hmb.
    unfold Second. lia. }
  destruct (wait_loop_ends (Now w1 + t * Second) _ fuel w1 Hclock Hspan Hfuel)
    as (b & Hb & Hlen & _).
  destruct (wait_loop_shape fuel (Now w1 + t * Second) w1) as (k & Hk & Hsl).
  pose proof (wait_loop_turns fuel (Now w1 + t * Second) w1) as Htw.
  destruct (wait_loop fuel (Now w1 + t * Second) w1) as [v w2 evs2] eqn:Ew.
  rewrite (bind_run _ _ w1 v w2 evs2 Hwait).
  cbn [val post emitted] in *. subst v.
  assert (Happ : forall (l : list Ev) msg,
            checks (evs1 ++ EvLog msg :: evs2 ++ l) = (false :: checks evs2 ++ checks l)%list /\
            sleeps (evs1 ++ EvLog msg :: evs2 ++ l) = (sleeps evs2 ++ sleeps l)%list /\
            turns (evs1 ++ EvLog msg :: evs2 ++ l) = (inr false :: turns evs2 ++ turns l)%list).
  { intros l msg. unfold checks, sleeps, turns in *.
    rewrite !omap_app. cbn [omap list_omap]. rewrite !omap_app, Hc, Hs, Ht1.
    repeat split; reflexivity. }
  destruct b; cbn [val post emitted bind Ticket.log_Println emit ret app].
  - exists (Some mkNegotiateAuthenticator), k.
    destruct (Happ [EvLog "Kerberos ticket found"]
                ("No Kerberos ticket found, waiting up to " +:+ Fmt.d t +:+ " seconds..."))
      as (-> & -> & ->).
    change (checks [EvLog "Kerberos ticket found"]) with (@nil bool).
    change (sleeps (Cred := Cred) [EvLog "Kerberos ticket found"]) with (@nil Z).
    change (turns (Cred := Cred) [EvLog "Kerberos ticket found"]) with (@nil (Z + bool)).
    rewrite !app_nil_r.
    split; [reflexivity|]. split; [rewrite Hk, ?app_nil_r; reflexivity|].
    split; [rewrite Htw; reflexivity|]. split.
    + rewrite Hsl. reflexivity.
    + rewrite Hsl, length_replicate. exact Hlen.
  - exists None, k.
    destruct (Happ [EvLog "No Kerberos ticket found after waiting"]
                ("No Kerberos ticket found, waiting up to " +:+ Fmt.d t +:+ " seconds..."))
      as (-> & -> & ->).
    change (checks [EvLog "No Kerberos ticket found after waiting"]) with (@nil bool).
    change (sleeps (Cred := Cred) [EvLog "No Kerberos ticket found after waiting"])
      with (@nil Z).
    change (turns (Cred := Cred) [EvLog "No Kerberos ticket found after waiting"])
      with (@nil (Z + bool)).
    rewrite !app_nil_r.
    split; [reflexivity|]. split; [rewrite Hk, ?app_nil_r; reflexivity|].
    split; [rewrite Htw; reflexivity|]. split.
    + rewrite Hsl. reflexivity.
    + rewrite Hsl, length_replicate. exact Hlen.
Qed.

End ticket_properties.

(** ** Start-up *)

Section main_properties.

Context {negotiateAuthenticator basicAuthenticator authenticator : Type}.
Context {credentialSource W : Type}.
Variable BuildVersion : string.
Variable Getenv : string -> W -> string.
Variable newBasicAuthenticator : string -> option basicAuthenticator.
Variable fromTerminal_forUser : string -> string -> W -> option credentialSource * W.
Variable fromEnvVar : string -> W -> option credentialSource * W.
Variable fromKeyring : W -> option credentialSource * W.
Variable getCredentials :
  credentialSource -> W -> (option authenticator * option error) * W.
Variable newNegotiateAuthenticator : Z -> W -> option negotiateAuthenticator * W.
Variable format_q : authenticator -> string.

Import Main.

Local Abbreviation Flags := Main.Flags.
Local Abbreviation build_methods :=
  (Main.build_methods (basicAuthenticator := basicAuthenticator)
     (authenticator := authenticator) newNegotiateAuthenticator).
Local Abbreviation ntlm_credentials :=
  (Main.ntlm_credentials Getenv fromTerminal_forUser fromEnvVar fromKeyring getCredentials).
Local Abbreviation main :=
  (Main.main BuildVersion Getenv newBasicAuthenticator fromTerminal_forUser fromEnvVar
     fromKeyring getCredentials newNegotiateAuthenticator format_q).

(** C5. Whatever is configured, the chain built at start-up holds the
    kinds of method that are available (Negotiate when asked for with
    -k and a ticket was found, Basic when its credentials were given,
    NTLM when its credentials were obtained) in the order Negotiate,
    Basic, NTLM: each available kind occurs exactly once, the others
    not at all, and a kind that stands earlier in the chain stands
    earlier in that order. *)
Theorem chain_in_design_order (f : Flags) (basicAuth : option basicAuthenticator)
    (a : option authenticator) (w : W) :
  let neg := if kerberos f then (newNegotiateAuthenticator (kerberosWait f) w).1 else None in
  let available (k : Kind) : bool :=
    match k with
    | KNegotiate => if neg is Some _ then true else false
    | KBasic => if basicAuth is Some _ then true else false
    | KNTLM => if a is Some _ then true else false
    end in
  let kinds := kind_of <$> val (build_methods f basicAuth a w) in
  kinds = List.filter available design_order /\
  (forall k, count_occ Kind_eq_dec kinds k = if available k then 1%nat else 0%nat) /\
  (forall i j ki kj,
     kinds !! i = Some ki -> kinds !! j = Some kj -> (i < j)%nat ->
     (rank ki < rank kj)%nat).
Proof.
  cbn zeta. unfold Main.build_methods, bind, world_op, log_Println, emit, ret.
  destruct (kerberos f); cbn [val post emitted].
  1: destruct (newNegotiateAuthenticator (kerberosWait f) w) as [[n|] w'];
     cbn [val post emitted fst].
  all: destruct basicAuth as [b|], a as [c|]; cbn.
  all: (split; [reflexivity|split]).
  all: try (intros [ | | ]; reflexivity).
  all: intros i j ki kj Hi Hj Hlt.
  all: destruct i as [|[|[|i]]]; try discriminate Hi.
  all: destruct j as [|[|[|j]]]; try discriminate Hj; try lia.
  all: cbn in Hi, Hj; simplify_eq; cbn; lia.
Qed.

(** Looking for credentials writes nothing to standard output. *)
Lemma ntlm_credentials_silent (f : Flags) (w : W) :
  stdout (emitted (ntlm_credentials f w)) = [].
Proof.
  assert (Hget : forall (src : option credentialSource) (w1 : W) pre,
            stdout pre = [] ->
            stdout (pre ++ emitted
              (match src with
               | Some src =>
                   bind (world_op (getCredentials src))
                     (fun r => match r.2 with
                               | Some (Errorf msg) =>
                                   bind (log_Println
                                           ("Credentials not found, disabling proxy auth: "
                                            +:+ msg))
                                     (fun _ => ret r.1)
                               | None => ret r.1
                               end)
               | None => ret None
               end w1)) = []).
  { intros [src|] w1 pre Hpre; unfold stdout in *; rewrite omap_app, Hpre;
      [|reflexivity].
    unfold bind, world_op, log_Println, emit, ret.
    destruct (getCredentials src w1) as [[c [[msg]|]] w2]; reflexivity. }
  unfold Main.ntlm_credentials, Main.credential_source. unfold bind at 1.
  cbn [val post emitted]. apply Hget.
  case_bool_decide.
  - unfold world_op. destruct (fromTerminal_forUser _ _ w); reflexivity.
  - unfold bind, gets, world_op. cbn [val post emitted].
    case_bool_decide.
    + destruct (fromEnvVar _ w); reflexivity.
    + destruct (fromKeyring w); reflexivity.
Qed.

(** Nothing before the test of -H touches the world: the credentials
    are looked up in the world the program was started in. *)
Lemma main_print_hash (f : Flags) (w : W) :
  version f = false ->
  printHash f = true ->
  let a := val (ntlm_credentials f w) in
  val (main f w) = Exit (if a is Some _ then 0 else 1) /\
  stdout (emitted (main f w)) =
    match a with
    | None => ["Please specify a domain (using -d) and username (using -u)" +:+ LF]
    | Some c =>
        ["# Add this to your ~/.profile (or equivalent) and restart your shell" +:+ LF;
         "NTLM_CREDENTIALS=" +:+ format_q c +:+ "; export NTLM_CREDENTIALS" +:+ LF]
    end.
Proof.
  intros Hv HH. cbn zeta. pose proof (ntlm_credentials_silent f w) as Hcred.
  unfold Main.main.
  rewrite (bind_run _ _ w tt w (if quiet f then [EvLogDiscard] else []))
    by (destruct (quiet f); reflexivity).
  cbn [val post emitted]. rewrite Hv.
  rewrite (bind_run _ _ w
             (if bool_decide (basicCreds f ≠ "")
              then newBasicAuthenticator (basicCreds f) else None) w
             (if bool_decide (basicCreds f ≠ "")
              then [EvLog "Basic proxy authentication configured"] else []))
    by (case_bool_decide; reflexivity).
  cbn [val post emitted].
  destruct (ntlm_credentials f w) as [a w' evs] eqn:E.
  rewrite (bind_run _ _ w a w' evs E). cbn [val post emitted] in *. rewrite HH.
  unfold stdout in *. rewrite !omap_app, Hcred.
  destruct (quiet f); case_bool_decide; destruct a as [c|]; split; reflexivity.
Qed.

(** C8, as the code has it. Started with -H and without -version, the
    program exits with code 1 when no NTLM credentials could be
    obtained, after asking for a domain and a user name, and when
    credentials were obtained it prints them and exits with code 0.
    (With -version the program prints its version and exits with code
    0 before it looks at -H.) *)
Theorem print_hash_exit_code (f : Flags) (w : W) :
  printHash f = true ->
  version f = false ->
  (val (ntlm_credentials f w) = None ->
     val (main f w) = Exit 1 /\
     stdout (emitted (main f w)) =
       ["Please specify a domain (using -d) and username (using -u)" +:+ LF]) /\
  (forall c, val (ntlm_credentials f w) = Some c ->
     val (main f w) = Exit 0 /\
     stdout (emitted (main f w)) =
       ["# Add this to your ~/.profile (or equivalent) and restart your shell" +:+ LF;
        "NTLM_CREDENTIALS=" +:+ format_q c +:+ "; export NTLM_CREDENTIALS" +:+ LF]).
Proof.
  intros HH Hv. destruct (main_print_hash f w Hv HH) as [Hval Hout].
  split; [intros Ha | intros c Ha]; rewrite Ha in Hval, Hout; split; assumption.
Qed.

(** *** Further properties of the start-up *)

(** The chain that [build_methods] hands back. *)
Lemma build_methods_val (f : Flags) (basicAuth : option basicAuthenticator)
    (a : option authenticator) (w : W) :
  val (build_methods f basicAuth a w) =
    (match (if kerberos f then (newNegotiateAuthenticator (kerberosWait f) w).1 else None) with
     | Some n => [Negotiate n]
     | None => []
     end ++
     match basicAuth with Some b => [Basic b] | None => [] end ++
     match a with Some c => [NTLM c] | None => [] end)%list.
Proof.
  unfold Main.build_methods, bind, world_op, log_Println, emit, ret.
  destruct (kerberos f); cbn [val post emitted].
  1: destruct (newNegotiateAuthenticator (kerberosWait f) w) as [[n|] w'];
     cbn [val post emitted fst].
  all: destruct basicAuth as [b|], a as [c|]; reflexivity.
Qed.

(** The basic authenticator that [main] holds after it has looked at
    -b. *)
Local Abbreviation basic_of f :=
  (if bool_decide (basicCreds f ≠ "") then newBasicAuthenticator (basicCreds f) else None).

(** Without -version and -H the start-up goes on to serve. *)
Lemma main_serve (f : Flags) (w : W) :
  version f = false ->
  printHash f = false ->
  let c := ntlm_credentials f w in
  val (main f w) =
    Serve (if bool_decide (length (hosts f) = 0%nat) then (hosts f ++ ["localhost"])%list
           else hosts f)
      (MultiAuth.newMultiAuthenticator
         (Some <$> val (build_methods f (basic_of f) (val c) (post c)))).
Proof.
  intros Hv HH. cbn zeta. unfold Main.main.
  rewrite (bind_run _ _ w tt w (if quiet f then [EvLogDiscard] else []))
    by (destruct (quiet f); reflexivity).
  cbn [val post emitted]. rewrite Hv.
  rewrite (bind_run _ _ w (basic_of f) w
             (if bool_decide (basicCreds f ≠ "")
              then [EvLog "Basic proxy authentication configured"] else []))
    by (case_bool_decide; reflexivity).
  cbn [val post emitted].
  destruct (ntlm_credentials f w) as [a w' evs] eqn:E.
  rewrite (bind_run _ _ w a w' evs E). cbn [val post emitted]. rewrite HH.
  destruct (build_methods f (basic_of f) a w') as [ms w'' evs'] eqn:Eb.
  rewrite (bind_run _ _ w' ms w'' evs' Eb). reflexivity.
Qed.

(** With -version the start-up ends at once. *)
Lemma main_version (f : Flags) (w : W) :
  version f = true ->
  main f w =
    mkOut (Exit 0) w
      ((if quiet f then [EvLogDiscard] else []) ++
       [EvStdout ("Alpaca " +:+ BuildVersion +:+ LF)]).
Proof.
  intros Hv. unfold Main.main.
  rewrite (bind_run _ _ w tt w (if quiet f then [EvLogDiscard] else []))
    by (destruct (quiet f); reflexivity).
  cbn [val post emitted]. rewrite Hv. reflexivity.
Qed.

(** X19. With -version the program prints "Alpaca" and its version and
    exits with code 0, whatever else is on the command line; it does so
    before it touches the world: no credential source is asked (no
    prompt on the terminal, no look into the keyring) and no ticket is
    looked for. *)
Theorem version_flag_comes_first (f : Flags) (w : W) :
  version f = true ->
  val (main f w) = Exit 0 /\
  post (main f w) = w /\
  stdout (emitted (main f w)) = ["Alpaca " +:+ BuildVersion +:+ LF] /\
  (forall msg, EvLog msg ∉ emitted (main f w)).
Proof.
  intros Hv. rewrite (main_version f w Hv). cbn [val post emitted].
  split; [reflexivity|]. split; [reflexivity|]. split.
  - destruct (quiet f); reflexivity.
  - intros msg Hin. apply elem_of_app in Hin as [Hin|Hin].
    + destruct (quiet f); [|inversion Hin].
      apply list_elem_of_singleton in Hin. discriminate.
    + apply list_elem_of_singleton in Hin. discriminate.
Qed.

(** X20. Without -version and -H the start-up always goes on to serve,
    with the authenticator [newMultiAuthenticator] makes of the chain:
    nil when no method is available, the method itself when there is
    one, and a multi-authenticator with an empty cache over the chain
    when there are two or three. The chain is in the order Negotiate,
    Basic, NTLM; it holds Basic exactly when -b was given and its
    authenticator could be built, NTLM exactly when credentials were
    obtained, and Negotiate only with -k. *)
Theorem served_authenticator (f : Flags) (w : W) :
  version f = false ->
  printHash f = false ->
  exists listen ms,
    val (main f w) = Serve listen (MultiAuth.newMultiAuthenticator (Some <$> ms)) /\
    (kind_of <$> ms) `sublist_of` design_order /\
    (KBasic ∈ kind_of <$> ms <->
       basicCreds f ≠ "" /\ is_Some (newBasicAuthenticator (basicCreds f))) /\
    (KNTLM ∈ kind_of <$> ms <-> is_Some (val (ntlm_credentials f w))) /\
    (KNegotiate ∈ kind_of <$> ms -> kerberos f = true) /\
    match MultiAuth.newMultiAuthenticator (Some <$> ms) with
    | MultiAuth.nil_authenticator => ms = []
    | MultiAuth.single m => ms = [m]
    | MultiAuth.multi m =>
        MultiAuth.methods m = ms /\ MultiAuth.cache m = ∅ /\ (2 <= length ms)%nat
    end.
Proof.
  intros Hv HH. eexists _, _. split; [exact (main_serve f w Hv HH)|].
  rewrite build_methods_val.
  assert (Hb : is_Some (basic_of f) <->
               basicCreds f ≠ "" /\ is_Some (newBasicAuthenticator (basicCreds f))).
  { case_bool_decide as Hc; [tauto|].
    split; [intros [? ?]; discriminate | intros [? _]; contradiction]. }
  rewrite <- Hb. clear Hb.
  assert (Hk : (if kerberos f
                then (newNegotiateAuthenticator (kerberosWait f)
                        (post (ntlm_credentials f w))).1
                else None) ≠ None -> kerberos f = true)
    by (destruct (kerberos f); [reflexivity | congruence]).
  destruct (if kerberos f then _ else None) as [n|];
    destruct (basic_of f) as [b|];
    destruct (val (ntlm_credentials f w)) as [c|];
    cbn [app fmap list_fmap kind_of MultiAuth.newMultiAuthenticator MultiAuth.filter_nil
         MultiAuth.methods MultiAuth.cache length];
    rewrite !list_elem_of_In; cbn [In].
  all: split; [repeat (first [apply sublist_nil | apply sublist_skip | apply sublist_cons])|].
  all: split; [first [split; [intros; eexists; reflexivity | intuition]
                     | split; [intuition discriminate | intros [? ?]; discriminate]]|].
  all: split; [first [split; [intros; eexists; reflexivity | intuition]
                     | split; [intuition discriminate | intros [? ?]; discriminate]]|].
  all: split; [first [intros; apply Hk; discriminate | intuition discriminate]|].
  all: repeat split; lia.
Qed.

(** X22. A ticket is looked for only on the way to serving with -k:
    with -version, with -H or without -k the start-up does not call
    [newNegotiateAuthenticator] at all, so it goes the same way,
    whatever that function would do. *)
Theorem ticket_lookup_needs_k (f : Flags) (w : W)
    (other : Z -> W -> option negotiateAuthenticator * W) :
  version f = true \/ printHash f = true \/ kerberos f = false ->
  main f w =
  Main.main BuildVersion Getenv newBasicAuthenticator fromTerminal_forUser fromEnvVar
    fromKeyring getCredentials other format_q f w.
Proof.
  intros Hcase. unfold Main.main.
  destruct (version f) eqn:Hv; [reflexivity|].
  destruct Hcase as [Hc | [Hc | Hc]]; [discriminate| |].
  - rewrite Hc. reflexivity.
  - unfold Main.build_methods. rewrite Hc. reflexivity.
Qed.

(** Where the start-up goes on to serve, it listens on the hosts of
    -l, and on localhost when there is none. *)
Lemma main_serve_hosts (f : Flags) (w : W) listen auth :
  val (main f w) = Serve listen auth ->
  listen = if bool_decide (length (hosts f) = 0%nat) then (hosts f ++ ["localhost"])%list
           else hosts f.
Proof.
  intros Hs. destruct (version f) eqn:Hv.
  - rewrite (main_version f w Hv) in Hs. discriminate.
  - destruct (printHash f) eqn:HH.
    + destruct (main_print_hash f w Hv HH) as [He _]. rewrite He in Hs. discriminate.
    + rewrite (main_serve f w Hv HH) in Hs. injection Hs as <- _. reflexivity.
Qed.

End main_properties.

(** ** The addresses to listen on *)

Section listen_properties.

Context {IP W : Type}.
Variable LookupIP : string -> W -> (list IP * option error) * W.
Variable To4 : IP -> option IP.
Variable JoinHostPort : string -> string -> string.

Import Listen.

Local Abbreviation families := (Listen.families To4).
Local Abbreviation networks := (Listen.networks LookupIP To4).
Local Abbreviation go_listen := (Listen.go_listen (W := W)).
Local Abbreviation listen_all := (Listen.listen_all LookupIP To4 JoinHostPort).

(** Parsing never fails and keeps the values that are not empty. *)
Lemma flag_Parse_filter (values : list string) : forall s,
  flag_Parse values s = ((s ++ filter (fun v => v ≠ "") values)%list, None).
Proof.
  induction values as [|v values IH]; intros s; cbn [flag_Parse].
  - rewrite filter_nil, app_nil_r. reflexivity.
  - unfold stringArrayFlag_Set. case_bool_decide as Hv.
    + rewrite IH, filter_cons_False by (intros Hne; exact (Hne Hv)). reflexivity.
    + rewrite IH, filter_cons_True by exact Hv. rewrite <- app_assoc. reflexivity.
Qed.

(** The two flags of the loop of [networks]. *)
Lemma families_flags (addrs : list IP) :
  families addrs =
    (bool_decide (Exists (fun a => is_Some (To4 a)) addrs),
     bool_decide (Exists (fun a => To4 a = None) addrs)).
Proof.
  unfold Listen.families.
  assert (Hgen : forall (b4 b6 : bool),
            fold_left (fun '(ipv4, ipv6) addr =>
                         match To4 addr with
                         | Some _ => (true, ipv6)
                         | None => (ipv4, true)
                         end) addrs (b4, b6)
            = (b4 || bool_decide (Exists (fun a => is_Some (To4 a)) addrs),
               b6 || bool_decide (Exists (fun a => To4 a = None) addrs))).
  { induction addrs as [|a addrs IH]; intros b4 b6; cbn [fold_left].
    - rewrite !bool_decide_eq_false_2 by (intros H; inversion H).
      rewrite !orb_false_r. reflexivity.
    - destruct (To4 a) as [a4|] eqn:Ea; rewrite IH.
      + rewrite (bool_decide_eq_true_2 (Exists _ (a :: addrs)))
          by (left; rewrite Ea; eexists; reflexivity).
        rewrite orb_true_r. cbn [orb]. f_equal. f_equal.
        apply bool_decide_ext. rewrite Exists_cons. split; [tauto|].
        intros [H|H]; [congruence | exact H].
      + rewrite (bool_decide_eq_true_2 (Exists (fun a => To4 a = None) (a :: addrs)))
          by (left; exact Ea).
        rewrite orb_true_r. cbn [orb]. f_equal. f_equal.
        apply bool_decide_ext. rewrite Exists_cons. split; [tauto|].
        intros [H|H]; [rewrite Ea in H; destruct H; discriminate | exact H]. }
  apply Hgen.
Qed.

(** One call of [networks] for a host with a name. *)
Lemma networks_run hostname (w : W) addrs err w' :
  hostname ≠ "" ->
  LookupIP hostname w = ((addrs, err), w') ->
  networks hostname w =
    match err with
    | Some e => mkOut Fatal w' [EvLookupIP hostname; EvFatal e]
    | None =>
        mkOut (Return ((if (families addrs).1 then ["tcp4"] else []) ++
                       (if (families addrs).2 then ["tcp6"] else []))%list)
          w' [EvLookupIP hostname]
    end.
Proof.
  intros Hname E. unfold Listen.networks.
  rewrite bool_decide_eq_false_2 by exact Hname.
  unfold bind, emit, world_op, ret. cbn [val post emitted]. rewrite E.
  cbn [val post emitted app]. destruct err as [e|]; [reflexivity|].
  destruct (families addrs) as [[|] [|]]; reflexivity.
Qed.

Lemma go_listen_run nets address (w : W) :
  go_listen nets address w = mkOut tt w ((fun n => EvGo n address) <$> nets).
Proof.
  induction nets as [|n nets IH]; [reflexivity|].
  cbn [Listen.go_listen]. unfold bind, emit. cbn [val post emitted].
  rewrite IH. reflexivity.
Qed.

(** X18. For a host with a name whose look-up succeeds, [networks]
    gives tcp4 exactly when one of the addresses is an IPv4 address and
    tcp6 exactly when one of them is not, tcp4 first, each at most once
    and never the plain tcp; so the result does not depend on the order
    or the number of the addresses, and it is empty exactly when the
    look-up gave no address at all. *)
Theorem networks_of_a_name hostname (w : W) addrs w' :
  hostname ≠ "" ->
  LookupIP hostname w = ((addrs, None), w') ->
  exists nets,
    val (networks hostname w) = Return nets /\
    ("tcp4" ∈ nets <-> exists a, a ∈ addrs /\ is_Some (To4 a)) /\
    ("tcp6" ∈ nets <-> exists a, a ∈ addrs /\ To4 a = None) /\
    nets `sublist_of` ["tcp4"; "tcp6"] /\
    (nets = [] <-> addrs = []).
Proof.
  clear JoinHostPort.
  intros Hname E. rewrite (networks_run _ _ _ _ _ Hname E). cbn [val].
  rewrite families_flags. cbn [fst snd].
  eexists. split; [reflexivity|].
  rewrite <- !Exists_exists.
  pose proof (bool_decide_eq_true (Exists (fun a => is_Some (To4 a)) addrs)) as H4.
  pose proof (bool_decide_eq_true (Exists (fun a => To4 a = None) addrs)) as H6.
  assert (Hnone : addrs = [] <->
                  bool_decide (Exists (fun a => is_Some (To4 a)) addrs) = false /\
                  bool_decide (Exists (fun a => To4 a = None) addrs) = false).
  { rewrite !bool_decide_eq_false. split.
    - intros ->. split; intros H; inversion H.
    - intros [N4 N6]. destruct addrs as [|a addrs]; [reflexivity|].
      exfalso. destruct (To4 a) eqn:Ea.
      + apply N4. left. rewrite Ea. eexists; reflexivity.
      + apply N6. left. exact Ea. }
  destruct (bool_decide (Exists (fun a => is_Some (To4 a)) addrs));
    destruct (bool_decide (Exists (fun a => To4 a = None) addrs)); cbn [app];
    rewrite !list_elem_of_In; cbn [In].
  - split; [intuition|]. split; [intuition|]. split; [reflexivity|].
    split; [discriminate | intros HH; apply Hnone in HH as [? ?]; discriminate].
  - split; [intuition|]. split; [intuition discriminate|].
    split; [apply sublist_skip, sublist_cons, sublist_nil|].
    split; [discriminate | intros HH; apply Hnone in HH as [? ?]; discriminate].
  - split; [intuition discriminate|]. split; [intuition|].
    split; [apply sublist_cons, sublist_skip, sublist_nil|].
    split; [discriminate | intros HH; apply Hnone in HH as [? ?]; discriminate].
  - split; [intuition discriminate|]. split; [intuition discriminate|].
    split; [apply sublist_nil_l|].
    split; [intros _; apply Hnone; split; reflexivity | reflexivity].
Qed.

(** The loop over the hosts, for hosts with a name. *)
Lemma listen_all_named port : forall hosts (w : W),
  "" ∉ hosts ->
  let o := listen_all hosts port w in
  (forall n a, (n, a) ∈ started (emitted o) ->
     (n = "tcp4" \/ n = "tcp6") /\
     exists host, host ∈ hosts /\ a = JoinHostPort host (Itoa port)) /\
  exists k, lookups (emitted o) = take k hosts /\
    (val o = Return tt ->
       k = length hosts /\ forall err, EvFatal err ∉ emitted o) /\
    (val o = Fatal ->
       (0 < k)%nat /\
       exists pre host err, emitted o = (pre ++ [EvLookupIP host; EvFatal err])%list).
Proof.
  induction hosts as [|host hosts IH]; intros w Hnamed; cbn zeta.
  - cbn. split; [intros n a Hin; inversion Hin|].
    exists 0%nat. repeat split; [|discriminate|discriminate].
    intros err Hin. inversion Hin.
  - assert (Hhost : host ≠ "") by (intros ->; apply Hnamed; left).
    assert (Hrest : "" ∉ hosts) by (intros Hin; apply Hnamed; right; exact Hin).
    cbn [Listen.listen_all].
    destruct (LookupIP host w) as [[addrs err] w'] eqn:E.
    pose proof (networks_run host w addrs err w' Hhost E) as Hrun.
    destruct err as [e|].
    + rewrite (bind_run _ _ w _ _ _ Hrun). cbn [val post emitted ret app].
      split; [intros n a Hin; cbn in Hin; inversion Hin|].
      exists 1%nat. split; [reflexivity|]. split; [discriminate|].
      intros _. split; [lia|]. exists [], host, e. reflexivity.
    + rewrite (bind_run _ _ w _ _ _ Hrun). cbn [val post emitted].
      set (nets := ((if (families addrs).1 then ["tcp4"] else []) ++
                    (if (families addrs).2 then ["tcp6"] else []))%list).
      rewrite (bind_run _ _ w' tt w' _ (go_listen_run nets _ w')).
      cbn [val post emitted].
      destruct (IH w' Hrest) as (Hst & k & Hk & Hret & Hfatal).
      set (o := listen_all hosts port w') in *.
      assert (Hnets : forall n, n ∈ nets -> n = "tcp4" \/ n = "tcp6").
      { intros n. subst nets. destruct (families addrs) as [[|] [|]]; cbn [fst snd app];
          rewrite list_elem_of_In; cbn [In]; intuition. }
      assert (Hs : started (EvLookupIP host ::
                      ((fun n => EvGo n (JoinHostPort host (Itoa port))) <$> nets)
                      ++ emitted o)
                   = (((fun n => (n, JoinHostPort host (Itoa port))) <$> nets)
                      ++ started (emitted o))%list).
      { unfold started. cbn [omap list_omap]. rewrite omap_app. f_equal.
        clear. induction nets as [|n nets IHn]; [reflexivity|].
        cbn. f_equal. exact IHn. }
      assert (Hl : lookups (EvLookupIP host ::
                      ((fun n => EvGo n (JoinHostPort host (Itoa port))) <$> nets)
                      ++ emitted o)
                   = host :: lookups (emitted o)).
      { unfold lookups. cbn [omap list_omap]. rewrite omap_app. f_equal.
        replace (omap _ ((fun n => EvGo n (JoinHostPort host (Itoa port))) <$> nets))
          with (@nil string); [reflexivity|].
        clear. induction nets as [|n nets IHn]; [reflexivity | exact IHn]. }
      cbn [app]. split.
      * intros n a Hin. rewrite Hs in Hin. apply elem_of_app in Hin as [Hin|Hin].
        -- apply list_elem_of_fmap in Hin as (n' & Heq & Hn'). injection Heq as -> ->.
           split; [exact (Hnets _ Hn')|]. exists host. split; [left | reflexivity].
        -- destruct (Hst n a Hin) as (Hn & h & Hh & Ha).
           split; [exact Hn|]. exists h. split; [right; exact Hh | exact Ha].
      * exists (S k). rewrite Hl, Hk. split; [reflexivity|]. split.
        -- intros Hv. destruct (Hret Hv) as [-> Hnf]. split; [reflexivity|].
           intros err Hin. apply elem_of_cons in Hin as [Hin|Hin]; [discriminate|].
           apply elem_of_app in Hin as [Hin|Hin]; [|exact (Hnf err Hin)].
           apply list_elem_of_fmap in Hin as (n' & Heq & _). discriminate.
        -- intros Hv. destruct (Hfatal Hv) as (_ & pre & h & err & Hpre).
           split; [lia|].
           exists (EvLookupIP host ::
                   ((fun n => EvGo n (JoinHostPort host (Itoa port))) <$> nets) ++ pre)%list,
                  h, err.
           rewrite Hpre. cbn [app]. rewrite <- app_assoc. reflexivity.
Qed.

(** X26. The loop of [main] over hosts that all have a name looks the
    hosts up one after the other, in order, and starts for each the
    listeners of its networks: every goroutine listens on tcp4 or tcp6,
    on the address of one of the hosts joined with the port. The loop
    either gets through all the hosts, and then no look-up has failed,
    or it ends in [log.Fatal] right after the first look-up that fails,
    with nothing started for that host or after it. *)
Theorem listeners_started hosts port (w : W) :
  "" ∉ hosts ->
  let o := listen_all hosts port w in
  (forall n a, (n, a) ∈ started (emitted o) ->
     (n = "tcp4" \/ n = "tcp6") /\
     exists host, host ∈ hosts /\ a = JoinHostPort host (Itoa port)) /\
  (val o = Return tt ->
     lookups (emitted o) = hosts /\ forall err, EvFatal err ∉ emitted o) /\
  (val o = Fatal ->
     exists k pre host err,
       (0 < k)%nat /\ lookups (emitted o) = take k hosts /\
       emitted o = (pre ++ [EvLookupIP host; EvFatal err])%list) /\
  (val o = Return tt \/ val o = Fatal).
Proof.
  intros Hnamed. cbn zeta.
  destruct (listen_all_named port hosts w Hnamed) as (Hst & k & Hk & Hret & Hfatal).
  split; [exact Hst|]. split; [|split].
  - intros Hv. destruct (Hret Hv) as [-> Hnf]. rewrite firstn_all in Hk.
    split; assumption.
  - intros Hv. destruct (Hfatal Hv) as (Hpos & pre & host & err & Hpre).
    exists k, pre, host, err. repeat split; assumption.
  - destruct (val (listen_all hosts port w)) as [[]|]; [left | right]; reflexivity.
Qed.

End listen_properties.

(** ** The request loggers *)

Section requestlogger_properties.

Context {Url Conn W : Type}.
Variable rw_WriteHeader : Z -> W -> W.
Variable rw_Write : list byte -> W -> (Z * option error) * W.
Variable rw_Hijack : option (W -> (option Conn * option error) * W).
Variable url_Host : Url -> string.
Variable url_String : Url -> string.
Variable Now_RFC3339Nano : W -> string.
Variable json_Marshal : RequestLogger.jsonLogEntry -> string * option error.

Import RequestLogger.

Local Abbreviation St := (@RequestLogger.St Url W).
Local Abbreviation Ev := RequestLogger.Event.
Local Abbreviation Handler := (@RequestLogger.Handler Url Conn W).
Local Abbreviation ServeHTTP := (RequestLogger.ServeHTTP rw_WriteHeader rw_Write rw_Hijack).
Local Abbreviation Hijack := (RequestLogger.Hijack (Url := Url) rw_Hijack).
Local Abbreviation log_line := (RequestLogger.log_line url_String).
Local Abbreviation RequestLogger :=
  (RequestLogger.RequestLogger rw_WriteHeader rw_Write rw_Hijack url_String).
Local Abbreviation RequestLoggerJSON :=
  (RequestLogger.RequestLoggerJSON rw_WriteHeader rw_Write rw_Hijack url_Host url_String
     Now_RFC3339Nano json_Marshal).

(** A fresh [statusWriter] around the writer of the state. *)
Local Abbreviation wrapped s := (mkSt (mkStatusWriter StatusOK) (st_req s) (st_world s)).

Lemma written_app (l1 l2 : list Ev) : written (l1 ++ l2) = (written l1 ++ written l2)%list.
Proof. apply omap_app. Qed.

Lemma lines_app (l1 l2 : list Ev) : lines (l1 ++ l2) = (lines l1 ++ lines l2)%list.
Proof. apply omap_app. Qed.

(** One call of [Hijack]: it leaves the status alone, writes no line
    and passes no status on. *)
Lemma Hijack_run (s : St) :
  st_sw (post (Hijack s)) = st_sw s /\
  written (emitted (Hijack s)) = [] /\
  lines (emitted (Hijack s)) = [] /\
  (rw_Hijack = None -> emitted (Hijack s) = []).
Proof.
  unfold RequestLogger.Hijack. destruct rw_Hijack as [h|].
  - unfold bind, emit, world_op. cbn [val post emitted].
    destruct (h (st_world s)) as [r w']. repeat split. discriminate.
  - repeat split.
Qed.

Lemma WriteHeader_run st (s : St) :
  RequestLogger.WriteHeader rw_WriteHeader st s =
    mkOut tt (mkSt (mkStatusWriter st) (st_req s) (rw_WriteHeader st (st_world s)))
      [EvWriteHeader st].
Proof. reflexivity. Qed.

Lemma Write_run data (s : St) :
  RequestLogger.Write rw_Write data s =
    mkOut (rw_Write data (st_world s)).1
      (mkSt (st_sw s) (st_req s) (rw_Write data (st_world s)).2) [EvWrite data].
Proof.
  unfold RequestLogger.Write, bind, emit, world_op. cbn [val post emitted].
  destruct (rw_Write data (st_world s)); reflexivity.
Qed.

(** While a handler runs, the field [status] holds the status of the
    last [WriteHeader], and no line is written. *)
Lemma ServeHTTP_status (next : Handler) : forall s : St,
  let o := ServeHTTP next s in
  status (st_sw (post o)) = default (status (st_sw s)) (last (written (emitted o))) /\
  lines (emitted o) = [] /\
  (rw_Hijack = None -> EvHijack ∉ emitted o).
Proof.
  induction next as [|st k IH|data k IH|k IH|f k IH]; intros s; cbn zeta;
    cbn [RequestLogger.ServeHTTP].
  - repeat split. intros _ Hin. inversion Hin.
  - rewrite (bind_run _ _ s _ _ _ (WriteHeader_run st s)). cbn [val post emitted].
    destruct (IH (mkSt (mkStatusWriter st) (st_req s) (rw_WriteHeader st (st_world s))))
      as (Hst & Hl & Hh).
    rewrite Hst. cbn [st_sw status].
    rewrite (written_app [EvWriteHeader st]), (lines_app [EvWriteHeader st]), Hl.
    change (written [EvWriteHeader st]) with [st]. cbn [app].
    split; [|split; [reflexivity|]].
    + rewrite last_cons. destruct (last (written _)); reflexivity.
    + intros Hn Hin. apply elem_of_cons in Hin as [Hin|Hin]; [discriminate|].
      exact (Hh Hn Hin).
  - rewrite (bind_run _ _ s _ _ _ (Write_run data s)). cbn [val post emitted].
    destruct (IH (rw_Write data (st_world s)).1
                (mkSt (st_sw s) (st_req s) (rw_Write data (st_world s)).2))
      as (Hst & Hl & Hh).
    rewrite Hst. cbn [st_sw].
    rewrite (written_app [EvWrite data]), (lines_app [EvWrite data]), Hl.
    split; [reflexivity|]. split; [reflexivity|].
    intros Hn Hin. apply elem_of_cons in Hin as [Hin|Hin]; [discriminate|].
    exact (Hh Hn Hin).
  - destruct (Hijack_run s) as (Hsw & Hw & Hl0 & Hnone).
    destruct (Hijack s) as [r s1 evs] eqn:Eh. cbn [val post emitted] in *.
    rewrite (bind_run _ _ s r s1 evs Eh). cbn [val post emitted].
    destruct (IH r s1) as (Hst & Hl & Hh).
    rewrite Hst, Hsw, written_app, Hw, lines_app, Hl0, Hl. cbn [app].
    repeat split. intros Hn. rewrite (Hnone Hn). cbn [app]. exact (Hh Hn).
  - destruct (f (st_req s) (st_world s)) as [req' w'] eqn:E.
    rewrite (bind_run _ _ s tt (mkSt (st_sw s) req' w') [])
      by (unfold modify; rewrite E; reflexivity).
    rewrite (bind_run _ _ _ (mkSt (st_sw s) req' w') (mkSt (st_sw s) req' w') [] eq_refl).
    cbn [val post emitted app st_req st_world].
    destruct (IH req' w' (mkSt (st_sw s) req' w')) as (Hst & Hl & Hh).
    rewrite Hst. repeat split; assumption.
Qed.

(** The two loggers, each in one equation. *)
Lemma RequestLogger_run (next : Handler) (s : St) :
  let h := ServeHTTP next (wrapped s) in
  RequestLogger next s =
    mkOut tt (post h)
      (emitted h ++ [EvLog (log_line (st_req (post h)) (status (st_sw (post h))))]).
Proof.
  cbn zeta. unfold RequestLogger.RequestLogger.
  rewrite (bind_run _ _ s tt (wrapped s) [] eq_refl). cbn [val post emitted app].
  destruct (ServeHTTP next (wrapped s)) as [[] s1 evs] eqn:Eh. cbn [val post emitted].
  rewrite (bind_run _ _ _ tt s1 evs Eh). cbn [val post emitted].
  rewrite (bind_run _ _ s1 s1 s1 [] eq_refl). reflexivity.
Qed.

Lemma RequestLoggerJSON_run (next : Handler) (s : St) :
  let h := ServeHTTP next (wrapped s) in
  let req := st_req (post h) in
  let entry :=
    mkJsonLogEntry (default 0 (ctx_id req))
      (Now_RFC3339Nano (st_world (post h)))
      (status (st_sw (post h)))
      (req_Method req) (url_String (req_URL req))
      (from_option url_Host "" (ctx_proxy req)) in
  RequestLoggerJSON next s =
    mkOut tt (post h)
      (emitted h ++
       match json_Marshal entry with
       | (data, None) => [EvStdout (data +:+ Main.LF)]
       | (_, Some _) => []
       end).
Proof.
  cbn zeta. unfold RequestLogger.RequestLoggerJSON.
  rewrite (bind_run _ _ s tt (wrapped s) [] eq_refl). cbn [val post emitted app].
  destruct (ServeHTTP next (wrapped s)) as [[] s1 evs] eqn:Eh. cbn [val post emitted].
  rewrite (bind_run _ _ _ tt s1 evs Eh). cbn [val post emitted].
  rewrite (bind_run _ _ s1 s1 s1 [] eq_refl). cbn [val post emitted app].
  replace (match ctx_id (st_req s1) with Some n => n | None => 0 end)
    with (default 0 (ctx_id (st_req s1))) by (destruct (ctx_id (st_req s1)); reflexivity).
  replace (match ctx_proxy (st_req s1) with Some u => url_Host u | None => "" end)
    with (from_option url_Host "" (ctx_proxy (st_req s1)))
    by (destruct (ctx_proxy (st_req s1)); reflexivity).
  destruct (json_Marshal _) as [data [err|]]; reflexivity.
Qed.

(** X23. [RequestLogger] lets the handler run on a fresh [statusWriter]
    and then logs one line, the last thing it does. The status in that
    line is the one the handler passed to its last [WriteHeader], and
    200 when it called none, whatever it wrote or hijacked; the method,
    the URL and the id are those of the request as the handler left
    it. *)
Theorem logged_status_is_last_written (next : Handler) (s : St) :
  let h := ServeHTTP next (wrapped s) in
  let o := RequestLogger next s in
  emitted o =
    (emitted h ++
     [EvLog (log_line (st_req (post h)) (default StatusOK (last (written (emitted h)))))])%list /\
  lines (emitted h) = [] /\
  (written (emitted h) = [] ->
     lines (emitted o) = [log_line (st_req (post h)) StatusOK]) /\
  post o = post h.
Proof.
  cbn zeta. destruct (ServeHTTP_status next (wrapped s)) as (Hst & Hl & _).
  cbn [st_sw status] in Hst.
  rewrite RequestLogger_run. cbn [val post emitted]. rewrite Hst.
  split; [reflexivity|]. split; [exact Hl|]. split; [|reflexivity].
  intros Hw. rewrite lines_app, Hl, Hw. reflexivity.
Qed.

(** X24. [RequestLoggerJSON] prints at most one line, after the handler
    has run: the marshalled entry, and nothing when marshalling fails.
    The entry holds the status of the last [WriteHeader] of the handler
    (200 when there was none), the id of the request context (0 when
    there is none), and as parent proxy the field [Host] of the proxy
    URL of the context (empty when there is none). *)
Theorem json_entry_of_a_request (next : Handler) (s : St) :
  let h := ServeHTTP next (wrapped s) in
  let o := RequestLoggerJSON next s in
  let req := st_req (post h) in
  let entry :=
    mkJsonLogEntry (default 0 (ctx_id req))
      (Now_RFC3339Nano (st_world (post h)))
      (default StatusOK (last (written (emitted h))))
      (req_Method req) (url_String (req_URL req))
      (from_option url_Host "" (ctx_proxy req)) in
  emitted o =
    (emitted h ++
     match json_Marshal entry with
     | (data, None) => [EvStdout (data +:+ Main.LF)]
     | (_, Some _) => []
     end)%list /\
  lines (emitted h) = [] /\
  post o = post h.
Proof.
  cbn zeta. destruct (ServeHTTP_status next (wrapped s)) as (Hst & Hl & _).
  cbn [st_sw status] in Hst.
  rewrite RequestLoggerJSON_run. cbn [val post emitted]. rewrite Hst.
  split; [reflexivity|]. split; [exact Hl | reflexivity].
Qed.

(** X25. Where the wrapped writer does not implement [http.Hijacker],
    a handler that asks the [statusWriter] to hijack the connection gets
    the error "upstream ResponseWriter does not implement http.Hijacker"
    with no connection, and goes on from there: no call of [Hijack]
    ever reaches the wrapped writer. *)
Theorem hijack_needs_a_hijacker (next : Handler) (s : St) :
  rw_Hijack = None ->
  (forall k,
     ServeHTTP (CallHijack k) s =
     ServeHTTP
       (k (None, Some (Errorf "upstream ResponseWriter does not implement http.Hijacker")))
       s) /\
  (EvHijack ∉ emitted (RequestLogger next s)) /\
  (EvHijack ∉ emitted (RequestLoggerJSON next s)).
Proof.
  intros Hn.
  destruct (ServeHTTP_status next (wrapped s)) as (_ & _ & Hh). specialize (Hh Hn).
  split; [|split].
  - intros k. cbn [RequestLogger.ServeHTTP].
    assert (Hj : Hijack s =
                 mkOut (None, Some (Errorf
                          "upstream ResponseWriter does not implement http.Hijacker")) s [])
      by (unfold RequestLogger.Hijack; rewrite Hn; reflexivity).
    rewrite (bind_run _ _ s _ s [] Hj). cbn [app].
    destruct (ServeHTTP (k _) s); reflexivity.
  - rewrite RequestLogger_run. cbn [emitted].
    intros Hin. apply elem_of_app in Hin as [Hin|Hin]; [exact (Hh Hin)|].
    apply list_elem_of_singleton in Hin. discriminate.
  - rewrite RequestLoggerJSON_run. cbn [emitted].
    intros Hin. apply elem_of_app in Hin as [Hin|Hin]; [exact (Hh Hin)|].
    destruct (json_Marshal _) as [data [err|]]; [inversion Hin|].
    apply list_elem_of_singleton in Hin. discriminate.
Qed.

End requestlogger_properties.

(** ** From the command line to the listeners *)

Section startup_properties.

Context {negotiateAuthenticator basicAuthenticator authenticator : Type}.
Context {credentialSource W : Type}.
Variable BuildVersion : string.
Variable Getenv : string -> W -> string.
Variable newBasicAuthenticator : string -> option basicAuthenticator.
Variable fromTerminal_forUser : string -> string -> W -> option credentialSource * W.
Variable fromEnvVar : string -> W -> option credentialSource * W.
Variable fromKeyring : W -> option credentialSource * W.
Variable getCredentials :
  credentialSource -> W -> (option authenticator * option error) * W.
Variable newNegotiateAuthenticator : Z -> W -> option negotiateAuthenticator * W.
Variable format_q : authenticator -> string.

Context {IP R : Type}.
Variable LookupIP : string -> R -> (list IP * option error) * R.
Variable To4 : IP -> option IP.
Variable JoinHostPort : string -> string -> string.

Import Main Listen.

Local Abbreviation main :=
  (Main.main BuildVersion Getenv newBasicAuthenticator fromTerminal_forUser fromEnvVar
     fromKeyring getCredentials newNegotiateAuthenticator format_q).
Local Abbreviation listen_all := (Listen.listen_all LookupIP To4 JoinHostPort).

(** X21. The hosts the program listens on are the values of -l that
    are not empty, in the order of the command line, and localhost when
    there is no such value: parsing -l never fails, the list is never
    empty and holds no empty host name. So [networks] is never asked
    for the networks of the empty host name, and every listener is
    started on tcp4 or on tcp6, never on the plain tcp. *)
Theorem listeners_have_named_hosts (values : list string) (f : Main.Flags) (w : W)
    listen auth (r : R) :
  hosts f = (flag_Parse values []).1 ->
  val (main f w) = Serve listen auth ->
  (flag_Parse values []).2 = None /\
  listen = (if bool_decide (filter (fun v => v ≠ "") values = []) then ["localhost"]
            else filter (fun v => v ≠ "") values) /\
  listen ≠ [] /\
  ("" ∉ listen) /\
  forall n a, (n, a) ∈ started (emitted (listen_all listen (port f) r)) ->
              n = "tcp4" \/ n = "tcp6".
Proof.
  intros Hhosts Hs.
  rewrite flag_Parse_filter in Hhosts |- *. cbn [fst snd app] in Hhosts |- *.
  apply main_serve_hosts in Hs. rewrite Hhosts in Hs.
  assert (Hnamed : "" ∉ filter (fun v : string => v ≠ "") values).
  { intros Hin. apply list_elem_of_filter in Hin as [Hne _]. exact (Hne eq_refl). }
  assert (Hl : listen = (if bool_decide (filter (fun v => v ≠ "") values = [])
                         then ["localhost"] else filter (fun v => v ≠ "") values)).
  { rewrite Hs. destruct (filter (fun v => v ≠ "") values) as [|v vs]; reflexivity. }
  assert (Hlisten : "" ∉ listen).
  { rewrite Hl. case_bool_decide; [|exact Hnamed].
    intros Hin. apply list_elem_of_singleton in Hin. discriminate. }
  split; [reflexivity|]. split; [exact Hl|]. split; [|split; [exact Hlisten|]].
  - rewrite Hl. case_bool_decide; [discriminate | assumption].
  - intros n a Hin.
    destruct (listen_all_named LookupIP To4 JoinHostPort (port f) listen r Hlisten)
      as [Hst _].
    exact (proj1 (Hst n a Hin)).
Qed.

End startup_properties.

(** ** Runs of the multi-authenticator against the small upstream *)

Section multiauth_runs.

Import MultiAuth Scenario.

Local Abbreviation cached_method := (MultiAuth.cached_method Scenario.Hostname).
Local Abbreviation step := (MultiAuth.step Scenario.Hostname Scenario.method_do Scenario.Body_Close).

(** Splits a membership in an explicit list into its cases. *)
Local Ltac cases_of_membership H :=
  repeat (apply elem_of_cons in H as [H | H]); [.. | apply elem_of_nil in H; destruct H].

(** The upstream accepts NTLM only: the first request to up.example
    stores NTLM for it; the next request to it invokes NTLM alone. *)
Lemma cached_method_sticky_witness :
  let s0 := fresh chain [KNTLM] up_example in
  let s1 := post (Scenario.do tt s0) in
  let s := mkSt (st_m s1) up_example (st_world s1) in
  (cache (st_m s0) !! "up.example" = None /\
   cache (st_m s1) !! "up.example" = Some KNTLM /\
   rtc step s1 s) /\
  val (Scenario.do tt s) = Return (Some (mkResponse 200 3%nat)) None /\
  emitted (Scenario.do tt s) = [EvDo KNTLM (Some (mkResponse 200 3%nat), None)] /\
  cache (st_m (post (Scenario.do tt s))) !! "up.example" = Some KNTLM.
Proof.
  cbn zeta.
  assert (H0 : cache (st_m (fresh chain [KNTLM] up_example)) !! "up.example" = None)
    by (vm_compute; reflexivity).
  assert (H1 : cache (st_m (post (Scenario.do tt (fresh chain [KNTLM] up_example))))
                 !! "up.example" = Some KNTLM)
    by (vm_compute; reflexivity).
  assert (H2 : rtc step (post (Scenario.do tt (fresh chain [KNTLM] up_example)))
                 (mkSt (st_m (post (Scenario.do tt (fresh chain [KNTLM] up_example))))
                    up_example
                    (st_world (post (Scenario.do tt (fresh chain [KNTLM] up_example))))))
    by (apply rtc_once; apply step_outside).
  split; [repeat split; assumption|].
  destruct (cached_method_sticky Scenario.Hostname Scenario.method_do Scenario.Body_Close
              tt _ "up.example" KNTLM _ tt _ _ _ H0 H1 H2 eq_refl eq_refl)
    as (Hv & He & _ & Hc).
  split; [exact Hv | split; [exact He | exact Hc]].
Defined.

(** The upstream accepts nothing: all three methods are tried and the
    407 of NTLM, the last, comes back. *)
Lemma exhausted_chain_returns_last_407_witness :
  let s := fresh chain [] up_example in
  (cached_method s = None /\ every_answer_407 (emitted (Scenario.do tt s))) /\
  invocations (emitted (Scenario.do tt s)) = [KNegotiate; KBasic; KNTLM] /\
  exists resp pre,
    val (Scenario.do tt s) = Return (Some resp) None /\
    StatusCode resp = StatusProxyAuthRequired /\
    emitted (Scenario.do tt s) = (pre ++ [EvDo KNTLM (Some resp, None)])%list /\
    S (length (closes pre)) = 3%nat.
Proof.
  cbn zeta.
  assert (H0 : cached_method (fresh chain [] up_example) = None)
    by (vm_compute; reflexivity).
  assert (H1 : every_answer_407 (emitted (Scenario.do tt (fresh chain [] up_example)))).
  { intros a r Hin.
    change (emitted (Scenario.do tt (fresh chain [] up_example)))
      with [EvDo KNegotiate (Some (mkResponse 407 0%nat), None); EvClose 0%nat;
            EvDo KBasic (Some (mkResponse 407 1%nat), None); EvClose 1%nat;
            EvDo KNTLM (Some (mkResponse 407 2%nat), None)] in Hin.
    cases_of_membership Hin; try discriminate; injection Hin as -> ->;
      eexists; split; reflexivity. }
  split; [split; assumption|].
  destruct (exhausted_chain_returns_last_407 Scenario.Hostname Scenario.method_do
              Scenario.Body_Close tt _ H0 H1) as (Hinv & _ & Hlast).
  split; [exact Hinv|]. exact (Hlast KNTLM eq_refl).
Defined.

(** Negotiate and Basic in front of an upstream that takes neither:
    the body of the 407 that Negotiate received is closed before Basic
    is invoked. *)
Lemma rejected_body_closed_before_next_witness :
  let s := fresh [KNegotiate; KBasic] [] up_example in
  let resp := mkResponse StatusProxyAuthRequired 0%nat in
  (cached_method s = None /\
   emitted (Scenario.do tt s) =
     ([] ++ EvDo KNegotiate (Some resp, None)
         :: [EvClose 0%nat; EvDo KBasic (Some (mkResponse 407 1%nat), None)])%list /\
   StatusCode resp = StatusProxyAuthRequired /\
   Z.of_nat (length (invocations (A := Kind) (Body := nat) [])) <
     Z.of_nat (length (methods (st_m s))) - 1) /\
  exists a' r' tl',
    [EvClose 0%nat; EvDo KBasic (Some (mkResponse 407 1%nat), None)] =
      EvClose (resp_Body resp) :: EvDo a' r' :: tl' /\
    methods (st_m s) !! 1%nat = Some a'.
Proof.
  cbn zeta.
  assert (H0 : cached_method (fresh [KNegotiate; KBasic] [] up_example) = None)
    by (vm_compute; reflexivity).
  assert (H1 : emitted (Scenario.do tt (fresh [KNegotiate; KBasic] [] up_example)) =
               ([] ++ EvDo KNegotiate (Some (mkResponse StatusProxyAuthRequired 0%nat), None)
                   :: [EvClose 0%nat; EvDo KBasic (Some (mkResponse 407 1%nat), None)])%list)
    by (vm_compute; reflexivity).
  assert (H2 : StatusCode (mkResponse StatusProxyAuthRequired 0%nat) =
               StatusProxyAuthRequired) by reflexivity.
  assert (H3 : Z.of_nat (length (invocations (A := Kind) (Body := nat) [])) <
               Z.of_nat (length (methods (st_m (fresh [KNegotiate; KBasic] [] up_example)))) - 1)
    by (vm_compute; reflexivity).
  split; [repeat split; assumption|].
  destruct (rejected_body_closed_before_next Scenario.Hostname Scenario.method_do
              Scenario.Body_Close tt _ H0) as [Hclose _].
  exact (Hclose _ _ _ _ H1 H2 H3).
Defined.

(** C3 as stated fails on the draining: in that same run the body of
    the 407 that Negotiate received is closed, Basic is invoked next,
    and the 64 bytes of the body are still unread. [do] calls [Close]
    on the body and never reads from it. It fails as well where the
    method is the cached one: once Negotiate is cached for up.example
    and the upstream turns it down, its 407 is handed back as it is,
    the body open, and no other method is invoked. *)
Lemma interim_body_closed_but_not_drained :
  let s := fresh [KNegotiate; KBasic] [] up_example in
  let o := Scenario.do tt s in
  let s1 := post (Scenario.do tt (fresh chain [KNegotiate] up_example)) in
  let o' := Scenario.do tt (mkSt (st_m s1) up_example (mkWorld [] (bodies (st_world s1)))) in
  (cached_method s = None /\
   emitted o = [EvDo KNegotiate (Some (mkResponse 407 0%nat), None); EvClose 0%nat;
                EvDo KBasic (Some (mkResponse 407 1%nat), None)] /\
   closed 0%nat (st_world (post o)) /\
   bodies (st_world (post o)) !! 0%nat = Some (mkBody 64 true) /\
   ~ drained 0%nat (st_world (post o))) /\
  (cache (st_m s1) !! "up.example" = Some KNegotiate /\
   emitted o' = [EvDo KNegotiate (Some (mkResponse 407 1%nat), None)] /\
   val o' = Return (Some (mkResponse 407 1%nat)) None /\
   ~ closed 1%nat (st_world (post o'))).
Proof.
  cbn zeta. split.
  - split; [vm_compute; reflexivity|]. split; [vm_compute; reflexivity|].
    split; [vm_compute; reflexivity|]. split; [vm_compute; reflexivity|].
    unfold drained. vm_compute. discriminate.
  - split; [vm_compute; reflexivity|]. split; [vm_compute; reflexivity|].
    split; [vm_compute; reflexivity|].
    unfold closed. vm_compute. discriminate.
Qed.

(** The first method succeeds for a request to up.example: it is
    cached for that host. *)
Lemma first_success_cached_and_returned_witness :
  let s := fresh chain [KNegotiate] up_example in
  let resp := mkResponse 200 0%nat in
  (cached_method s = None /\
   emitted (Scenario.do tt s) =
     ([] ++ EvDo KNegotiate (Some resp, None)
         :: [EvLog "Cached auth method for proxy up.example"])%list /\
   StatusCode resp ≠ StatusProxyAuthRequired) /\
  val (Scenario.do tt s) = Return (Some resp) None /\
  cache (st_m (post (Scenario.do tt s))) !! "up.example" = Some KNegotiate.
Proof.
  cbn zeta.
  assert (H0 : cached_method (fresh chain [KNegotiate] up_example) = None)
    by (vm_compute; reflexivity).
  assert (H1 : emitted (Scenario.do tt (fresh chain [KNegotiate] up_example)) =
               ([] ++ EvDo KNegotiate (Some (mkResponse 200 0%nat), None)
                   :: [EvLog "Cached auth method for proxy up.example"])%list)
    by (vm_compute; reflexivity).
  assert (H2 : StatusCode (mkResponse (Body := nat) 200 0%nat) ≠ StatusProxyAuthRequired)
    by (vm_compute; discriminate).
  split; [repeat split; assumption|].
  destruct (first_success_cached_and_returned Scenario.Hostname Scenario.method_do
              Scenario.Body_Close tt _ _ _ _ _ H0 H1 H2) as (Hv & _ & _ & _ & Hc).
  split; [exact Hv|].
  etransitivity; [exact (f_equal (fun c => c !! "up.example") Hc)|].
  vm_compute. reflexivity.
Defined.

(** C4 as stated fails where the proxy URL has no host name: the first
    method succeeds, its response is returned, and no mapping is
    stored, the cache stays empty. *)
Lemma empty_host_success_not_cached :
  let s := fresh chain [KNegotiate] no_host in
  let o := Scenario.do tt s in
  cached_method s = None /\
  emitted o = [EvDo KNegotiate (Some (mkResponse 200 0%nat), None)] /\
  val o = Return (Some (mkResponse 200 0%nat)) None /\
  cache (st_m (post o)) !! MultiAuth.proxyHost_of Scenario.Hostname no_host = None /\
  cache (st_m (post o)) = ∅.
Proof.
  cbn zeta. repeat split; vm_compute; reflexivity.
Qed.

(** No method at all. *)
Lemma empty_chain_is_unauthenticated_witness :
  let s := fresh [] [] up_example in
  (Forall (fun m : option Kind => m = None) [None; None] /\
   methods (st_m s) = [] /\ cache_in_chain (st_m s)) /\
  newMultiAuthenticator (A := Kind) [None; None] = nil_authenticator /\
  val (Scenario.do tt s) =
    Return None (Some (Errorf "no authentication methods configured")) /\
  emitted (Scenario.do tt s) = [].
Proof.
  cbn zeta.
  assert (H0 : Forall (fun m : option Kind => m = None) [None; None])
    by (repeat constructor).
  assert (H1 : methods (st_m (fresh [] [] up_example)) = []) by reflexivity.
  assert (H2 : cache_in_chain (st_m (fresh [] [] up_example)))
    by (apply new_cache_in_chain).
  split; [repeat split; assumption|].
  destruct (empty_chain_is_unauthenticated Scenario.Hostname Scenario.method_do
              Scenario.Body_Close) as [Hnew Hdo].
  split; [exact (Hnew _ H0)|].
  destruct (Hdo tt _ H1 H2) as (Hv & He & _).
  split; [exact Hv | exact He].
Defined.

(** Basic and NTLM configured, Negotiate not. *)
Lemma newMultiAuthenticator_cases_witness :
  ((2 <= length (omap id [None; Some KBasic; Some KNTLM]))%nat /\
   omap id [None; Some KBasic] = [KBasic] /\
   omap id [None; None] = @nil Kind) /\
  newMultiAuthenticator [None; Some KBasic; Some KNTLM] = multi (mkMulti [KBasic; KNTLM] ∅) /\
  newMultiAuthenticator [None; Some KBasic] = single KBasic /\
  newMultiAuthenticator (A := Kind) [None; None] = nil_authenticator.
Proof.
  assert (H2 : (2 <= length (omap id [None; Some KBasic; Some KNTLM]))%nat)
    by (vm_compute; lia).
  assert (H1 : omap id [None; Some KBasic] = [KBasic]) by reflexivity.
  assert (H0 : omap id [None; None] = @nil Kind) by reflexivity.
  split; [repeat split; assumption|].
  split; [|split].
  - destruct (newMultiAuthenticator_cases [None; Some KBasic; Some KNTLM])
      as (_ & _ & _ & Hmany).
    exact (Hmany H2).
  - destruct (newMultiAuthenticator_cases [None; Some KBasic]) as (_ & _ & Hone & _).
    exact (Hone KBasic H1).
  - destruct (newMultiAuthenticator_cases (A := Kind) [None; None]) as (_ & Hnone & _).
    exact (Hnone H0).
Defined.

(** A request whose context carries no proxy, after up.example was
    cached: the chain is walked from its head and the cache is as
    before. *)
Lemma no_proxy_host_leaves_cache_alone_witness :
  let s1 := post (Scenario.do tt (fresh chain [KBasic] up_example)) in
  let s := mkSt (st_m s1) direct (st_world s1) in
  MultiAuth.proxyHost_of Scenario.Hostname (st_req s) = "" /\
  st_m (post (Scenario.do tt s)) = st_m s /\
  exists k, invocations (emitted (Scenario.do tt s)) = take k chain /\ (0 < k)%nat.
Proof.
  cbn zeta.
  assert (H0 : MultiAuth.proxyHost_of Scenario.Hostname
                 (st_req (mkSt (st_m (post (Scenario.do tt (fresh chain [KBasic] up_example))))
                            direct
                            (st_world (post (Scenario.do tt (fresh chain [KBasic] up_example))))))
               = "") by reflexivity.
  split; [exact H0|].
  destruct (no_proxy_host_leaves_cache_alone Scenario.Hostname Scenario.method_do
              Scenario.Body_Close tt _ H0) as (Hm & _ & k & Hk & Hpos).
  split; [exact Hm|]. exists k. split; [exact Hk|].
  apply Hpos. vm_compute. discriminate.
Defined.

End multiauth_runs.

(** ** Runs of the Negotiate authenticator and of the start-up *)

Section other_runs.

Import Scenario.

(** A ticket is held and the upstream is up.example. *)
Lemma negotiate_sends_spnego_token_witness :
  let s := Negotiate.mkSt up_example tt in
  let u := mkUrl "up.example" 8080 in
  let T := Base64.bytes_of "tok" in
  (ctx_proxy (Negotiate.st_req s) = Some u /\
   Hostname u ≠ "" /\
   val (Negotiate.generateSPNEGOToken (URL := url) (RoundTripper := unit)
          gss_import_name gss_init_sec_context gss_release_name gss_delete_sec_context
          gss_release_buffer malloc (Hostname u) s)
     = Negotiate.TokenReturn (Some T) None) /\
  Negotiate.principals (emitted (negotiate_do tt s)) = ["HTTP@up.example"] /\
  Negotiate.round_trips (emitted (negotiate_do tt s)) =
    [(tt, mkRequest (Some u) (Header_Set ∅ "Proxy-Authorization" "Negotiate dG9r"))] /\
  val (negotiate_do tt s) = Negotiate.Return (Some (mkResponse 200 0%nat), None).
Proof.
  cbn zeta.
  assert (H0 : ctx_proxy (Negotiate.st_req (Negotiate.mkSt (W := unit) up_example tt))
               = Some (mkUrl "up.example" 8080)) by reflexivity.
  assert (H1 : Hostname (mkUrl "up.example" 8080) ≠ "") by (vm_compute; discriminate).
  assert (H2 : val (Negotiate.generateSPNEGOToken (URL := url) (RoundTripper := unit)
                      gss_import_name gss_init_sec_context gss_release_name
                      gss_delete_sec_context gss_release_buffer malloc
                      (Hostname (mkUrl "up.example" 8080)) (Negotiate.mkSt up_example tt))
               = Negotiate.TokenReturn (Some (Base64.bytes_of "tok")) None)
    by (vm_compute; reflexivity).
  split; [repeat split; assumption|].
  destruct (negotiate_sends_spnego_token Hostname gss_import_name gss_init_sec_context
              gss_release_name gss_delete_sec_context gss_release_buffer malloc RoundTrip
              tt _ _ _ H0 H1 H2) as (_ & _ & Hspn & Hrt & Hv & _).
  split; [exact Hspn | split; [exact Hrt | exact Hv]].
Defined.

(** Started with -H, no domain, nothing in the environment and an empty
    keyring: exit code 1. Started with -H and a domain: exit code 0. *)
Lemma print_hash_exit_code_witness :
  let f1 := flags "" "me" "" true false false in
  let f0 := flags "CORP" "me" "" true false false in
  (Main.printHash f1 = true /\ Main.version f1 = false /\
   val (ntlm_credentials f1 bare) = None /\
   Main.printHash f0 = true /\ Main.version f0 = false /\
   val (ntlm_credentials f0 bare) = Some "CORP:me") /\
  val (Scenario.main f1 bare) = Main.Exit 1 /\
  val (Scenario.main f0 bare) = Main.Exit 0 /\
  Main.stdout (emitted (Scenario.main f0 bare)) =
    ["# Add this to your ~/.profile (or equivalent) and restart your shell" +:+ Main.LF;
     "NTLM_CREDENTIALS=" +:+ format_q "CORP:me" +:+ "; export NTLM_CREDENTIALS" +:+ Main.LF].
Proof.
  cbn zeta.
  assert (Ha1 : val (ntlm_credentials (flags "" "me" "" true false false) bare) = None)
    by (vm_compute; reflexivity).
  assert (Ha0 : val (ntlm_credentials (flags "CORP" "me" "" true false false) bare)
                = Some "CORP:me") by (vm_compute; reflexivity).
  split; [repeat split; assumption|].
  destruct (print_hash_exit_code "v1" Getenv newBasicAuthenticator fromTerminal_forUser
              fromEnvVar fromKeyring getCredentials newNegotiateAuthenticator format_q
              (flags "" "me" "" true false false) bare eq_refl eq_refl) as [Hnone _].
  destruct (print_hash_exit_code "v1" Getenv newBasicAuthenticator fromTerminal_forUser
              fromEnvVar fromKeyring getCredentials newNegotiateAuthenticator format_q
              (flags "CORP" "me" "" true false false) bare eq_refl eq_refl) as [_ Hsome].
  destruct (Hnone Ha1) as [Hv1 _]. destruct (Hsome _ Ha0) as [Hv0 Hout0].
  split; [exact Hv1 | split; [exact Hv0 | exact Hout0]].
Defined.

(** C8 as stated fails when -version is given as well: started with -H
    and -version where no NTLM credentials can be obtained, the program
    prints its version and exits with code 0, not 1. *)
Lemma print_hash_with_version_exits_0 :
  let f := flags "" "me" "" true false true in
  Main.printHash f = true /\
  val (ntlm_credentials f bare) = None /\
  val (Scenario.main f bare) = Main.Exit 0 /\
  val (Scenario.main f bare) ≠ Main.Exit 1 /\
  Main.stdout (emitted (Scenario.main f bare)) = ["Alpaca v1" +:+ Main.LF].
Proof.
  cbn zeta. split; [reflexivity|]. split; [vm_compute; reflexivity|].
  split; [vm_compute; reflexivity|]. split; [vm_compute; discriminate|].
  vm_compute. reflexivity.
Qed.

(** Started with -k, Basic and NTLM credentials: with a ticket the
    chain is Negotiate, Basic, NTLM; without one it is Basic, NTLM. *)
Lemma chain_in_design_order_witness :
  let f := flags "CORP" "me" "u:p" false true false in
  let build os :=
    Main.kind_of <$>
      val (Main.build_methods newNegotiateAuthenticator f (Some "u:p") (Some "CORP:me") os) in
  (build (mkOS "" None true) !! 0%nat = Some KNegotiate /\
   build (mkOS "" None true) !! 2%nat = Some KNTLM /\ (0 < 2)%nat) /\
  build (mkOS "" None true) = [KNegotiate; KBasic; KNTLM] /\
  build bare = [KBasic; KNTLM] /\
  count_occ Kind_eq_dec (build bare) KNegotiate = 0%nat /\
  count_occ Kind_eq_dec (build bare) KNTLM = 1%nat /\
  (rank KNegotiate < rank KNTLM)%nat.
Proof.
  cbn zeta.
  destruct (chain_in_design_order newNegotiateAuthenticator
              (flags "CORP" "me" "u:p" false true false) (Some "u:p") (Some "CORP:me")
              (mkOS "" None true)) as (Hall & _ & Horder).
  destruct (chain_in_design_order newNegotiateAuthenticator
              (flags "CORP" "me" "u:p" false true false) (Some "u:p") (Some "CORP:me")
              bare) as (Hbare & Hcount & _).
  assert (H0 : (Main.kind_of <$>
                  val (Main.build_methods newNegotiateAuthenticator
                         (flags "CORP" "me" "u:p" false true false)
                         (Some "u:p") (Some "CORP:me") (mkOS "" None true))) !! 0%nat
               = Some KNegotiate) by reflexivity.
  assert (H2 : (Main.kind_of <$>
                  val (Main.build_methods newNegotiateAuthenticator
                         (flags "CORP" "me" "u:p" false true false)
                         (Some "u:p") (Some "CORP:me") (mkOS "" None true))) !! 2%nat
               = Some KNTLM) by reflexivity.
  assert (Hlt : (0 < 2)%nat) by lia.
  split; [repeat split; assumption|].
  split; [exact Hall|]. split; [exact Hbare|].
  split; [exact (Hcount KNegotiate)|]. split; [exact (Hcount KNTLM)|].
  exact (Horder _ _ _ _ H0 H2 Hlt).
Defined.

End other_runs.

(** ** Further runs against the small upstream *)

Section more_multiauth_runs.

Import MultiAuth Scenario.

Local Abbreviation cached_method := (MultiAuth.cached_method Scenario.Hostname).
Local Abbreviation step := (MultiAuth.step Scenario.Hostname Scenario.method_do Scenario.Body_Close).

(** Negotiate is turned down and Basic cannot reach the upstream: the
    call ends with the error of Basic, NTLM is not tried and nothing is
    cached. *)
Lemma method_error_ends_the_call_witness :
  let s := fresh chain [] up_example in
  let pre := [EvDo KNegotiate (Some (mkResponse 407 0%nat), None); EvClose 0%nat] in
  (MultiAuth.cached_method Hostname s = None /\
   emitted (do_unreachable tt s) =
     (pre ++ EvDo KBasic (None, Some (Errorf "connection refused")) :: [])%list) /\
  val (do_unreachable tt s) = Return None (Some (Errorf "connection refused")) /\
  st_m (post (do_unreachable tt s)) = st_m s.
Proof.
  cbn zeta.
  assert (H0 : MultiAuth.cached_method Hostname (fresh chain [] up_example) = None)
    by (vm_compute; reflexivity).
  assert (H1 : emitted (do_unreachable tt (fresh chain [] up_example)) =
               ([EvDo KNegotiate (Some (mkResponse 407 0%nat), None); EvClose 0%nat]
                ++ EvDo KBasic (None, Some (Errorf "connection refused")) :: [])%list)
    by (vm_compute; reflexivity).
  split; [split; assumption|].
  destruct (method_error_ends_the_call Hostname method_do_unreachable Body_Close
              tt _ _ _ _ _ _ H0 H1) as (Hv & _ & Hm).
  split; [exact Hv | exact Hm].
Defined.

(** The upstream accepts Basic: Negotiate and Basic are invoked, and
    the one body of Negotiate is closed. *)
Lemma uncached_call_shape_witness :
  let s := fresh chain [KBasic] up_example in
  cached_method s = None /\
  exists k, invocations (emitted (Scenario.do tt s)) = take k chain /\
            (k <= 3)%nat /\ (0 < k)%nat /\
            length (closes (emitted (Scenario.do tt s))) = pred k.
Proof.
  cbn zeta.
  assert (H0 : cached_method (fresh chain [KBasic] up_example) = None)
    by (vm_compute; reflexivity).
  split; [exact H0|].
  destruct (uncached_call_shape Hostname method_do Body_Close tt _ H0)
    as (k & Hk & Hle & Hpos & Hcl).
  exists k. split; [exact Hk|]. split; [exact Hle|].
  split; [apply Hpos; vm_compute; discriminate | exact Hcl].
Defined.

(** The upstream accepts nothing: every method answers, the call does
    not panic and returns a response with a nil error. *)
Lemma uncached_call_outcome_witness :
  let s := fresh chain [] up_example in
  (cached_method s = None /\
   (forall a r, EvDo a r ∈ emitted (Scenario.do tt s) -> r ≠ (None, None)) /\
   val (Scenario.do tt s) = Return (Some (mkResponse 407 2%nat)) None) /\
  val (Scenario.do tt s) ≠ Panic /\
  ((is_Some (Some (mkResponse 407 2%nat)) /\ @None error = None) \/
   (Some (mkResponse 407 2%nat) = None /\ is_Some (@None error))).
Proof.
  cbn zeta.
  assert (H0 : cached_method (fresh chain [] up_example) = None)
    by (vm_compute; reflexivity).
  assert (H1 : forall a r, EvDo a r ∈ emitted (Scenario.do tt (fresh chain [] up_example)) ->
                           r ≠ (None, None)).
  { intros a r Hin.
    change (emitted (Scenario.do tt (fresh chain [] up_example)))
      with [EvDo KNegotiate (Some (mkResponse 407 0%nat), None); EvClose 0%nat;
            EvDo KBasic (Some (mkResponse 407 1%nat), None); EvClose 1%nat;
            EvDo KNTLM (Some (mkResponse 407 2%nat), None)] in Hin.
    repeat (apply elem_of_cons in Hin as [Hin | Hin]);
      [.. | apply elem_of_nil in Hin; destruct Hin];
      try discriminate; injection Hin as -> ->; discriminate. }
  assert (H2 : val (Scenario.do tt (fresh chain [] up_example))
               = Return (Some (mkResponse 407 2%nat)) None)
    by (vm_compute; reflexivity).
  split; [repeat split; assumption|].
  destruct (uncached_call_outcome Hostname method_do Body_Close tt _ H0)
    as (_ & Hnp & Hret).
  split; [exact (Hnp H1) | exact (Hret _ _ H2)].
Defined.

(** NTLM is the method that works for up.example: the next call for
    up.example invokes NTLM alone. *)
Lemma success_then_sticky_witness :
  let s := fresh chain [KNTLM] up_example in
  let s1 := post (Scenario.do tt s) in
  let s' := mkSt (st_m s1) up_example (st_world s1) in
  let pre := [EvDo KNegotiate (Some (mkResponse 407 0%nat), None); EvClose 0%nat;
              EvDo KBasic (Some (mkResponse 407 1%nat), None); EvClose 1%nat] in
  let resp := mkResponse 200 2%nat in
  (cached_method s = None /\
   MultiAuth.proxyHost_of Hostname (st_req s) ≠ "" /\
   emitted (Scenario.do tt s) =
     (pre ++ EvDo KNTLM (Some resp, None)
          :: [EvLog "Cached auth method for proxy up.example"])%list /\
   StatusCode resp ≠ StatusProxyAuthRequired /\
   rtc step s1 s' /\
   MultiAuth.proxyHost_of Hostname (st_req s') = MultiAuth.proxyHost_of Hostname (st_req s)) /\
  emitted (Scenario.do tt s') = [EvDo KNTLM (Some (mkResponse 200 3%nat), None)] /\
  val (Scenario.do tt s') = Return (Some (mkResponse 200 3%nat)) None.
Proof.
  cbn zeta.
  set (s := fresh chain [KNTLM] up_example).
  set (s' := mkSt (st_m (post (Scenario.do tt s))) up_example
               (st_world (post (Scenario.do tt s)))).
  assert (H0 : cached_method s = None) by (vm_compute; reflexivity).
  assert (H1 : MultiAuth.proxyHost_of Hostname (st_req s) ≠ "")
    by (vm_compute; discriminate).
  assert (H2 : emitted (Scenario.do tt s) =
               ([EvDo KNegotiate (Some (mkResponse 407 0%nat), None); EvClose 0%nat;
                 EvDo KBasic (Some (mkResponse 407 1%nat), None); EvClose 1%nat]
                ++ EvDo KNTLM (Some (mkResponse 200 2%nat), None)
                   :: [EvLog "Cached auth method for proxy up.example"])%list)
    by (vm_compute; reflexivity).
  assert (H3 : StatusCode (mkResponse (Body := nat) 200 2%nat) ≠ StatusProxyAuthRequired)
    by (vm_compute; discriminate).
  assert (H4 : rtc step (post (Scenario.do tt s)) s')
    by (apply rtc_once; apply step_outside).
  assert (H5 : MultiAuth.proxyHost_of Hostname (st_req s')
               = MultiAuth.proxyHost_of Hostname (st_req s)) by reflexivity.
  split; [repeat split; assumption|].
  exact (success_then_sticky Hostname method_do Body_Close tt s _ _ _ _ s' tt
           (Some (mkResponse 200 3%nat), None) _ _ H0 H1 H2 H3 H4 H5 eq_refl).
Defined.

(** A call that caches Basic for up.example: the cache it started with,
    the empty one, is part of the cache it leaves, and the chain is the
    same. *)
Lemma cache_only_grows_witness :
  let s := fresh chain [KBasic] up_example in
  let s' := post (Scenario.do tt s) in
  rtc step s s' /\
  cache (st_m s) ⊆ cache (st_m s') /\
  cache (st_m s') !! "up.example" = Some KBasic /\
  methods (st_m s') = chain.
Proof.
  cbn zeta.
  assert (H0 : rtc step (fresh chain [KBasic] up_example)
                 (post (Scenario.do tt (fresh chain [KBasic] up_example))))
    by (apply rtc_once; apply step_do).
  split; [exact H0|].
  destruct (cache_only_grows Hostname method_do Body_Close _ _ H0) as [Hc Hm].
  split; [exact Hc|]. split; [vm_compute; reflexivity | exact Hm].
Defined.

(** Basic and NTLM configured: after a first call the authenticator
    still has its two methods, and a further call invokes one. *)
Lemma built_authenticator_invariants_witness :
  let m := mkMulti [KBasic; KNTLM] ∅ in
  let s0 := mkSt m up_example (mkWorld [KNTLM] []) in
  let s := post (Scenario.do tt s0) in
  (newMultiAuthenticator [None; Some KBasic; Some KNTLM] = multi m /\ rtc step s0 s) /\
  methods (st_m s) = [KBasic; KNTLM] /\
  cache (st_m s) !! "" = None /\
  invocations (emitted (Scenario.do tt s)) ≠ [].
Proof.
  cbn zeta.
  assert (H0 : newMultiAuthenticator [None; Some KBasic; Some KNTLM]
               = multi (mkMulti [KBasic; KNTLM] ∅)) by reflexivity.
  assert (H1 : rtc step (mkSt (mkMulti [KBasic; KNTLM] ∅) up_example (mkWorld [KNTLM] []))
                 (post (Scenario.do tt
                          (mkSt (mkMulti [KBasic; KNTLM] ∅) up_example (mkWorld [KNTLM] [])))))
    by (apply rtc_once; apply step_do).
  split; [split; assumption|].
  destruct (built_authenticator_invariants Hostname method_do Body_Close
              _ _ _ _ _ H0 H1) as (Hm & _ & _ & He & Hinv).
  split; [exact Hm|]. split; [exact He | exact (Hinv tt)].
Defined.

(** An entry for other.example beside a request for up.example: the
    call goes as without it, and the entry stays. *)
Lemma other_host_entry_is_a_frame_witness :
  let s := fresh chain [KBasic] up_example in
  let s' := with_cached s "other.example" KNTLM in
  "other.example" ≠ MultiAuth.proxyHost_of Hostname (st_req s) /\
  val (Scenario.do tt s') = val (Scenario.do tt s) /\
  emitted (Scenario.do tt s') = emitted (Scenario.do tt s) /\
  cache (st_m (post (Scenario.do tt s'))) !! "other.example" = Some KNTLM /\
  cache (st_m (post (Scenario.do tt s'))) !! "up.example" = Some KBasic.
Proof.
  cbn zeta.
  assert (H0 : "other.example" ≠
               MultiAuth.proxyHost_of Hostname (st_req (fresh chain [KBasic] up_example)))
    by (vm_compute; discriminate).
  split; [exact H0|].
  destruct (other_host_entry_is_a_frame Hostname method_do Body_Close tt
              (fresh chain [KBasic] up_example) "other.example" KNTLM H0)
    as (Hv & He & _ & _ & Hc).
  split; [exact Hv|]. split; [exact He|].
  split; (etransitivity; [exact (f_equal (fun c => c !! _) Hc)|]); vm_compute; reflexivity.
Defined.

End more_multiauth_runs.

(** ** Further runs of the Negotiate authenticator *)

Section more_negotiate_runs.

Import Scenario.

(** A request whose context carries no proxy. *)
Lemma negotiate_without_proxy_host_witness :
  let s := Negotiate.mkSt direct tt in
  Negotiate.proxyHost_of Hostname (Negotiate.st_req s) = "" /\
  val (negotiate_do tt s) =
    Negotiate.Return (None, Some (Errorf "cannot determine proxy host for Negotiate auth")) /\
  emitted (negotiate_do tt s) = [] /\
  post (negotiate_do tt s) = s.
Proof.
  cbn zeta.
  assert (H0 : Negotiate.proxyHost_of Hostname
                 (Negotiate.st_req (Negotiate.mkSt (W := unit) direct tt)) = "")
    by reflexivity.
  split; [exact H0|].
  exact (negotiate_without_proxy_host Hostname gss_import_name gss_init_sec_context
           gss_release_name gss_delete_sec_context gss_release_buffer malloc RoundTrip
           tt _ H0).
Defined.

(** The library rejects the name of the principal: nothing is sent to
    up.example. *)
Lemma negotiate_token_failure_sends_nothing_witness :
  let s := Negotiate.mkSt up_example (mkLib GSS_S_BAD_NAME 5 0 0 0 [] true) in
  let u := mkUrl "up.example" 8080 in
  let msg := "gss_init_sec_context failed: major=131072 minor=5" in
  (ctx_proxy (Negotiate.st_req s) = Some u /\
   Hostname u ≠ "" /\
   val (lib_generateSPNEGOToken (Hostname u) s) = Negotiate.TokenReturn None (Some (Errorf msg))) /\
  val (lib_do tt s) = Negotiate.Return (None, Some (Errorf msg)) /\
  Negotiate.round_trips (emitted (lib_do tt s)) = [] /\
  Negotiate.st_req (post (lib_do tt s)) = up_example.
Proof.
  cbn zeta.
  set (s := Negotiate.mkSt up_example (mkLib GSS_S_BAD_NAME 5 0 0 0 [] true)).
  assert (H0 : ctx_proxy (Negotiate.st_req s) = Some (mkUrl "up.example" 8080))
    by reflexivity.
  assert (H1 : Hostname (mkUrl "up.example" 8080) ≠ "") by (vm_compute; discriminate).
  assert (H2 : val (lib_generateSPNEGOToken (Hostname (mkUrl "up.example" 8080)) s)
               = Negotiate.TokenReturn None
                   (Some (Errorf "gss_init_sec_context failed: major=131072 minor=5")))
    by (vm_compute; reflexivity).
  split; [repeat split; assumption|].
  destruct (negotiate_token_failure_sends_nothing Hostname lib_import_name
              lib_init_sec_context lib_release_name lib_delete_sec_context
              lib_release_buffer lib_malloc lib_RoundTrip tt s _ _ _ H0 H1 H2)
    as (Hv & Hrt & _ & Hreq).
  split; [exact Hv | split; [exact Hrt | exact Hreq]].
Defined.

(** The library rejects the name of the principal. *)
Lemma import_failure_skips_context_witness :
  let l := mkLib GSS_S_BAD_NAME 5 0 0 0 [] true in
  let s := Negotiate.mkSt up_example l in
  (lib_import_name "HTTP@up.example" (Negotiate.st_world s)
     = ((GSS_S_BAD_NAME, 5, None), l) /\
   GSS_S_BAD_NAME ≠ Negotiate.GSS_S_COMPLETE) /\
  val (lib_generateSPNEGOToken "up.example" s) =
    Negotiate.TokenReturn None
      (Some (Errorf "gss_init_sec_context failed: major=131072 minor=5")) /\
  emitted (lib_generateSPNEGOToken "up.example" s) =
    [Negotiate.EvImportName "HTTP@up.example"].
Proof.
  cbn zeta.
  set (l := mkLib GSS_S_BAD_NAME 5 0 0 0 [] true).
  assert (H0 : lib_import_name ("HTTP@" +:+ "up.example")
                 (Negotiate.st_world (Negotiate.mkSt up_example l))
               = ((GSS_S_BAD_NAME, 5, None), l)) by reflexivity.
  assert (H1 : GSS_S_BAD_NAME ≠ Negotiate.GSS_S_COMPLETE) by (vm_compute; discriminate).
  split; [split; assumption|].
  exact (import_failure_skips_context (URL := url) (RoundTripper := unit) lib_import_name
           lib_init_sec_context lib_release_name lib_delete_sec_context lib_release_buffer
           lib_malloc "up.example" _ _ _ _ _ H0 H1).
Defined.

(** No credential for the context: the minor status 9 of the failed
    call is lost, the 4 of [gss_release_name] is reported. *)
Lemma init_failure_reports_release_minor_witness :
  let l := mkLib Negotiate.GSS_S_COMPLETE 0 GSS_S_NO_CRED 9 4 [] true in
  let s := Negotiate.mkSt up_example l in
  (lib_import_name "HTTP@up.example" (Negotiate.st_world s)
     = ((Negotiate.GSS_S_COMPLETE, 0, Some "HTTP@up.example"), l) /\
   lib_init_sec_context (Some "HTTP@up.example") l = ((GSS_S_NO_CRED, 9, None, []), l) /\
   GSS_S_NO_CRED ≠ Negotiate.GSS_S_COMPLETE /\
   GSS_S_NO_CRED ≠ Negotiate.GSS_S_CONTINUE_NEEDED /\
   lib_release_name (Some "HTTP@up.example") l = (4, l)) /\
  val (lib_generateSPNEGOToken "up.example" s) =
    Negotiate.TokenReturn None
      (Some (Errorf "gss_init_sec_context failed: major=458752 minor=4")) /\
  emitted (lib_generateSPNEGOToken "up.example" s) =
    [Negotiate.EvImportName "HTTP@up.example";
     Negotiate.EvInitSecContext (Some "HTTP@up.example")].
Proof.
  cbn zeta.
  set (l := mkLib Negotiate.GSS_S_COMPLETE 0 GSS_S_NO_CRED 9 4 [] true).
  assert (H0 : lib_import_name ("HTTP@" +:+ "up.example")
                 (Negotiate.st_world (Negotiate.mkSt up_example l))
               = ((Negotiate.GSS_S_COMPLETE, 0, Some "HTTP@up.example"), l)) by reflexivity.
  assert (H1 : lib_init_sec_context (Some "HTTP@up.example") l
               = ((GSS_S_NO_CRED, 9, None, []), l)) by reflexivity.
  assert (H2 : GSS_S_NO_CRED ≠ Negotiate.GSS_S_COMPLETE) by (vm_compute; discriminate).
  assert (H3 : GSS_S_NO_CRED ≠ Negotiate.GSS_S_CONTINUE_NEEDED)
    by (vm_compute; discriminate).
  assert (H4 : lib_release_name (Some "HTTP@up.example") l = (4, l)) by reflexivity.
  split; [repeat split; assumption|].
  exact (init_failure_reports_release_minor (URL := url) (RoundTripper := unit)
           lib_import_name lib_init_sec_context lib_release_name lib_delete_sec_context
           lib_release_buffer lib_malloc "up.example" _ _ _ _ _ _ _ _ _ _ _ _
           H0 eq_refl H1 H2 H3 H4).
Defined.

(** A library in good order: the token "tok" comes back whole. *)
Lemma token_returned_iff_witness :
  let s := Negotiate.mkSt up_example sound in
  let tok := Base64.bytes_of "tok" in
  (lib_import_name "HTTP@up.example" (Negotiate.st_world s)
     = ((Negotiate.GSS_S_COMPLETE, 0, Some "HTTP@up.example"), sound) /\
   lib_init_sec_context (Some "HTTP@up.example") sound
     = ((Negotiate.GSS_S_COMPLETE, 0, None, tok), sound) /\
   lib_release_name (Some "HTTP@up.example") sound = (0, sound) /\
   Z.of_nat (length tok) < 2 ^ 31) /\
  val (lib_generateSPNEGOToken "up.example" s) = Negotiate.TokenReturn (Some tok) None.
Proof.
  cbn zeta.
  assert (H0 : lib_import_name ("HTTP@" +:+ "up.example")
                 (Negotiate.st_world (Negotiate.mkSt up_example sound))
               = ((Negotiate.GSS_S_COMPLETE, 0, Some "HTTP@up.example"), sound))
    by reflexivity.
  assert (H1 : lib_init_sec_context (Some "HTTP@up.example") sound
               = ((Negotiate.GSS_S_COMPLETE, 0, None, Base64.bytes_of "tok"), sound))
    by reflexivity.
  assert (H2 : lib_release_name (Some "HTTP@up.example") sound = (0, sound)) by reflexivity.
  assert (H3 : Z.of_nat (length (Base64.bytes_of "tok")) < 2 ^ 31) by (vm_compute; reflexivity).
  split; [repeat split; assumption|].
  apply (token_returned_iff (URL := url) (RoundTripper := unit)
           lib_import_name lib_init_sec_context lib_release_name lib_delete_sec_context
           lib_release_buffer lib_malloc "up.example" _ _ _ _ _ _ _ _ _ _ _ _ _
           H0 H1 H2 H3).
  split; [reflexivity|]. split; [left; reflexivity|].
  split; [vm_compute; discriminate|]. split; reflexivity.
Defined.

(** Every GSS call succeeds and there is no memory for the copy of
    the token. *)
Lemma no_token_is_an_error_witness :
  let l := mkLib Negotiate.GSS_S_COMPLETE 0 Negotiate.GSS_S_COMPLETE 0 0
             (Base64.bytes_of "tok") false in
  let s := Negotiate.mkSt up_example l in
  (lib_import_name "HTTP@up.example" (Negotiate.st_world s)
     = ((Negotiate.GSS_S_COMPLETE, 0, Some "HTTP@up.example"), l) /\
   lib_init_sec_context (Some "HTTP@up.example") l
     = ((Negotiate.GSS_S_COMPLETE, 0, None, Base64.bytes_of "tok"), l) /\
   lib_release_name (Some "HTTP@up.example") l = (0, l) /\
   (lib_malloc (Z.of_nat (length (Base64.bytes_of "tok"))) l).1 = false) /\
  val (lib_generateSPNEGOToken "up.example" s) =
    Negotiate.TokenReturn None
      (Some (Errorf "gss_init_sec_context returned empty token")).
Proof.
  cbn zeta.
  set (l := mkLib Negotiate.GSS_S_COMPLETE 0 Negotiate.GSS_S_COMPLETE 0 0
              (Base64.bytes_of "tok") false).
  assert (H0 : lib_import_name ("HTTP@" +:+ "up.example")
                 (Negotiate.st_world (Negotiate.mkSt up_example l))
               = ((Negotiate.GSS_S_COMPLETE, 0, Some "HTTP@up.example"), l)) by reflexivity.
  assert (H1 : lib_init_sec_context (Some "HTTP@up.example") l
               = ((Negotiate.GSS_S_COMPLETE, 0, None, Base64.bytes_of "tok"), l))
    by reflexivity.
  assert (H2 : lib_release_name (Some "HTTP@up.example") l = (0, l)) by reflexivity.
  assert (H3 : (lib_malloc (Z.of_nat (length (Base64.bytes_of "tok"))) l).1 = false)
    by reflexivity.
  split; [repeat split; assumption|].
  exact (no_token_is_an_error (URL := url) (RoundTripper := unit)
           lib_import_name lib_init_sec_context lib_release_name lib_delete_sec_context
           lib_release_buffer lib_malloc "up.example" _ _ _ _ _ _ _ _ _ _ _ _
           H0 eq_refl H1 (or_introl eq_refl) H2 (or_intror H3)).
Defined.

End more_negotiate_runs.

(** ** Runs of the search for a ticket *)

Section ticket_runs.

Import Scenario.

Local Abbreviation Second := Ticket.Second.

(** The clock of the scenario advances. *)
Local Ltac clock_advances :=
  unfold Ticket.clock_advances, clock_Now, clock_Sleep, acquire_cred, release_cred;
  split; [|split]; intros; cbn [clock snd]; lia.

(** A ticket is there: the check finds it and releases the credential
    it was handed. *)
Lemma check_releases_what_it_acquired_witness :
  let w := mkClock 0 0 in
  acquire_cred w = ((Negotiate.GSS_S_COMPLETE, 0, Some 1%nat, 36000), w) /\
  (val (checkKerberosTicket w) = true <->
     Negotiate.GSS_S_COMPLETE = Negotiate.GSS_S_COMPLETE /\ 36000 > 0) /\
  Ticket.releases (emitted (checkKerberosTicket w)) = [1%nat] /\
  post (checkKerberosTicket w) = w.
Proof.
  cbn zeta.
  assert (H0 : acquire_cred (mkClock 0 0)
               = ((Negotiate.GSS_S_COMPLETE, 0, Some 1%nat, 36000), mkClock 0 0))
    by reflexivity.
  split; [exact H0|].
  destruct (check_releases_what_it_acquired acquire_cred release_cred _ _ _ _ _ _ H0)
    as (Hiff & Hrel & _ & Hpost).
  split; [exact Hiff | split; [exact Hrel | exact Hpost]].
Defined.

(** With a ticket there is an authenticator at once, though 30 seconds
    of waiting were allowed; without one and with no waiting time there
    is none. *)
Lemma no_waiting_cases_witness :
  let have := mkClock 0 0 in
  let none := mkClock 0 (5 * Second) in
  (val (checkKerberosTicket have) = true /\
   val (checkKerberosTicket none) = false /\ 0 <= 0) /\
  val (ticket_newNegotiateAuthenticator 1 30 have) =
    Some (Some Ticket.mkNegotiateAuthenticator) /\
  Ticket.sleeps (emitted (ticket_newNegotiateAuthenticator 1 30 have)) = [] /\
  val (ticket_newNegotiateAuthenticator 1 0 none) = Some None /\
  Ticket.checks (emitted (ticket_newNegotiateAuthenticator 1 0 none)) = [false].
Proof.
  cbn zeta.
  assert (H0 : val (checkKerberosTicket (mkClock 0 0)) = true) by (vm_compute; reflexivity).
  assert (H1 : val (checkKerberosTicket (mkClock 0 (5 * Second))) = false)
    by (vm_compute; reflexivity).
  assert (H2 : 0 <= 0) by lia.
  split; [repeat split; assumption|].
  destruct (no_waiting_cases acquire_cred release_cred clock_Now clock_Sleep
              1 30 (mkClock 0 0)) as [Hhave _].
  destruct (no_waiting_cases acquire_cred release_cred clock_Now clock_Sleep
              1 0 (mkClock 0 (5 * Second))) as [_ Hnone].
  destruct (Hhave H0) as (Hv & _ & Hs). destruct (Hnone H1 H2) as (Hv' & Hc' & _).
  split; [exact Hv|]. split; [exact Hs|]. split; [exact Hv' | exact Hc'].
Defined.

(** The ticket comes after three seconds and the deadline is ten
    seconds away: the loop ends within five checks. *)
Lemma waiting_loop_is_bounded_witness :
  let w := mkClock 0 (3 * Second) in
  let o := wait_loop 6 (10 * Second) w in
  (Ticket.clock_advances acquire_cred release_cred clock_Now clock_Sleep /\
   10 * Second - clock_Now w <= 2 * Second * Z.of_nat 5 /\
   (5 < 6)%nat) /\
  exists b k,
    val o = Some b /\
    Ticket.checks (emitted o) = (replicate k false ++ (if b then [true] else []))%list /\
    Ticket.turns (emitted o) = Ticket.sleep_then_check (Ticket.checks (emitted o)) /\
    Ticket.sleeps (emitted o) = replicate (length (Ticket.checks (emitted o))) (2 * Second) /\
    (length (Ticket.checks (emitted o)) <= 5)%nat /\
    (b = false -> 10 * Second <= clock_Now (post o)).
Proof.
  cbn zeta.
  assert (Hclock : Ticket.clock_advances acquire_cred release_cred clock_Now clock_Sleep)
    by clock_advances.
  assert (H0 : 10 * Second - clock_Now (mkClock 0 (3 * Second))
               <= 2 * Second * Z.of_nat 5) by (vm_compute; discriminate).
  assert (H1 : (5 < 6)%nat) by lia.
  split; [split; [exact Hclock | split; assumption]|].
  exact (waiting_loop_is_bounded acquire_cred release_cred clock_Now clock_Sleep
           (10 * Second) 5 6 (mkClock 0 (3 * Second)) Hclock H0 H1).
Defined.

(** No ticket at the start, one after five seconds, and 30 seconds of
    waiting allowed. *)
Lemma waiting_for_a_ticket_witness :
  let w := mkClock 0 (5 * Second) in
  let o := ticket_newNegotiateAuthenticator 16 30 w in
  (Ticket.clock_advances acquire_cred release_cred clock_Now clock_Sleep /\
   0 < 30 /\ 30 * Second < 2 ^ 63 /\
   (Z.to_nat ((30 + 1) / 2) < 16)%nat /\
   val (checkKerberosTicket w) = false) /\
  exists r k,
    val o = Some r /\
    Ticket.checks (emitted o) =
      (false :: replicate k false ++ (if r is Some _ then [true] else []))%list /\
    Ticket.turns (emitted o) =
      inr false :: Ticket.sleep_then_check (tail (Ticket.checks (emitted o))) /\
    Ticket.sleeps (emitted o) =
      replicate (pred (length (Ticket.checks (emitted o)))) (2 * Second) /\
    (length (Ticket.sleeps (emitted o)) <= Z.to_nat ((30 + 1) / 2))%nat.
Proof.
  cbn zeta.
  assert (Hclock : Ticket.clock_advances acquire_cred release_cred clock_Now clock_Sleep)
    by clock_advances.
  assert (H0 : 0 < 30) by lia.
  assert (H1 : 30 * Second < 2 ^ 63) by (vm_compute; reflexivity).
  assert (H2 : (Z.to_nat ((30 + 1) / 2) < 16)%nat) by (vm_compute; lia).
  assert (H3 : val (checkKerberosTicket (mkClock 0 (5 * Second))) = false)
    by (vm_compute; reflexivity).
  split; [split; [exact Hclock | repeat split; assumption]|].
  exact (waiting_for_a_ticket acquire_cred release_cred clock_Now clock_Sleep
           16 30 (mkClock 0 (5 * Second)) Hclock H0 H1 H2 H3).
Defined.

End ticket_runs.

(** ** Runs of the start-up, of the listeners and of the loggers *)

Section more_startup_runs.

Import Scenario.

(** Started with -version beside -k and a domain: the version is
    printed and the operating system is left alone. *)
Lemma version_flag_comes_first_witness :
  let f := flags "CORP" "me" "" false true true in
  Main.version f = true /\
  val (Scenario.main f bare) = Main.Exit 0 /\
  post (Scenario.main f bare) = bare /\
  Main.stdout (emitted (Scenario.main f bare)) = ["Alpaca v1" +:+ Main.LF].
Proof.
  cbn zeta.
  assert (H0 : Main.version (flags "CORP" "me" "" false true true) = true) by reflexivity.
  split; [exact H0|].
  destruct (version_flag_comes_first "v1" Getenv newBasicAuthenticator fromTerminal_forUser
              fromEnvVar fromKeyring getCredentials newNegotiateAuthenticator format_q
              _ bare H0) as (Hv & Hp & Hout & _).
  split; [exact Hv | split; [exact Hp | exact Hout]].
Defined.

(** Started with -k, -b and a domain where a ticket is held: a
    multi-authenticator over Negotiate, Basic, NTLM is served. *)
Lemma served_authenticator_witness :
  let f := flags "CORP" "me" "u:p" false true false in
  let w := mkOS "" None true in
  (Main.version f = false /\ Main.printHash f = false) /\
  exists listen ms,
    val (Scenario.main f w) = Main.Serve listen (MultiAuth.newMultiAuthenticator (Some <$> ms)) /\
    (Main.kind_of <$> ms) `sublist_of` design_order /\
    (KBasic ∈ Main.kind_of <$> ms) /\
    (KNTLM ∈ Main.kind_of <$> ms).
Proof.
  cbn zeta.
  assert (H0 : Main.version (flags "CORP" "me" "u:p" false true false) = false)
    by reflexivity.
  assert (H1 : Main.printHash (flags "CORP" "me" "u:p" false true false) = false)
    by reflexivity.
  split; [split; assumption|].
  destruct (served_authenticator "v1" Getenv newBasicAuthenticator fromTerminal_forUser
              fromEnvVar fromKeyring getCredentials newNegotiateAuthenticator format_q
              _ (mkOS "" None true) H0 H1)
    as (listen & ms & Hv & Hsub & Hb & Hn & _).
  exists listen, ms. split; [exact Hv|]. split; [exact Hsub|]. split.
  - apply Hb. split; [vm_compute; discriminate | eexists; reflexivity].
  - apply Hn. eexists. vm_compute. reflexivity.
Defined.

(** Started without -k: the start-up is the same with a function that
    always finds a ticket. *)
Lemma ticket_lookup_needs_k_witness :
  let f := flags "CORP" "me" "" false false false in
  let always (wait : Z) (os : OS) : option unit * OS := (Some tt, os) in
  (Main.version f = true \/ Main.printHash f = true \/ Main.kerberos f = false) /\
  Scenario.main f bare =
  Main.main "v1" Getenv newBasicAuthenticator fromTerminal_forUser fromEnvVar fromKeyring
    getCredentials always format_q f bare.
Proof.
  cbn zeta.
  assert (H0 : Main.version (flags "CORP" "me" "" false false false) = true \/
               Main.printHash (flags "CORP" "me" "" false false false) = true \/
               Main.kerberos (flags "CORP" "me" "" false false false) = false)
    by (right; right; reflexivity).
  split; [exact H0|].
  exact (ticket_lookup_needs_k "v1" Getenv newBasicAuthenticator fromTerminal_forUser
           fromEnvVar fromKeyring getCredentials newNegotiateAuthenticator format_q
           _ bare (fun (wait : Z) (os : OS) => (Some tt, os)) H0).
Defined.

(** localhost has an IPv6 and an IPv4 address: tcp4 and tcp6. *)
Lemma networks_of_a_name_witness :
  ("localhost" ≠ "" /\
   LookupIP "localhost" tt = (([IPv6 "::1"; IPv4 127 0 0 1], None), tt)) /\
  exists nets,
    val (networks "localhost" tt) = Listen.Return nets /\
    "tcp4" ∈ nets /\ "tcp6" ∈ nets /\
    nets `sublist_of` ["tcp4"; "tcp6"].
Proof.
  assert (H0 : "localhost" ≠ "") by discriminate.
  assert (H1 : LookupIP "localhost" tt = (([IPv6 "::1"; IPv4 127 0 0 1], None), tt))
    by reflexivity.
  split; [split; assumption|].
  destruct (networks_of_a_name LookupIP To4 "localhost" tt _ _ H0 H1)
    as (nets & Hv & H4 & H6 & Hsub & _).
  exists nets. split; [exact Hv|]. split; [|split; [|exact Hsub]].
  - apply H4. exists (IPv4 127 0 0 1). split; [right; left | eexists; reflexivity].
  - apply H6. exists (IPv6 "::1"). split; [left | reflexivity].
Defined.

(** Listening on localhost and v4.example, port 3128. *)
Lemma listeners_started_witness :
  let hosts := ["localhost"; "v4.example"] in
  let o := listen_all hosts 3128 tt in
  (("" ∉ hosts) /\ val o = Listen.Return tt) /\
  Listen.lookups (emitted o) = hosts /\
  forall n a, (n, a) ∈ Listen.started (emitted o) -> n = "tcp4" \/ n = "tcp6".
Proof.
  cbn zeta.
  assert (H0 : "" ∉ ["localhost"; "v4.example"]).
  { intros Hin. repeat (apply elem_of_cons in Hin as [Hin | Hin]; [discriminate|]).
    apply elem_of_nil in Hin. exact Hin. }
  assert (H1 : val (listen_all ["localhost"; "v4.example"] 3128 tt) = Listen.Return tt)
    by (vm_compute; reflexivity).
  split; [split; assumption|].
  destruct (listeners_started LookupIP To4 JoinHostPort _ 3128 tt H0)
    as (Hst & Hret & _).
  split; [exact (proj1 (Hret H1))|].
  intros n a Hin. exact (proj1 (Hst n a Hin)).
Defined.

(** The command line -l "" -l v4.example -d CORP: the program listens
    on v4.example alone. *)
Lemma listeners_have_named_hosts_witness :
  let values := [""; "v4.example"] in
  let f := Main.mkFlags ["v4.example"] 3128 "" "CORP" "me" "" false false 30 false false
             false in
  let auth := MultiAuth.single (Main.NTLM (negotiateAuthenticator := unit)
                                  (basicAuthenticator := string) "CORP:me") in
  (Main.hosts f = (Listen.flag_Parse values []).1 /\
   val (Scenario.main f bare) = Main.Serve ["v4.example"] auth) /\
  (Listen.flag_Parse values []).2 = None /\
  ["v4.example"] ≠ [] /\
  ("" ∉ ["v4.example"]) /\
  forall n a, (n, a) ∈ Listen.started (emitted (listen_all ["v4.example"] 3128 tt)) ->
              n = "tcp4" \/ n = "tcp6".
Proof.
  cbn zeta.
  set (f := Main.mkFlags ["v4.example"] 3128 "" "CORP" "me" "" false false 30 false false
              false).
  assert (H0 : Main.hosts f = (Listen.flag_Parse [""; "v4.example"] []).1)
    by (vm_compute; reflexivity).
  assert (H1 : val (Scenario.main f bare)
               = Main.Serve ["v4.example"]
                   (MultiAuth.single (Main.NTLM (negotiateAuthenticator := unit)
                                        (basicAuthenticator := string) "CORP:me")))
    by (vm_compute; reflexivity).
  split; [split; assumption|].
  destruct (listeners_have_named_hosts "v1" Getenv newBasicAuthenticator
              fromTerminal_forUser fromEnvVar fromKeyring getCredentials
              newNegotiateAuthenticator format_q LookupIP To4 JoinHostPort
              [""; "v4.example"] f bare _ _ tt H0 H1)
    as (Hp & _ & Hne & Hnamed & Hnet).
  split; [exact Hp|]. split; [exact Hne|]. split; [exact Hnamed | exact Hnet].
Defined.

(** A handler that sends 200 and later calls [WriteHeader] with 500:
    the line says 500. A handler that only writes a body: 200. *)
Lemma logged_status_is_last_written_witness :
  RequestLogger.written (emitted (ServeHTTP tunnel (RequestLogger.mkSt
    (RequestLogger.mkStatusWriter RequestLogger.StatusOK) (RequestLogger.st_req incoming)
    (RequestLogger.st_world incoming)))) = [] /\
  RequestLogger.lines (emitted (text_logger tunnel incoming)) =
    ["[7] 200 GET http://up.example:80/"] /\
  emitted (text_logger twice incoming) =
    [RequestLogger.EvWriteHeader 200; RequestLogger.EvWrite (Base64.bytes_of "ok");
     RequestLogger.EvWriteHeader 500;
     RequestLogger.EvLog "[7] 500 GET http://up.example:80/"].
Proof.
  assert (H0 : RequestLogger.written (emitted (ServeHTTP tunnel (RequestLogger.mkSt
                 (RequestLogger.mkStatusWriter RequestLogger.StatusOK)
                 (RequestLogger.st_req incoming) (RequestLogger.st_world incoming)))) = [])
    by (vm_compute; reflexivity).
  split; [exact H0|].
  destruct (logged_status_is_last_written rw_WriteHeader rw_Write None url_String
              tunnel incoming) as (_ & _ & Hnone & _).
  destruct (logged_status_is_last_written rw_WriteHeader rw_Write None url_String
              twice incoming) as (Hev & _).
  split.
  - etransitivity; [exact (Hnone H0)|]. vm_compute. reflexivity.
  - etransitivity; [exact Hev|]. vm_compute. reflexivity.
Defined.

(** The same handler under the JSON logger: the entry says 500. *)
Lemma json_entry_of_a_request_witness :
  emitted (json_logger twice incoming) =
    [RequestLogger.EvWriteHeader 200; RequestLogger.EvWrite (Base64.bytes_of "ok");
     RequestLogger.EvWriteHeader 500;
     RequestLogger.EvStdout ("{status:500}" +:+ Main.LF)] /\
  post (json_logger twice incoming) =
    RequestLogger.mkSt (RequestLogger.mkStatusWriter 500) (RequestLogger.st_req incoming)
      (mkWriter (Some 200) 2).
Proof.
  destruct (json_entry_of_a_request rw_WriteHeader rw_Write None url_Host url_String
              Now_RFC3339Nano json_Marshal twice incoming) as (Hev & _ & Hp).
  split.
  - etransitivity; [exact Hev|]. vm_compute. reflexivity.
  - etransitivity; [exact Hp|]. vm_compute. reflexivity.
Defined.

(** The writer of the scenario is no hijacker: the tunnel handler gets
    the error and writes its two bytes. *)
Lemma hijack_needs_a_hijacker_witness :
  @None (Writer -> (option unit * option error) * Writer) = None /\
  ServeHTTP tunnel incoming =
    ServeHTTP (RequestLogger.CallWrite (Base64.bytes_of "no") (fun _ => RequestLogger.Done))
      incoming /\
  (RequestLogger.EvHijack ∉ emitted (text_logger tunnel incoming)).
Proof.
  split; [reflexivity|].
  destruct (hijack_needs_a_hijacker rw_WriteHeader rw_Write None url_Host url_String
              Now_RFC3339Nano json_Marshal tunnel incoming eq_refl) as (Hk & Ht & _).
  split; [|exact Ht].
  exact (Hk (fun r => match r.2 with
                      | Some _ => RequestLogger.CallWrite (Base64.bytes_of "no")
                                    (fun _ => RequestLogger.Done)
                      | None => RequestLogger.Done
                      end)).
Defined.

End more_startup_runs.
